(** * ZenChain (ZC.py): blocks, proof of work, ledger and NFT registry

    A shallow embedding of [src/ZC.py].  The three classes of the program
    ([Transaction], [Block], [ZenChain]) become three modules of the same
    names; the library calls the program relies on ([hashlib.sha256],
    [json.dumps(..., sort_keys=True)]) are embedded as executable
    functions in the modules [SHA256] and [Json], and checked against the
    digests [hashlib] gives for the same objects.

    Conventions of the embedding:
    - Python [str] is [string]; a character is a code point below 256.
    - The ledger operations ([Transaction], [Block], mining, the validity
      scan, the NFT registry) carry amounts and clock readings that are
      Python [int]s, embedded as [Z].
    - [get_balance] is the one operation that computes with amounts, and
      the program also passes it [float]s ([float(input(...))] in the
      command loop).  It is embedded over Python numbers, module [Python]:
      an [int] of any size or a [float], an IEEE 754 binary64 with
      rounding to nearest, ties to even, and with the conversion of an
      [int] operand that Python makes in mixed arithmetic.  [get_balance]
      reads of the ledger the chain, of a block its transaction list and
      of a transaction its sender, recipient and amount: module [Accounts]
      holds these attributes and the loop over them, and [Accounts.of_ledger]
      is what [get_balance] sees of a ledger with [int] amounts.  A
      decimal [float] literal stands, as in Python, for the nearest
      binary64.
    - [time.time()] is a read of the environment: every operation that
      reads the clock takes the value read as an explicit argument.
    - The difficulty is a number of characters, a [nat].
    - [print] calls have no effect on the state and are dropped.
    - The unbounded [while] loop of [mine_block] takes a fuel argument and
      returns [None] when the fuel runs out.
    - Lists and dictionaries are embedded by value.  The program never
      writes through two references to one object:
      [mine_pending_transactions] hands the pending list to the new block
      and binds [pending_transactions] to a fresh list, and the entries of
      the registry and the payloads of transactions are built afresh.
    - The QR code and the command loop ([generate_qr_code], [main]) are
      input and output around these operations and are not embedded. *)

From Stdlib Require Import PrimFloat SpecFloat FloatOps.
From Stdlib Require Import ZArith List String Ascii Lia Bool.
From stdpp Require Import base decidable option list strings pretty gmap finite.

Set Warnings "-inexact-float".

Local Open Scope Z_scope.
Local Open Scope string_scope.

(* ===================================================================== *)
(** ** SHA-256 (FIPS 180-4), as used through [hashlib.sha256(...).hexdigest()] *)
(* ===================================================================== *)

Module SHA256.

Local Open Scope Z_scope.

(** Truncation to 32 bits. *)
Definition mask32 : Z := 4294967295.
Definition trunc32 (x : Z) : Z := Z.land x mask32.

Definition add32 (x y : Z) : Z := trunc32 (x + y).
Definition rotr (n x : Z) : Z :=
  Z.lor (Z.shiftr x n) (trunc32 (Z.shiftl x (32 - n))).
Definition shr (n x : Z) : Z := Z.shiftr x n.
Definition not32 (x : Z) : Z := Z.lxor x mask32.

Definition Ch (x y z : Z) : Z := Z.lxor (Z.land x y) (Z.land (not32 x) z).
Definition Maj (x y z : Z) : Z :=
  Z.lxor (Z.lxor (Z.land x y) (Z.land x z)) (Z.land y z).
Definition Sigma0 (x : Z) : Z := Z.lxor (Z.lxor (rotr 2 x) (rotr 13 x)) (rotr 22 x).
Definition Sigma1 (x : Z) : Z := Z.lxor (Z.lxor (rotr 6 x) (rotr 11 x)) (rotr 25 x).
Definition sigma0 (x : Z) : Z := Z.lxor (Z.lxor (rotr 7 x) (rotr 18 x)) (shr 3 x).
Definition sigma1 (x : Z) : Z := Z.lxor (Z.lxor (rotr 17 x) (rotr 19 x)) (shr 10 x).

(** The constants of the standard are derived from the first primes:
    the first 32 bits of the fractional part of a square or cube root. *)
Definition is_prime (n : Z) : bool :=
  forallb (fun d => negb (n mod Z.of_nat d =? 0)) (seq 2 (Z.to_nat n - 2)).

Definition primes : list Z :=
  List.filter is_prime (List.map Z.of_nat (seq 2 310)).

(** Largest [r] below [2 ^ bits] with [r ^ 3 <= x], one bit at a time. *)
Fixpoint cube_root (bits : nat) (x r : Z) : Z :=
  match bits with
  | O => r
  | S b =>
      let r' := r + 2 ^ Z.of_nat b in
      cube_root b x (if r' ^ 3 <=? x then r' else r)
  end.

Definition frac_cube_root (p : Z) : Z := trunc32 (cube_root 35 (p * 2 ^ 96) 0).
Definition frac_sqrt (p : Z) : Z := trunc32 (Z.sqrt (p * 2 ^ 64)).

(** Round constants: cube roots of the first 64 primes. *)
Definition K : list Z :=
  Eval vm_compute in List.map frac_cube_root (firstn 64 primes).

(** Initial hash value: square roots of the first 8 primes. *)
Definition H0 : list Z :=
  Eval vm_compute in List.map frac_sqrt (firstn 8 primes).

(** Message bytes of a string. *)
Fixpoint bytes_of_string (s : string) : list Z :=
  match s with
  | EmptyString => []
  | String c s' => Z.of_N (N_of_ascii c) :: bytes_of_string s'
  end.

(** Big-endian bytes of [x], [n] of them. *)
Fixpoint be_bytes (n : nat) (x : Z) : list Z :=
  match n with
  | O => []
  | S n' => Z.land (Z.shiftr x (8 * Z.of_nat n')) 255 :: be_bytes n' x
  end.

(** Padding: a 1 bit, zeros up to 56 mod 64, the bit length on 8 bytes. *)
Definition pad (msg : list Z) : list Z :=
  let len := Z.of_nat (length msg) in
  let zeros := Z.to_nat ((55 - len) mod 64) in
  msg ++ [128] ++ repeat 0 zeros ++ be_bytes 8 (8 * len).

(** One big-endian 32-bit word out of four bytes. *)
Definition word_of_bytes (b0 b1 b2 b3 : Z) : Z :=
  Z.lor (Z.lor (Z.shiftl b0 24) (Z.shiftl b1 16)) (Z.lor (Z.shiftl b2 8) b3).

Fixpoint words_of_bytes (fuel : nat) (bs : list Z) : list Z :=
  match fuel, bs with
  | S fuel', b0 :: b1 :: b2 :: b3 :: rest =>
      word_of_bytes b0 b1 b2 b3 :: words_of_bytes fuel' rest
  | _, _ => []
  end.

(** Message schedule.  [w] holds the words computed so far, newest first. *)
Fixpoint schedule (n : nat) (w : list Z) : list Z :=
  match n with
  | O => w
  | S n' =>
      let wt := add32 (add32 (sigma1 (nth 1 w 0)) (nth 6 w 0))
                      (add32 (sigma0 (nth 14 w 0)) (nth 15 w 0)) in
      schedule n' (wt :: w)
  end.

Record regs := Regs { ra : Z; rb : Z; rc : Z; rd : Z; re : Z; rf : Z; rg : Z; rh : Z }.

Definition round (r : regs) (kw : Z * Z) : regs :=
  let t1 := add32 (add32 (add32 (rh r) (Sigma1 (re r))) (Ch (re r) (rf r) (rg r)))
                  (add32 (fst kw) (snd kw)) in
  let t2 := add32 (Sigma0 (ra r)) (Maj (ra r) (rb r) (rc r)) in
  Regs (add32 t1 t2) (ra r) (rb r) (rc r) (add32 (rd r) t1) (re r) (rf r) (rg r).

Definition regs_of_list (h : list Z) : regs :=
  Regs (nth 0 h 0) (nth 1 h 0) (nth 2 h 0) (nth 3 h 0)
       (nth 4 h 0) (nth 5 h 0) (nth 6 h 0) (nth 7 h 0).

Definition list_of_regs (r : regs) : list Z :=
  [ra r; rb r; rc r; rd r; re r; rf r; rg r; rh r].

(** Compression of one 16-word block into the chaining value [h]. *)
Definition compress (h : list Z) (block : list Z) : list Z :=
  let w := List.rev (schedule 48 (List.rev block)) in
  let r := fold_left round (combine K w) (regs_of_list h) in
  List.map (fun p => add32 (fst p) (snd p)) (combine h (list_of_regs r)).

Fixpoint blocks (fuel : nat) (h : list Z) (ws : list Z) : list Z :=
  match fuel with
  | O => h
  | S fuel' =>
      match ws with
      | [] => h
      | _ => blocks fuel' (compress h (firstn 16 ws)) (skipn 16 ws)
      end
  end.

(** The digest as eight 32-bit words. *)
Definition digest_words (msg : list Z) : list Z :=
  let bs := pad msg in
  let ws := words_of_bytes (length bs) bs in
  blocks (length ws) H0 ws.

Definition hex_digit (d : Z) : ascii :=
  ascii_of_N (Z.to_N (if d <? 10 then 48 + d else 87 + d)).

(** [n] lowercase hexadecimal digits of [x], most significant first. *)
Fixpoint hex (n : nat) (x : Z) : string :=
  match n with
  | O => EmptyString
  | S n' => String (hex_digit (Z.land (Z.shiftr x (4 * Z.of_nat n')) 15)) (hex n' x)
  end.

Fixpoint hex_words (ws : list Z) : string :=
  match ws with
  | [] => EmptyString
  | w :: ws' => hex 8 w ++ hex_words ws'
  end.

(** [hashlib.sha256(s.encode()).hexdigest()] for a string of 7-bit characters. *)
Definition hexdigest (s : string) : string :=
  hex_words (digest_words (bytes_of_string s)).

(** Every list of [n] words of 32 bits: where digests live.  Used in
    counting arguments only, never evaluated. *)
Definition words32 : list Z := seqZ 0 4294967296.

Fixpoint word_lists (n : nat) : list (list Z) :=
  match n with
  | O => [[]]
  | S n' => flat_map (fun w => List.map (cons w) (word_lists n')) words32
  end.

(** The shape of a chaining value: eight words of 32 bits. *)
Definition digest_like (h : list Z) : Prop :=
  length h = 8%nat /\ Forall (fun w => 0 <= w < 4294967296) h.

End SHA256.

(* ===================================================================== *)
(** ** [json.dumps(v, sort_keys=True)] on the values the program builds *)
(* ===================================================================== *)

Module Json.

(** The Python values that reach [json.dumps]: [None], integers, strings,
    lists and dictionaries with string keys (in insertion order). *)
#[warnings="-register-all"]
Inductive value : Type :=
| Null
| Int (n : Z)
| Str (s : string)
| Arr (l : list value)
| Obj (d : list (string * value)).

Definition dquote : ascii := "034"%char.
Definition backslash : ascii := "092"%char.

Definition str1 (c : ascii) : string := String c EmptyString.

(** Escaping of one character with [ensure_ascii] on (the default). *)
Definition escape_char (c : ascii) : string :=
  let n := N_of_ascii c in
  if (n =? 34)%N then String backslash (str1 dquote)
  else if (n =? 92)%N then String backslash (str1 backslash)
  else if (n =? 8)%N then String backslash "b"
  else if (n =? 12)%N then String backslash "f"
  else if (n =? 10)%N then String backslash "n"
  else if (n =? 13)%N then String backslash "r"
  else if (n =? 9)%N then String backslash "t"
  else if ((n <? 32) || (126 <? n))%N
       then String backslash (String "u" (SHA256.hex 4 (Z.of_N n)))
  else str1 c.

Fixpoint escape (s : string) : string :=
  match s with
  | EmptyString => EmptyString
  | String c s' => escape_char c ++ escape s'
  end.

Definition dumps_str (s : string) : string :=
  String dquote (escape s ++ str1 dquote).

(** Stable insertion of a rendered item by key: [sorted(dct.items())]. *)
Fixpoint insert_item (kv : string * string) (l : list (string * string))
  : list (string * string) :=
  match l with
  | [] => [kv]
  | kv' :: l' =>
      if String.ltb (fst kv) (fst kv') then kv :: l
      else kv' :: insert_item kv l'
  end.

Definition sort_items (l : list (string * string)) : list (string * string) :=
  fold_left (fun acc kv => insert_item kv acc) l [].

Definition dumps_item (kv : string * string) : string :=
  dumps_str (fst kv) ++ ": " ++ snd kv.

(** Default separators [", "] and [": "], keys sorted. *)
Fixpoint dumps (v : value) : string :=
  match v with
  | Null => "null"
  | Int n => pretty n
  | Str s => dumps_str s
  | Arr l => "[" ++ String.concat ", " (List.map dumps l) ++ "]"
  | Obj d =>
      "{" ++ String.concat ", "
               (List.map dumps_item
                  (sort_items (List.map (fun '(k, v) => (k, dumps v)) d)))
          ++ "}"
  end.

End Json.

(* ===================================================================== *)
(** ** class Transaction *)
(* ===================================================================== *)

Module Transaction.

Record t : Type := mk {
  sender : option string;      (* [None] for system transactions *)
  recipient : string;
  amount : Z;
  nft_data : Json.value;       (* [Json.Null] for [None] *)
  timestamp : Z;
  hash : string
}.

Definition json_of_sender (s : option string) : Json.value :=
  match s with
  | None => Json.Null
  | Some a => Json.Str a
  end.

Definition calculate_hash (self : t) : string :=
  let transaction_string :=
    Json.dumps (Json.Obj
      [ ("sender", json_of_sender (sender self));
        ("recipient", Json.Str (recipient self));
        ("amount", Json.Int (amount self));
        ("nft_data", nft_data self);
        ("timestamp", Json.Int (timestamp self)) ]) in
  SHA256.hexdigest transaction_string.

(** [Transaction(sender, recipient, amount, nft_data)], the clock reading [now]. *)
Definition init (sender : option string) (recipient : string) (amount : Z)
    (nft_data : Json.value) (now : Z) : t :=
  let self := mk sender recipient amount nft_data now EmptyString in
  mk sender recipient amount nft_data now (calculate_hash self).

Definition to_dict (self : t) : Json.value :=
  Json.Obj
    [ ("sender", json_of_sender (sender self));
      ("recipient", Json.Str (recipient self));
      ("amount", Json.Int (amount self));
      ("nft_data", nft_data self);
      ("timestamp", Json.Int (timestamp self));
      ("hash", Json.Str (hash self)) ].

(** Assignment to the [amount] attribute of an existing object. *)
Definition set_amount (a : Z) (self : t) : t :=
  mk (sender self) (recipient self) a (nft_data self) (timestamp self) (hash self).

End Transaction.

(* ===================================================================== *)
(** ** class Block *)
(* ===================================================================== *)

Module Block.

Record t : Type := mk {
  index : Z;
  transactions : list Transaction.t;
  timestamp : Z;
  previous_hash : string;
  nonce : Z;
  hash : string
}.

Definition block_string (self : t) : string :=
  Json.dumps (Json.Obj
    [ ("index", Json.Int (index self));
      ("transactions", Json.Arr (List.map Transaction.to_dict (transactions self)));
      ("timestamp", Json.Int (timestamp self));
      ("previous_hash", Json.Str (previous_hash self));
      ("nonce", Json.Int (nonce self)) ]).

Definition calculate_hash (self : t) : string :=
  SHA256.hexdigest (block_string self).

(** [Block(index, transactions, timestamp, previous_hash, nonce)]. *)
Definition init (index : Z) (transactions : list Transaction.t) (timestamp : Z)
    (previous_hash : string) (nonce : Z) : t :=
  let self := mk index transactions timestamp previous_hash nonce EmptyString in
  mk index transactions timestamp previous_hash nonce (calculate_hash self).

(** ['0' * difficulty] *)
Fixpoint zeros (difficulty : nat) : string :=
  match difficulty with
  | O => EmptyString
  | S d => String "0" (zeros d)
  end.

(** The loop test [self.hash[:difficulty] != '0' * difficulty]. *)
Definition unsolved (difficulty : nat) (self : t) : bool :=
  negb (String.eqb (substring 0 difficulty (hash self)) (zeros difficulty)).

(** The loop body: [self.nonce += 1; self.hash = self.calculate_hash()]. *)
Definition bump (self : t) : t :=
  let self' := mk (index self) (transactions self) (timestamp self)
                  (previous_hash self) (nonce self + 1) (hash self) in
  mk (index self') (transactions self') (timestamp self')
     (previous_hash self') (nonce self') (calculate_hash self').

(** [mine_block]: the [while] loop, at most [fuel] iterations. *)
Fixpoint mine_block (fuel : nat) (difficulty : nat) (self : t) : option t :=
  if unsolved difficulty self then
    match fuel with
    | O => None
    | S fuel' => mine_block fuel' difficulty (bump self)
    end
  else Some self.

(** Replacing the transaction list of an existing object. *)
Definition set_transactions (txs : list Transaction.t) (self : t) : t :=
  mk (index self) txs (timestamp self) (previous_hash self) (nonce self) (hash self).

End Block.

(* ===================================================================== *)
(** ** class ZenChain *)
(* ===================================================================== *)

Module ZenChain.

Local Open Scope list_scope.

(** One entry of [nft_collections]: the dictionary with the keys
    ["owner"], ["name"], ["description"] and ["created_at"]. *)
Record nft : Type := mk_nft {
  owner : string;
  name : string;
  description : string;
  created_at : Z
}.

Record t : Type := mk {
  chain : list Block.t;
  difficulty : nat;
  pending_transactions : list Transaction.t;
  mining_reward : Z;
  nft_collections : gmap string nft
}.

(** How a call that may raise or loop ends. *)
Inductive outcome (A : Type) : Type :=
| Returns (a : A)
| IndexError
| OutOfFuel.
Arguments Returns {A} a.
Arguments IndexError {A}.
Arguments OutOfFuel {A}.

Definition create_genesis_block (now : Z) : Block.t :=
  Block.init 0 [] now "0" 0.

(** [ZenChain()], the clock reading [now] going to the genesis block. *)
Definition init (now : Z) : t :=
  mk [create_genesis_block now] 2 [] 100 ∅.

(** [self.chain[-1]]; [None] stands for the [IndexError] on an empty list. *)
Definition get_latest_block (self : t) : option Block.t :=
  last (chain self).

Definition mine_pending_transactions (fuel : nat) (now_block now_reward : Z)
    (mining_reward_address : string) (self : t) : outcome t :=
  match get_latest_block self with
  | None => IndexError
  | Some latest =>
      let block :=
        Block.init (Z.of_nat (length (chain self))) (pending_transactions self)
                   now_block (Block.hash latest) 0 in
      match Block.mine_block fuel (difficulty self) block with
      | None => OutOfFuel
      | Some block =>
          Returns
            (mk (chain self ++ [block])
                (difficulty self)
                [Transaction.init None mining_reward_address
                   (mining_reward self) Json.Null now_reward]
                (mining_reward self)
                (nft_collections self))
      end
  end.

Definition create_transaction (transaction : Transaction.t) (self : t) : t :=
  mk (chain self) (difficulty self)
     (pending_transactions self ++ [transaction])
     (mining_reward self) (nft_collections self).

Definition get_transaction_history (address : string) (self : t)
  : list Json.value :=
  fold_left
    (fun history block =>
       fold_left
         (fun history trans =>
            if bool_decide (Transaction.sender trans = Some address)
               || bool_decide (Transaction.recipient trans = address)
            then history ++ [Transaction.to_dict trans] else history)
         (Block.transactions block) history)
    (chain self) [].

(** The two tests of the loop body on block [i]; [false] when one of them
    makes the body [return False].  Both lookups succeed for every [i] of
    [range(1, len(chain))]. *)
Definition block_passes (chain : list Block.t) (i : nat) : bool :=
  match chain !! i, chain !! (i - 1)%nat with
  | Some current_block, Some previous_block =>
      if negb (String.eqb (Block.hash current_block)
                          (Block.calculate_hash current_block))
      then false
      else if negb (String.eqb (Block.previous_hash current_block)
                               (Block.hash previous_block))
      then false
      else true
  | _, _ => false
  end.

(** The [for] loop over a range of indices, leaving at the first failure. *)
Fixpoint is_chain_valid_loop (chain : list Block.t) (range : list nat) : bool :=
  match range with
  | [] => true
  | i :: range' =>
      if block_passes chain i then is_chain_valid_loop chain range' else false
  end.

Definition is_chain_valid (self : t) : bool :=
  is_chain_valid_loop (chain self) (seq 1 (length (chain self) - 1)).

Definition create_nft (now_created now_tx : Z)
    (owner_address nft_id nft_name nft_description : string) (self : t)
  : bool * t :=
  match nft_collections self !! nft_id with
  | Some _ => (false, self)
  | None =>
      let self :=
        mk (chain self) (difficulty self) (pending_transactions self)
           (mining_reward self)
           (<[nft_id := mk_nft owner_address nft_name nft_description now_created]>
              (nft_collections self)) in
      let nft_transaction :=
        Transaction.init None owner_address 0
          (Json.Obj [ ("action", Json.Str "create");
                      ("nft_id", Json.Str nft_id);
                      ("name", Json.Str nft_name);
                      ("description", Json.Str nft_description) ])
          now_tx in
      (true, create_transaction nft_transaction self)
  end.

Definition transfer_nft (now_tx : Z) (sender recipient nft_id : string)
    (self : t) : bool * t :=
  match nft_collections self !! nft_id with
  | None => (false, self)
  | Some entry =>
      if negb (String.eqb (owner entry) sender) then (false, self)
      else
        let self :=
          mk (chain self) (difficulty self) (pending_transactions self)
             (mining_reward self)
             (<[nft_id := mk_nft recipient (name entry) (description entry)
                                 (created_at entry)]>
                (nft_collections self)) in
        let nft_transaction :=
          Transaction.init (Some sender) recipient 0
            (Json.Obj [ ("action", Json.Str "transfer");
                        ("nft_id", Json.Str nft_id) ])
            now_tx in
        (true, create_transaction nft_transaction self)
  end.

(** *** Reachable ledger states *)

(** One call of a public operation that returns. *)
Inductive step : t -> t -> Prop :=
| step_create_transaction self transaction :
    step self (create_transaction transaction self)
| step_mine_pending_transactions self fuel now_block now_reward address self' :
    mine_pending_transactions fuel now_block now_reward address self = Returns self' ->
    step self self'
| step_create_nft self now_created now_tx owner_address nft_id nft_name nft_description :
    step self (snd (create_nft now_created now_tx owner_address nft_id
                               nft_name nft_description self))
| step_transfer_nft self now_tx sender recipient nft_id :
    step self (snd (transfer_nft now_tx sender recipient nft_id self)).

Inductive reachable : t -> Prop :=
| reachable_init now : reachable (init now)
| reachable_step self self' : reachable self -> step self self' -> reachable self'.

(** *** Tampering with a committed transaction *)

(** [chain[i].transactions[j].amount = a], nothing re-mined.  The
    transaction object is taken to be referenced from that position only. *)
Definition tamper_amount (i j : nat) (a : Z) (chain : list Block.t)
  : list Block.t :=
  match chain !! i with
  | None => chain
  | Some block =>
      match Block.transactions block !! j with
      | None => chain
      | Some trans =>
          <[i := Block.set_transactions
                   (<[j := Transaction.set_amount a trans]> (Block.transactions block))
                   block]> chain
      end
  end.

Definition with_chain (chain : list Block.t) (self : t) : t :=
  mk chain (difficulty self) (pending_transactions self)
     (mining_reward self) (nft_collections self).

Definition with_pending (pending : list Transaction.t) (self : t) : t :=
  mk (chain self) (difficulty self) pending
     (mining_reward self) (nft_collections self).

(** *** Sums over the committed transactions, in exact integers *)

Definition committed_transactions (self : t) : list Transaction.t :=
  List.concat (List.map Block.transactions (chain self)).

(** Amount added when [address] is the recipient, subtracted when it is
    the sender. *)
Definition contribution (address : string) (trans : Transaction.t) : Z :=
  ((if bool_decide (Transaction.recipient trans = address)
    then Transaction.amount trans else 0)
   - (if bool_decide (Transaction.sender trans = Some address)
      then Transaction.amount trans else 0))%Z.

Definition sum_contributions (address : string) (l : list Transaction.t) : Z :=
  foldr (fun trans acc => (contribution address trans + acc)%Z) 0%Z l.

Definition balance_sum (address : string) (self : t) : Z :=
  sum_contributions address (committed_transactions self).

(** The sum of [f a] over the addresses [a] of a list. *)
Definition sum_over (l : list string) (f : string -> Z) : Z :=
  foldr (fun a acc => (f a + acc)%Z) 0%Z l.

(** The block handed to [mine_block] by [mine_pending_transactions]. *)
Definition candidate_block (self : t) (now_block : Z) (latest : Block.t) : Block.t :=
  Block.init (Z.of_nat (length (chain self))) (pending_transactions self)
             now_block (Block.hash latest) 0.

End ZenChain.

(* ===================================================================== *)
(** ** Python numbers *)
(* ===================================================================== *)

Module Python.

Local Open Scope Z_scope.

(** A number: an [int], of any size, or a [float], an IEEE 754 binary64. *)
Inductive number : Type :=
| Int (n : Z)
| Float (x : float).

(** [float(n)], the conversion Python applies to the [int] operand of an
    operation whose other operand is a [float]: the nearest binary64, ties
    to even.  [None] stands for the [OverflowError] of an [int] too large
    to convert. *)
Definition float_of_int (n : Z) : option float :=
  match binary_normalize prec emax n 0 false with
  | S754_infinity _ => None
  | x => Some (SF2Prim x)
  end.

(** [x + y]. *)
Definition add (x y : number) : option number :=
  match x, y with
  | Int a, Int b => Some (Int (a + b))
  | Int a, Float b =>
      match float_of_int a with
      | Some a' => Some (Float (PrimFloat.add a' b))
      | None => None
      end
  | Float a, Int b =>
      match float_of_int b with
      | Some b' => Some (Float (PrimFloat.add a b'))
      | None => None
      end
  | Float a, Float b => Some (Float (PrimFloat.add a b))
  end.

(** [x - y]. *)
Definition sub (x y : number) : option number :=
  match x, y with
  | Int a, Int b => Some (Int (a - b))
  | Int a, Float b =>
      match float_of_int a with
      | Some a' => Some (Float (PrimFloat.sub a' b))
      | None => None
      end
  | Float a, Int b =>
      match float_of_int b with
      | Some b' => Some (Float (PrimFloat.sub a b'))
      | None => None
      end
  | Float a, Float b => Some (Float (PrimFloat.sub a b))
  end.

(** The value of a [float] that is a number, as [m * 2 ^ e]. *)
Definition dyadic (x : float) : option (Z * Z) :=
  match Prim2SF x with
  | S754_zero _ => Some (0, 0)
  | S754_finite s m e => Some (cond_Zopp s (Zpos m), e)
  | _ => None
  end.

(** [x == y]: an [int] and a [float] are compared by value. *)
Definition eqb (x y : number) : bool :=
  let mixed (a : Z) (b : float) : bool :=
    match dyadic b with
    | Some (m, e) => if 0 <=? e then a =? m * 2 ^ e else a * 2 ^ (- e) =? m
    | None => false
    end in
  match x, y with
  | Int a, Int b => a =? b
  | Int a, Float b => mixed a b
  | Float a, Int b => mixed b a
  | Float a, Float b => PrimFloat.eqb a b
  end.

End Python.

(* ===================================================================== *)
(** ** ZenChain.get_balance *)
(* ===================================================================== *)

Module Accounts.

Local Open Scope list_scope.

(** The attributes [get_balance] reads: of a transaction its sender, its
    recipient and its amount, of a block its transaction list, of the
    ledger its chain.  The pending pool is kept, to be seen unread. *)
Record transaction : Type := mk_transaction {
  sender : option string;
  recipient : string;
  amount : Python.number
}.

Record block : Type := mk_block {
  transactions : list transaction
}.

Record t : Type := mk {
  chain : list block;
  pending_transactions : list transaction
}.

(** A [for] loop over a list, with the variable [acc] that its body
    rebinds; an exception raised by the body ends the loop. *)
Fixpoint for_each {A B : Type} (body : A -> B -> option A) (l : list B) (acc : A)
  : option A :=
  match l with
  | [] => Some acc
  | x :: l' =>
      match body acc x with
      | Some acc' => for_each body l' acc'
      | None => None
      end
  end.

(** The body of the inner loop: the two [if] statements, in their order. *)
Definition balance_step (address : string) (balance : Python.number)
    (trans : transaction) : option Python.number :=
  match (if bool_decide (sender trans = Some address)
         then Python.sub balance (amount trans) else Some balance) with
  | Some balance =>
      if bool_decide (recipient trans = address)
      then Python.add balance (amount trans) else Some balance
  | None => None
  end.

(** [get_balance(address)]; [None] stands for an [OverflowError]. *)
Definition get_balance (address : string) (self : t) : option Python.number :=
  for_each
    (fun balance block => for_each (balance_step address) (transactions block) balance)
    (chain self) (Python.Int 0).

(** What [get_balance] reads of a ledger whose amounts are [int]s. *)
Definition of_transaction (trans : Transaction.t) : transaction :=
  mk_transaction (Transaction.sender trans) (Transaction.recipient trans)
                 (Python.Int (Transaction.amount trans)).

Definition of_block (b : Block.t) : block :=
  mk_block (List.map of_transaction (Block.transactions b)).

Definition of_ledger (self : ZenChain.t) : t :=
  mk (List.map of_block (ZenChain.chain self))
     (List.map of_transaction (ZenChain.pending_transactions self)).

Definition with_pending (pending : list transaction) (self : t) : t :=
  mk (chain self) pending.

Definition committed_transactions (self : t) : list transaction :=
  List.concat (List.map transactions (chain self)).

(** Every committed transaction has its sender and its recipient in [S]. *)
Definition closed_over (S : gset string) (self : t) : bool :=
  forallb
    (fun trans =>
       match sender trans with
       | Some a => bool_decide (a ∈ S) && bool_decide (recipient trans ∈ S)
       | None => false
       end)
    (committed_transactions self).

(** [sum(self.get_balance(a) for a in addresses)]: the balances are added
    one after the other, from the [int] 0. *)
Definition total_balance (addresses : list string) (self : t) : option Python.number :=
  for_each
    (fun total a =>
       match get_balance a self with
       | Some balance => Python.add total balance
       | None => None
       end)
    addresses (Python.Int 0).

(** The six orders in which three addresses can be listed. *)
Definition orders (a b c : string) : list (list string) :=
  [ [a; b; c]; [a; c; b]; [b; a; c]; [b; c; a]; [c; a; b]; [c; b; a] ].

End Accounts.

(* ===================================================================== *)
(** ** Texts with one hole *)
(* ===================================================================== *)

(** [F] puts its argument between a fixed prefix and a fixed suffix. *)
Definition framed (F : string -> string) : Prop :=
  exists prefix suffix, forall x, F x = prefix +:+ x +:+ suffix.

(** Digests and serialisations are never unfolded by simplification. *)
Global Arguments SHA256.hexdigest : simpl never.
Global Arguments Json.dumps : simpl never.
Global Arguments Block.calculate_hash : simpl never.
Global Arguments Transaction.calculate_hash : simpl never.

(* ===================================================================== *)
(** ** Concrete runs used to exercise the statements below *)
(* ===================================================================== *)

Module Demo.

Definition alice : string := "Alice_Address_123".
Definition bob : string := "Bob_Address_456".
Definition miner : string := "Miner_Address_789".

(** A block built outside any ledger, mined at difficulty 2 by one increment. *)
Definition lone_block : Block.t :=
  Eval vm_compute in Block.init 1 [] 1700000174 "0" 0.

(** A ledger created at time 1700000000 ... *)
Definition ledger0 : ZenChain.t := Eval vm_compute in ZenChain.init 1700000000.

(** ... into which Alice submits 10 for Bob ... *)
Definition payment : Transaction.t :=
  Eval vm_compute in Transaction.init (Some alice) bob 10 Json.Null 1700000010.
Definition ledger1 : ZenChain.t :=
  Eval vm_compute in ZenChain.create_transaction payment ledger0.

(** ... and which is mined twice. *)
Definition run (o : ZenChain.outcome ZenChain.t) (default : ZenChain.t) : ZenChain.t :=
  match o with
  | ZenChain.Returns self => self
  | _ => default
  end.
Definition ledger2 : ZenChain.t :=
  Eval vm_compute in
    run (ZenChain.mine_pending_transactions 1 1700000020 1700000021 miner ledger1)
        ledger1.
Definition ledger3 : ZenChain.t :=
  Eval vm_compute in
    run (ZenChain.mine_pending_transactions 2 1700000023 1700000024 miner ledger2)
        ledger2.

(** A two-block chain put together by hand, with a payment in block 0. *)
Definition forged_genesis : Block.t :=
  Eval vm_compute in Block.init 0 [payment] 1700000000 "0" 0.
Definition forged : ZenChain.t :=
  Eval vm_compute in
    ZenChain.with_chain
      [forged_genesis; Block.init 1 [] 1700000001 (Block.hash forged_genesis) 0]
      ledger0.

(** The ledger with Alice's payment mined by hand into block 1, for an
    amount [a] of the payment. *)
Definition genesis : Block.t :=
  Eval vm_compute in ZenChain.create_genesis_block 1700000000.
Definition paid_block (a : Z) : Block.t :=
  Block.init 1 [Transaction.set_amount a payment] 1700000020 (Block.hash genesis) 0.
Definition paid (a : Z) : ZenChain.t :=
  ZenChain.with_chain [genesis; paid_block a] ledger0.

(** A block whose texts need escaping: a quote, a backslash, a newline,
    U+00E9 and U+007F. *)
Definition odd_recipient : string :=
  String "a" (String Json.dquote (String "b" (String Json.backslash
    (String "c" (String "010" EmptyString))))).
Definition odd_description : string :=
  String "d" (String "233" (String "127" EmptyString)).
Definition odd_block : Block.t :=
  Block.init 1
    [ Transaction.init (Some alice) bob 10 Json.Null 1700000000;
      Transaction.init None odd_recipient (-7)
        (Json.Obj [ ("action", Json.Str "create"); ("nft_id", Json.Str "X1");
                    ("name", Json.Str "n"); ("description", Json.Str odd_description) ])
        1700000001 ]
    1700000005 "0" 0.

(** An NFT created by Alice in the fresh ledger, then handed to Bob. *)
Definition gallery1 : ZenChain.t :=
  Eval vm_compute in
    snd (ZenChain.create_nft 1700000040 1700000041 alice "X" "Sunrise" "first light"
           ledger0).
Definition gallery2 : ZenChain.t :=
  Eval vm_compute in snd (ZenChain.transfer_nft 1700000050 alice bob "X" gallery1).

End Demo.

(* ===================================================================== *)
(** ** Notions used to state further properties of the program *)
(* ===================================================================== *)

Module Ledger.

(** The test of [get_transaction_history]:
    [trans.sender == address or trans.recipient == address]. *)
Definition involves (address : string) (trans : Transaction.t) : bool :=
  bool_decide (Transaction.sender trans = Some address)
  || bool_decide (Transaction.recipient trans = address).

(** The body of the inner loop of [get_transaction_history]. *)
Definition history_step (address : string) (history : list Json.value)
    (trans : Transaction.t) : list Json.value :=
  if bool_decide (Transaction.sender trans = Some address)
     || bool_decide (Transaction.recipient trans = address)
  then (history ++ [Transaction.to_dict trans])%list else history.

(** What a set of addresses gains from one transaction: the amount when
    the recipient is in the set, less the amount when the sender is. *)
Definition inflow (S : gset string) (trans : Transaction.t) : Z :=
  ((if bool_decide (Transaction.recipient trans ∈ S)
    then Transaction.amount trans else 0)
   - (match Transaction.sender trans with
      | Some a => if bool_decide (a ∈ S) then Transaction.amount trans else 0
      | None => 0
      end))%Z.

Definition total_inflow (S : gset string) (l : list Transaction.t) : Z :=
  foldr (fun trans acc => (inflow S trans + acc)%Z) 0%Z l.

(** Assignments to one attribute of an existing block. *)
Definition set_hash (h : string) (block : Block.t) : Block.t :=
  Block.mk (Block.index block) (Block.transactions block) (Block.timestamp block)
           (Block.previous_hash block) (Block.nonce block) h.

Definition set_previous_hash (h : string) (block : Block.t) : Block.t :=
  Block.mk (Block.index block) (Block.transactions block) (Block.timestamp block)
           h (Block.nonce block) (Block.hash block).

(** One character of a [hexdigest()]. *)
Definition is_hex_digit (c : ascii) : bool :=
  let n := N_of_ascii c in
  (((48 <=? n) && (n <=? 57)) || ((97 <=? n) && (n <=? 102)))%N.

Fixpoint all_chars (test : ascii -> bool) (s : string) : bool :=
  match s with
  | EmptyString => true
  | String c s' => test c && all_chars test s'
  end.

(** The shape public operations give a ledger: the constructor's settings,
    a genesis block as [create_genesis_block] builds it, every block
    numbered by its position, every later block solved at difficulty 2. *)
Definition shaped (self : ZenChain.t) : Prop :=
  ZenChain.difficulty self = 2%nat /\
  ZenChain.mining_reward self = 100%Z /\
  (exists now, ZenChain.chain self !! 0%nat = Some (ZenChain.create_genesis_block now)) /\
  (forall i block, ZenChain.chain self !! i = Some block ->
                   Block.index block = Z.of_nat i) /\
  (forall i block, (1 <= i)%nat -> ZenChain.chain self !! i = Some block ->
                   substring 0 2 (Block.hash block) = "00").

(** A printable character of 7 bits: what [ensure_ascii] lets through. *)
Definition is_printable (c : ascii) : bool :=
  let n := N_of_ascii c in ((32 <=? n) && (n <=? 126))%N.

Definition printable (s : string) : bool := all_chars is_printable s.

(** Same NFT, possibly in other hands. *)
Definition same_asset (entry entry' : ZenChain.nft) : Prop :=
  ZenChain.name entry' = ZenChain.name entry /\
  ZenChain.description entry' = ZenChain.description entry /\
  ZenChain.created_at entry' = ZenChain.created_at entry.

(** One call of a public operation other than mining. *)
Inductive submission : ZenChain.t -> ZenChain.t -> Prop :=
| submission_create_transaction self transaction :
    submission self (ZenChain.create_transaction transaction self)
| submission_create_nft self now_created now_tx owner_address nft_id nft_name
    nft_description :
    submission self (snd (ZenChain.create_nft now_created now_tx owner_address nft_id
                                              nft_name nft_description self))
| submission_transfer_nft self now_tx sender recipient nft_id :
    submission self (snd (ZenChain.transfer_nft now_tx sender recipient nft_id self)).

End Ledger.

(** Further concrete runs. *)
Module More.


(** A block built by the constructor and never mined, put by hand on top of
    the fresh ledger. *)
Definition unmined_block : Block.t :=
  Eval vm_compute in Block.init 1 [] 1700000001 (Block.hash Demo.genesis) 0.
Definition unmined : ZenChain.t :=
  Eval vm_compute in
    ZenChain.with_chain [Demo.genesis; unmined_block] Demo.ledger0.

(** The ledger mined once, into which Bob submits 4 for Alice before it is
    mined again, this time for Bob. *)
Definition refund : Transaction.t :=
  Eval vm_compute in Transaction.init (Some Demo.bob) Demo.alice 4 Json.Null 1700000025.
Definition refunding : ZenChain.t :=
  Eval vm_compute in ZenChain.create_transaction refund Demo.ledger2.
Definition refunded : ZenChain.t :=
  Eval vm_compute in
    Demo.run (ZenChain.mine_pending_transactions 1 1700000046 1700000047 Demo.bob
                refunding)
             refunding.

(** Chains with [float] amounts, as the command loop submits them. *)
Definition carol : string := "Carol_Address_321".

Definition transfer (sender recipient : string) (amount : float)
  : Accounts.transaction :=
  Accounts.mk_transaction (Some sender) recipient (Python.Float amount).

(** Alice pays 0.1 to Bob, 0.3 to Carol and 0.5 to Bob; the three
    transactions are mined into the block after the genesis block. *)
Definition cash : Accounts.t :=
  Accounts.mk
    [ Accounts.mk_block [];
      Accounts.mk_block [ transfer Demo.alice Demo.bob 0.1;
                          transfer Demo.alice carol 0.3;
                          transfer Demo.alice Demo.bob 0.5 ] ]
    [].

(** Bob receives 0.1 from Alice ... *)
Definition received : Accounts.t :=
  Accounts.mk
    [ Accounts.mk_block [];
      Accounts.mk_block [ transfer Demo.alice Demo.bob 0.1 ] ]
    [].

(** ... and then pays 1e17 to himself. *)
Definition self_paid : Accounts.t :=
  Accounts.mk
    [ Accounts.mk_block [];
      Accounts.mk_block [ transfer Demo.alice Demo.bob 0.1;
                          transfer Demo.bob Demo.bob 1e17 ] ]
    [].

End More.

Local Open Scope list_scope.

Example sha256_abc :
  SHA256.hexdigest "abc"
  = "ba7816bf8f01cfea414140de5dae2223b00361a396177a9cb410ff61f20015ad".
Proof. vm_compute. reflexivity. Qed.

Example sha256_empty :
  SHA256.hexdigest EmptyString
  = "e3b0c44298fc1c149afbf4c8996fb92427ae41e4649b934ca495991b7852b855".
Proof. vm_compute. reflexivity. Qed.

Example sha256_two_blocks :
  SHA256.hexdigest "abcdbcdecdefdefgefghfghighijhijkijkljklmklmnlmnomnopnopq"
  = "248d6a61d20638b8e5c026930c3e6039a33ce45964ff2167f6ecedd419db06c1".
Proof. vm_compute. reflexivity. Qed.

(** The digests [hashlib] gives for the same objects. *)
Example genesis_hash :
  Block.hash (ZenChain.create_genesis_block 1700000000)
  = "bea8497b5ef91e55f6863144b4ccd1e23fe3a558a9378306425605ab66a339a0".
Proof. vm_compute. reflexivity. Qed.

Example payment_hash :
  Transaction.hash (Transaction.init (Some Demo.alice) Demo.bob 10 Json.Null 1700000010)
  = "4c97b92352a285a46c0f5ef3c395a604ca6a37e17160ccd635f67cd150f41b5b".
Proof. vm_compute. reflexivity. Qed.

Example odd_block_hash :
  Block.hash Demo.odd_block
  = "4ebcfca716403b182fd1915477ce29c6495f2434c03e34c87ef5072bda07236f".
Proof. vm_compute. reflexivity. Qed.

Example lone_block_mined :
  option_map (fun block => (Block.nonce block, Block.hash block))
             (Block.mine_block 5 2 Demo.lone_block)
  = Some (1, "000769b5fae15f5ad9722d4feae5c1c088726deffef722257311658e71723224").
Proof. vm_compute. reflexivity. Qed.

Example first_block_mined :
  option_map (fun block => (Block.nonce block, Block.hash block))
             (last (ZenChain.chain Demo.ledger2))
  = Some (1, "00f57352e2689293d274c3a67dc6cef0f31f2f372ccde3c93480553a09d1cc8f").
Proof. vm_compute. reflexivity. Qed.

(** The arithmetic of [Python], on operations whose results the
    interpreter shows. *)
Example float_add_rounds :
  Python.add (Python.Float 0.1) (Python.Float 0.2)
  = Some (Python.Float 0.30000000000000004).
Proof. vm_compute. reflexivity. Qed.

Example int_operand_is_converted :
  Python.sub (Python.Int 0) (Python.Float 0.1) = Some (Python.Float (-0.1)) /\
  Python.add (Python.Int 1) (Python.Float 0.5) = Some (Python.Float 1.5) /\
  Python.add (Python.Float 0.5) (Python.Int (2 ^ 53 + 1))
  = Some (Python.Float 9007199254740992) /\
  Python.float_of_int (2 ^ 53 + 1) = Some 9007199254740992%float /\
  Python.float_of_int (2 ^ 53 + 3) = Some 9007199254740996%float /\
  Python.float_of_int (2 ^ 1024 - 2 ^ 971) = Some 0x1.fffffffffffffp+1023%float /\
  Python.float_of_int (2 ^ 1024) = None /\
  Python.add (Python.Float 0.5) (Python.Int (2 ^ 1024)) = None.
Proof. repeat split; vm_compute; reflexivity. Qed.

Example numbers_compare_by_value :
  Python.eqb (Python.Int 1) (Python.Float 1) = true /\
  Python.eqb (Python.Float (-7)) (Python.Int (-7)) = true /\
  Python.eqb (Python.Int (10 ^ 17)) (Python.Float 1e17) = true /\
  Python.eqb (Python.Int 3) (Python.Float 3.5) = false /\
  Python.eqb (Python.Float 0.5) (Python.Int 1) = false /\
  Python.eqb (Python.Int (2 ^ 53 + 1)) (Python.Float 9007199254740992) = false /\
  Python.eqb (Python.Float 0) (Python.Float (-0)) = true /\
  Python.eqb (Python.Float nan) (Python.Float nan) = false.
Proof. repeat split; vm_compute; reflexivity. Qed.

(** Sequential additions lose what an exact sum keeps: 1e17 and twice 8.0,
    received one after the other, leave 1e17. *)
Example float_balance_is_sequential :
  Accounts.for_each (Accounts.balance_step Demo.bob)
    [ More.transfer Demo.alice Demo.bob 1e17;
      More.transfer Demo.alice Demo.bob 8;
      More.transfer Demo.alice Demo.bob 8 ]
    (Python.Int 0)
  = Some (Python.Float 1e17).
Proof. vm_compute. reflexivity. Qed.

(* ===================================================================== *)
(** ** Block: proof of work *)
(* ===================================================================== *)

Section BlockFacts.

Implicit Types (self block : Block.t) (difficulty fuel : nat).

(** The digest is computed from the five serialised fields, never from the
    stored hash. *)
Lemma calculate_hash_ignores_hash self h :
  Block.calculate_hash
    (Block.mk (Block.index self) (Block.transactions self) (Block.timestamp self)
              (Block.previous_hash self) (Block.nonce self) h)
  = Block.calculate_hash self.
Proof. reflexivity. Qed.

Lemma init_hash index transactions timestamp previous_hash nonce :
  let self := Block.init index transactions timestamp previous_hash nonce in
  Block.hash self = Block.calculate_hash self.
Proof. reflexivity. Qed.

Lemma bump_hash self :
  Block.hash (Block.bump self) = Block.calculate_hash (Block.bump self).
Proof. reflexivity. Qed.

Lemma bump_nonce self : Block.nonce (Block.bump self) = Block.nonce self + 1.
Proof. reflexivity. Qed.

(** Leaving the loop means the loop test is false. *)
Lemma unsolved_false difficulty self :
  Block.unsolved difficulty self = false <->
  substring 0 difficulty (Block.hash self) = Block.zeros difficulty.
Proof.
  unfold Block.unsolved. rewrite negb_false_iff. apply String.eqb_eq.
Qed.

(** The empty prefix always matches. *)
Lemma unsolved_zero self : Block.unsolved 0 self = false.
Proof. unfold Block.unsolved. destruct (Block.hash self); reflexivity. Qed.

Lemma mine_block_unfold fuel difficulty self :
  Block.mine_block fuel difficulty self =
  if Block.unsolved difficulty self then
    match fuel with
    | O => None
    | S fuel' => Block.mine_block fuel' difficulty (Block.bump self)
    end
  else Some self.
Proof. destruct fuel; reflexivity. Qed.

Lemma mine_block_solved fuel difficulty self block :
  Block.mine_block fuel difficulty self = Some block ->
  Block.unsolved difficulty block = false.
Proof.
  revert self. induction fuel as [|fuel IH]; intros self;
    rewrite mine_block_unfold;
    destruct (Block.unsolved difficulty self) eqn:Htest; try discriminate.
  - intros [= <-]. exact Htest.
  - apply IH.
  - intros [= <-]. exact Htest.
Qed.

(** The loop keeps "stored hash = recomputed hash". *)
Lemma mine_block_keeps_hash fuel difficulty self block :
  Block.hash self = Block.calculate_hash self ->
  Block.mine_block fuel difficulty self = Some block ->
  Block.hash block = Block.calculate_hash block.
Proof.
  revert self. induction fuel as [|fuel IH]; intros self Hself;
    rewrite mine_block_unfold;
    destruct (Block.unsolved difficulty self); try discriminate.
  - intros [= <-]. exact Hself.
  - apply IH, bump_hash.
  - intros [= <-]. exact Hself.
Qed.

(** The loop writes [nonce] and [hash] only. *)
Lemma mine_block_frame fuel difficulty self block :
  Block.mine_block fuel difficulty self = Some block ->
  Block.index block = Block.index self /\
  Block.transactions block = Block.transactions self /\
  Block.timestamp block = Block.timestamp self /\
  Block.previous_hash block = Block.previous_hash self.
Proof.
  revert self. induction fuel as [|fuel IH]; intros self;
    rewrite mine_block_unfold;
    destruct (Block.unsolved difficulty self); try discriminate.
  - intros [= <-]. auto.
  - intros Hrun. apply IH in Hrun. exact Hrun.
  - intros [= <-]. auto.
Qed.

(** The block after [k] passes through the loop body. *)
Lemma iter_bump_succ k self :
  Nat.iter (S k) Block.bump self = Nat.iter k Block.bump (Block.bump self).
Proof.
  induction k as [|k IH]; [reflexivity|].
  change (Nat.iter (S (S k)) Block.bump self)
    with (Block.bump (Nat.iter (S k) Block.bump self)).
  rewrite IH. reflexivity.
Qed.

(** More fuel does not change a result. *)
Lemma mine_block_more_fuel fuel fuel' difficulty self block :
  Block.mine_block fuel difficulty self = Some block ->
  (fuel <= fuel')%nat ->
  Block.mine_block fuel' difficulty self = Some block.
Proof.
  revert self fuel'. induction fuel as [|fuel IH]; intros self fuel';
    rewrite (mine_block_unfold _ _ self), (mine_block_unfold fuel' _ self);
    destruct (Block.unsolved difficulty self); try discriminate; auto.
  intros Hrun Hle. destruct fuel' as [|fuel']; [lia|].
  apply IH; [exact Hrun | lia].
Qed.

(** The loop ends as soon as some number of increments solves the puzzle. *)
Lemma mine_block_terminates k difficulty self :
  Block.unsolved difficulty (Nat.iter k Block.bump self) = false ->
  exists block, Block.mine_block k difficulty self = Some block.
Proof.
  revert self. induction k as [|k IH]; intros self Hk.
  - exists self. rewrite mine_block_unfold. cbn in Hk. rewrite Hk. reflexivity.
  - rewrite mine_block_unfold.
    destruct (Block.unsolved difficulty self); [|eauto].
    apply IH. rewrite <- iter_bump_succ. exact Hk.
Qed.

(** Conversely a result is the block after some number of increments. *)
Lemma mine_block_iter fuel difficulty self block :
  Block.mine_block fuel difficulty self = Some block ->
  exists k, (k <= fuel)%nat /\ block = Nat.iter k Block.bump self /\
            Block.nonce block = Block.nonce self + Z.of_nat k.
Proof.
  revert self. induction fuel as [|fuel IH]; intros self;
    rewrite mine_block_unfold;
    destruct (Block.unsolved difficulty self); try discriminate.
  - intros [= <-]. exists 0%nat. cbn. split; [lia|]. split; [reflexivity|lia].
  - intros Hrun. destruct (IH _ Hrun) as (k & Hk & -> & Hnonce).
    exists (S k). split; [lia|]. split; [symmetry; apply iter_bump_succ|].
    rewrite Hnonce, bump_nonce. lia.
  - intros [= <-]. exists 0%nat. cbn. split; [lia|]. split; [reflexivity|lia].
Qed.

Lemma zeros_get difficulty s i :
  substring 0 difficulty s = Block.zeros difficulty ->
  (i < difficulty)%nat -> String.get i s = Some "0"%char.
Proof.
  revert s i. induction difficulty as [|d IH]; intros s i Hs Hi; [lia|].
  destruct s as [|c s]; [discriminate|].
  cbn in Hs. injection Hs as -> Hs.
  destruct i as [|i]; [reflexivity|].
  cbn. apply IH; [exact Hs | lia].
Qed.

End BlockFacts.

(** C4: when [mine_block] returns on a block as the constructor leaves it,
    the stored hash is the hash recomputed from the fields and its first
    [difficulty] characters are all ['0']; at difficulty 0 the call returns
    at once on every block, with no increment, so that the nonce is still
    the constructor's 0. *)
Theorem mine_block_result
    (index : Z) (transactions : list Transaction.t) (timestamp : Z)
    (previous_hash : string) (nonce : Z) :
  (forall (difficulty fuel : nat) (block : Block.t),
     Block.mine_block fuel difficulty
       (Block.init index transactions timestamp previous_hash nonce) = Some block ->
     Block.hash block = Block.calculate_hash block /\
     substring 0 difficulty (Block.hash block) = Block.zeros difficulty /\
     (forall i, (i < difficulty)%nat ->
                String.get i (Block.hash block) = Some "0"%char)) /\
  (forall (self : Block.t) (fuel : nat), Block.mine_block fuel 0 self = Some self) /\
  (forall fuel : nat,
     exists block,
       Block.mine_block fuel 0
         (Block.init index transactions timestamp previous_hash 0) = Some block /\
       Block.nonce block = 0 /\
       Block.hash block = Block.calculate_hash block).
Proof.
  split; [|split].
  - intros difficulty fuel block Hrun.
    assert (Hprefix : substring 0 difficulty (Block.hash block) = Block.zeros difficulty).
    { apply unsolved_false. eapply mine_block_solved. exact Hrun. }
    split; [|split].
    + eapply mine_block_keeps_hash; [|exact Hrun]. apply init_hash.
    + exact Hprefix.
    + intros i Hi. eapply zeros_get; eauto.
  - intros self fuel. rewrite mine_block_unfold, unsolved_zero. reflexivity.
  - intros fuel. eexists. split; [|split].
    + rewrite mine_block_unfold, unsolved_zero. reflexivity.
    + reflexivity.
    + apply init_hash.
Qed.

Lemma mine_block_result_witness :
  (exists block,
     Block.mine_block 1 2 (Block.init 1 [] 1700000174 "0" 0) = Some block /\
     Block.nonce block = 1 /\
     Block.hash block = Block.calculate_hash block /\
     substring 0 2 (Block.hash block) = "00") /\
  Block.mine_block 0 0 (Block.init 1 [] 1700000174 "0" 0)
  = Some (Block.init 1 [] 1700000174 "0" 0).
Proof.
  split.
  - eexists. split; [vm_compute; reflexivity|].
    split; [reflexivity|].
    refine (let H := proj1 (mine_block_result 1 [] 1700000174 "0" 0) 2%nat 1%nat _ _ in
            conj (proj1 H) (proj1 (proj2 H))).
    vm_compute. reflexivity.
  - apply (proj1 (proj2 (mine_block_result 1 [] 1700000174 "0" 0))).
Defined.

(** C9: [mine_block] writes the nonce and the hash only: index, transaction
    list, timestamp and previous hash are what they were before the call. *)
Theorem mine_block_modifies_only_nonce_and_hash
    (self : Block.t) (difficulty fuel : nat) (block : Block.t) :
  Block.mine_block fuel difficulty self = Some block ->
  Block.index block = Block.index self /\
  Block.transactions block = Block.transactions self /\
  Block.timestamp block = Block.timestamp self /\
  Block.previous_hash block = Block.previous_hash self.
Proof. apply mine_block_frame. Qed.

Lemma mine_block_modifies_only_nonce_and_hash_witness :
  exists block,
    Block.mine_block 1 2 Demo.lone_block = Some block /\
    Block.nonce block <> Block.nonce Demo.lone_block /\
    Block.index block = 1 /\
    Block.transactions block = [] /\
    Block.timestamp block = 1700000174 /\
    Block.previous_hash block = "0".
Proof.
  eexists. split; [vm_compute; reflexivity|].
  split; [vm_compute; discriminate|].
  eapply (mine_block_modifies_only_nonce_and_hash Demo.lone_block 2 1).
  vm_compute. reflexivity.
Defined.

(* ===================================================================== *)
(** ** ZenChain: mining the pending pool *)
(* ===================================================================== *)

Section Mining.

Implicit Types (self : ZenChain.t) (address : string).

Lemma mine_pending_transactions_inv fuel now_block now_reward address self self' :
  ZenChain.mine_pending_transactions fuel now_block now_reward address self
    = ZenChain.Returns self' ->
  exists latest block,
    ZenChain.get_latest_block self = Some latest /\
    Block.mine_block fuel (ZenChain.difficulty self)
      (ZenChain.candidate_block self now_block latest) = Some block /\
    self' = ZenChain.mk (ZenChain.chain self ++ [block]) (ZenChain.difficulty self)
              [Transaction.init None address (ZenChain.mining_reward self)
                 Json.Null now_reward]
              (ZenChain.mining_reward self) (ZenChain.nft_collections self).
Proof.
  unfold ZenChain.mine_pending_transactions, ZenChain.candidate_block.
  destruct (ZenChain.get_latest_block self) as [latest|]; [|discriminate].
  destruct (Block.mine_block _ _ _) as [block|] eqn:Hmine; [|discriminate].
  intros [= <-]. exists latest, block. repeat split. exact Hmine.
Qed.

(** On an empty chain [self.chain[-1]] raises. *)
Lemma mine_pending_transactions_empty fuel now_block now_reward address self :
  ZenChain.chain self = [] ->
  ZenChain.mine_pending_transactions fuel now_block now_reward address self
    = ZenChain.IndexError.
Proof.
  intros Hchain. unfold ZenChain.mine_pending_transactions, ZenChain.get_latest_block.
  rewrite Hchain. reflexivity.
Qed.

End Mining.

(** C1: on a ledger whose chain has a head, and whenever some number [k] of
    nonce increments solves the puzzle for the new block, the call
    [mine_pending_transactions(R)] returns (with any fuel from [k] on, and
    with the same result whenever it returns).  The block it builds has the
    chain length as index, the pending pool as transaction list and the
    head's stored hash as previous hash; it is mined at the ledger's
    difficulty and appended to the chain; the pending pool becomes the
    single transaction (sender [None], recipient R, amount the mining
    reward). *)
Theorem mine_pending_transactions_spec
    (self : ZenChain.t) (R : string) (now_block now_reward : Z)
    (latest : Block.t) (k : nat) :
  ZenChain.get_latest_block self = Some latest ->
  Block.unsolved (ZenChain.difficulty self)
    (Nat.iter k Block.bump (ZenChain.candidate_block self now_block latest)) = false ->
  exists block self',
    (forall fuel, (k <= fuel)%nat ->
       ZenChain.mine_pending_transactions fuel now_block now_reward R self
       = ZenChain.Returns self') /\
    (forall fuel self'',
       ZenChain.mine_pending_transactions fuel now_block now_reward R self
       = ZenChain.Returns self'' -> self'' = self') /\
    Block.mine_block k (ZenChain.difficulty self)
      (Block.init (Z.of_nat (length (ZenChain.chain self)))
                  (ZenChain.pending_transactions self) now_block
                  (Block.hash latest) 0) = Some block /\
    Block.index block = Z.of_nat (length (ZenChain.chain self)) /\
    Block.transactions block = ZenChain.pending_transactions self /\
    Block.timestamp block = now_block /\
    Block.previous_hash block = Block.hash latest /\
    Block.hash block = Block.calculate_hash block /\
    substring 0 (ZenChain.difficulty self) (Block.hash block)
      = Block.zeros (ZenChain.difficulty self) /\
    ZenChain.chain self' = (ZenChain.chain self ++ [block])%list /\
    (exists reward,
       ZenChain.pending_transactions self' = [reward] /\
       Transaction.sender reward = None /\
       Transaction.recipient reward = R /\
       Transaction.amount reward = ZenChain.mining_reward self) /\
    ZenChain.difficulty self' = ZenChain.difficulty self /\
    ZenChain.mining_reward self' = ZenChain.mining_reward self /\
    ZenChain.nft_collections self' = ZenChain.nft_collections self.
Proof.
  intros Hlatest Hsolved. unfold ZenChain.candidate_block in Hsolved.
  destruct (mine_block_terminates _ _ _ Hsolved) as [block Hblock].
  destruct (mine_block_frame _ _ _ _ Hblock) as (Hindex & Htxs & Htime & Hprev).
  exists block. eexists. split; [|split].
  - intros fuel Hfuel. unfold ZenChain.mine_pending_transactions.
    rewrite Hlatest.
    rewrite (mine_block_more_fuel _ _ _ _ _ Hblock Hfuel). reflexivity.
  - intros fuel self'' Hrun.
    apply mine_pending_transactions_inv in Hrun
      as (latest' & block' & Hlatest' & Hblock' & ->).
    rewrite Hlatest in Hlatest'. injection Hlatest' as <-.
    unfold ZenChain.candidate_block in Hblock'.
    assert (Hsame : Some block' = Some block).
    { rewrite <- (mine_block_more_fuel _ (Nat.max fuel k) _ _ _ Hblock')
        by apply Nat.le_max_l.
      apply (mine_block_more_fuel _ (Nat.max fuel k) _ _ _ Hblock),
            Nat.le_max_r. }
    injection Hsame as ->. reflexivity.
  - split; [exact Hblock|].
    split; [exact Hindex|]. split; [exact Htxs|].
    split; [exact Htime|]. split; [exact Hprev|].
    split; [eapply mine_block_keeps_hash; [apply init_hash | exact Hblock]|].
    split; [apply unsolved_false; eapply mine_block_solved; exact Hblock|].
    split; [reflexivity|].
    split; [eexists; repeat split|].
    repeat split.
Qed.

Lemma mine_pending_transactions_spec_witness :
  exists block self',
    ZenChain.mine_pending_transactions 1 1700000020 1700000021 Demo.miner Demo.ledger1
      = ZenChain.Returns self' /\
    Block.index block = 1 /\
    Block.transactions block = [Demo.payment] /\
    Block.nonce block = 1 /\
    ZenChain.chain self' = (ZenChain.chain Demo.ledger1 ++ [block])%list /\
    (exists reward,
       ZenChain.pending_transactions self' = [reward] /\
       Transaction.sender reward = None /\
       Transaction.recipient reward = Demo.miner /\
       Transaction.amount reward = 100).
Proof.
  assert (Hlatest : ZenChain.get_latest_block Demo.ledger1 = Some Demo.genesis)
    by reflexivity.
  assert (Hsolved :
    Block.unsolved (ZenChain.difficulty Demo.ledger1)
      (Nat.iter 1 Block.bump
         (ZenChain.candidate_block Demo.ledger1 1700000020 Demo.genesis)) = false)
    by (vm_compute; reflexivity).
  assert (Hnonce :
    option_map Block.nonce
      (Block.mine_block 1 (ZenChain.difficulty Demo.ledger1)
         (ZenChain.candidate_block Demo.ledger1 1700000020 Demo.genesis)) = Some 1)
    by (vm_compute; reflexivity).
  destruct (mine_pending_transactions_spec Demo.ledger1 Demo.miner
              1700000020 1700000021 _ 1 Hlatest Hsolved)
    as (block & self' & Hreturns & _ & Hmine & Hindex & Htxs & _ & _ & _ & _
        & Hchain & Hpending & _).
  exists block, self'.
  split; [apply Hreturns; lia|].
  split; [exact Hindex|].
  split; [exact Htxs|].
  split; [|split; [exact Hchain | exact Hpending]].
  unfold ZenChain.candidate_block in Hnonce. rewrite Hmine in Hnonce.
  injection Hnonce as Hnonce. exact Hnonce.
Defined.

(* ===================================================================== *)
(** ** ZenChain: the validity scan *)
(* ===================================================================== *)

Section Validity.

Implicit Types (self : ZenChain.t) (chain : list Block.t) (i : nat).

(** What the loop body checks on block [i]. *)
Lemma block_passes_iff chain i :
  ZenChain.block_passes chain i = true <->
  exists current previous,
    chain !! i = Some current /\ chain !! (i - 1)%nat = Some previous /\
    Block.hash current = Block.calculate_hash current /\
    Block.previous_hash current = Block.hash previous.
Proof.
  unfold ZenChain.block_passes.
  destruct (chain !! i) as [current|]; [|split; [discriminate|]].
  2:{ intros (? & ? & [=] & _). }
  destruct (chain !! (i - 1)%nat) as [previous|]; [|split; [discriminate|]].
  2:{ intros (? & ? & _ & [=] & _). }
  destruct (String.eqb_spec (Block.hash current) (Block.calculate_hash current))
    as [Hhash|Hhash]; cbn.
  - destruct (String.eqb_spec (Block.previous_hash current) (Block.hash previous))
      as [Hlink|Hlink]; cbn.
    + split; [|reflexivity]. intros _. exists current, previous. auto.
    + split; [discriminate|]. intros (? & ? & [= <-] & [= <-] & _ & ?). contradiction.
  - split; [discriminate|]. intros (? & ? & [= <-] & _ & ? & _). contradiction.
Qed.

Lemma is_chain_valid_loop_true chain range :
  ZenChain.is_chain_valid_loop chain range = true <->
  forall i, i ∈ range -> ZenChain.block_passes chain i = true.
Proof.
  induction range as [|i range IH]; cbn.
  - split; [|reflexivity]. intros _ i Hi. inversion Hi.
  - destruct (ZenChain.block_passes chain i) eqn:Hi.
    + rewrite IH. split.
      * intros Hrest i' Hi'. apply elem_of_cons in Hi' as [->|Hi']; auto.
      * intros Hall i' Hi'. apply Hall. apply elem_of_cons. auto.
    + split; [discriminate|]. intros Hall.
      rewrite <- Hi. apply Hall. apply elem_of_cons. auto.
Qed.

(** The loop leaves at the first index that fails. *)
Lemma is_chain_valid_loop_false chain range :
  ZenChain.is_chain_valid_loop chain range = false <->
  exists passed i rest,
    range = passed ++ i :: rest /\
    ZenChain.block_passes chain i = false /\
    forall i', i' ∈ passed -> ZenChain.block_passes chain i' = true.
Proof.
  induction range as [|i range IH]; cbn.
  - split; [discriminate|]. intros (passed & i & rest & Hrange & _).
    destruct passed; discriminate.
  - destruct (ZenChain.block_passes chain i) eqn:Hi.
    + rewrite IH. split.
      * intros (passed & i' & rest & -> & Hfail & Hpassed).
        exists (i :: passed), i', rest. split; [reflexivity|]. split; [exact Hfail|].
        intros i'' Hi''. apply elem_of_cons in Hi'' as [->|Hi'']; auto.
      * intros (passed & i' & rest & Hrange & Hfail & Hpassed).
        destruct passed as [|i0 passed]; cbn in Hrange.
        { injection Hrange as <- _. congruence. }
        injection Hrange as <- ->.
        exists passed, i', rest. split; [reflexivity|]. split; [exact Hfail|].
        intros i'' Hi''. apply Hpassed. apply elem_of_cons. auto.
    + split; [|reflexivity]. intros _. exists [], i, range.
      split; [reflexivity|]. split; [exact Hi|]. intros i' Hi'. inversion Hi'.
Qed.

Lemma elem_of_range i n : i ∈ seq 1 n <-> (1 <= i <= n)%nat.
Proof. rewrite list_elem_of_In, in_seq. lia. Qed.

Lemma is_chain_valid_true self :
  ZenChain.is_chain_valid self = true <->
  forall i, (1 <= i < length (ZenChain.chain self))%nat ->
            ZenChain.block_passes (ZenChain.chain self) i = true.
Proof.
  unfold ZenChain.is_chain_valid. rewrite is_chain_valid_loop_true.
  split; intros Hall i Hi; apply Hall.
  - apply elem_of_range. lia.
  - apply elem_of_range in Hi. lia.
Qed.

Lemma seq_split_at passed i rest n :
  seq 1 n = passed ++ i :: rest ->
  passed = seq 1 (i - 1) /\ (1 <= i <= n)%nat.
Proof.
  intros Hseq.
  assert (Hi : (1 <= i <= n)%nat).
  { apply elem_of_range. rewrite Hseq. apply elem_of_app. right.
    apply elem_of_cons. auto. }
  split; [|exact Hi].
  assert (Hlen : i = (1 + length passed)%nat).
  { assert (Hnth : seq 1 n !! length passed = Some i).
    { rewrite Hseq. apply list_lookup_middle. reflexivity. }
    apply lookup_seq in Hnth. lia. }
  assert (Htake : take (length passed) (seq 1 n) = passed).
  { rewrite Hseq. rewrite take_app_length. reflexivity. }
  rewrite <- Htake, take_seq. f_equal. lia.
Qed.

Lemma is_chain_valid_false self :
  ZenChain.is_chain_valid self = false <->
  exists i, (1 <= i < length (ZenChain.chain self))%nat /\
            ZenChain.block_passes (ZenChain.chain self) i = false /\
            forall i', (1 <= i' < i)%nat ->
                       ZenChain.block_passes (ZenChain.chain self) i' = true.
Proof.
  unfold ZenChain.is_chain_valid. rewrite is_chain_valid_loop_false. split.
  - intros (passed & i & rest & Hrange & Hfail & Hpassed).
    apply seq_split_at in Hrange as [-> Hi].
    exists i. split; [lia|]. split; [exact Hfail|].
    intros i' Hi'. apply Hpassed. apply elem_of_range. lia.
  - intros (i & Hi & Hfail & Hpassed).
    exists (seq 1 (i - 1)), i, (seq (S i) (length (ZenChain.chain self) - 1 - i)).
    split; [|split; [exact Hfail|]].
    + replace (length (ZenChain.chain self) - 1)%nat
        with ((i - 1) + S (length (ZenChain.chain self) - 1 - i))%nat by lia.
      rewrite seq_app. cbn [seq]. do 3 f_equal; lia.
    + intros i' Hi'. apply Hpassed. apply elem_of_range in Hi'. lia.
Qed.

(** The scan reads the fields of blocks 1, 2, ... and, of block 0, the stored
    hash only. *)
Lemma block_passes_genesis genesis genesis' chain i :
  Block.hash genesis = Block.hash genesis' ->
  (1 <= i)%nat ->
  ZenChain.block_passes (genesis :: chain) i
  = ZenChain.block_passes (genesis' :: chain) i.
Proof.
  intros Hhash Hi. unfold ZenChain.block_passes.
  destruct i as [|i]; [lia|]. cbn [lookup list_lookup].
  replace (S i - 1)%nat with i by lia.
  destruct i as [|i]; cbn [lookup list_lookup]; [|reflexivity].
  rewrite Hhash. reflexivity.
Qed.

Lemma chain_with_chain chain self :
  ZenChain.chain (ZenChain.with_chain chain self) = chain.
Proof. reflexivity. Qed.

Lemma is_chain_valid_genesis genesis genesis' rest self :
  Block.hash genesis = Block.hash genesis' ->
  ZenChain.is_chain_valid (ZenChain.with_chain (genesis :: rest) self)
  = ZenChain.is_chain_valid (ZenChain.with_chain (genesis' :: rest) self).
Proof.
  intros Hhash.
  destruct (ZenChain.is_chain_valid
              (ZenChain.with_chain (genesis' :: rest) self)) eqn:Hvalid.
  - rewrite is_chain_valid_true in Hvalid |- *.
    rewrite chain_with_chain in Hvalid |- *. cbn [length] in *.
    intros i Hi.
    rewrite (block_passes_genesis genesis genesis') by (auto; lia). auto.
  - rewrite is_chain_valid_false in Hvalid |- *.
    rewrite chain_with_chain in Hvalid |- *. cbn [length] in *.
    destruct Hvalid as (i & Hi & Hfail & Hpassed).
    exists i. split; [exact Hi|]. split.
    + rewrite (block_passes_genesis genesis genesis') by (auto; lia).
      exact Hfail.
    + intros i' Hi'.
      rewrite (block_passes_genesis genesis genesis') by (auto; lia). auto.
Qed.

(** In range, the body fails exactly on a stale hash or a broken link. *)
Lemma block_passes_false chain i current previous :
  chain !! i = Some current -> chain !! (i - 1)%nat = Some previous ->
  ZenChain.block_passes chain i = false <->
  Block.hash current <> Block.calculate_hash current \/
  Block.previous_hash current <> Block.hash previous.
Proof.
  intros Hcur Hprev. rewrite <- not_true_iff_false, block_passes_iff. split.
  - intros Hnot.
    destruct (decide (Block.hash current = Block.calculate_hash current)); [|auto].
    destruct (decide (Block.previous_hash current = Block.hash previous)); [|auto].
    exfalso. apply Hnot. exists current, previous. auto.
  - intros Hbad (current' & previous' & Hcur' & Hprev' & ? & ?).
    rewrite Hcur in Hcur'. rewrite Hprev in Hprev'.
    injection Hcur' as <-. injection Hprev' as <-. tauto.
Qed.

(** Appending a well-formed block linked to the head keeps a chain valid. *)
Lemma is_chain_valid_append self latest block self' :
  ZenChain.is_chain_valid self = true ->
  ZenChain.get_latest_block self = Some latest ->
  Block.hash block = Block.calculate_hash block ->
  Block.previous_hash block = Block.hash latest ->
  ZenChain.chain self' = ZenChain.chain self ++ [block] ->
  ZenChain.is_chain_valid self' = true.
Proof.
  intros Hvalid Hlatest Hhash Hlink Hchain.
  unfold ZenChain.get_latest_block in Hlatest. rewrite last_lookup in Hlatest.
  assert (Hlen : (0 < length (ZenChain.chain self))%nat).
  { apply lookup_lt_Some in Hlatest.
    destruct (ZenChain.chain self); cbn in *; lia. }
  apply is_chain_valid_true. rewrite Hchain, length_app. cbn [length].
  intros i Hi. apply block_passes_iff.
  destruct (decide (i < length (ZenChain.chain self))%nat) as [Hold|Hnew].
  - rewrite is_chain_valid_true in Hvalid.
    destruct (proj1 (block_passes_iff _ _) (Hvalid i ltac:(lia)))
      as (current & previous & Hcur & Hprev & ? & ?).
    exists current, previous.
    rewrite !lookup_app_l by lia. auto.
  - assert (i = length (ZenChain.chain self)) as -> by lia.
    exists block, latest. split; [apply list_lookup_middle; reflexivity|].
    split; [|auto].
    rewrite lookup_app_l by lia.
    replace (length (ZenChain.chain self) - 1)%nat
      with (pred (length (ZenChain.chain self))) by lia.
    exact Hlatest.
Qed.

Lemma chain_create_nft now_created now_tx owner_address nft_id nft_name
    nft_description self :
  ZenChain.chain (snd (ZenChain.create_nft now_created now_tx owner_address nft_id
                         nft_name nft_description self))
  = ZenChain.chain self.
Proof.
  unfold ZenChain.create_nft.
  destruct (ZenChain.nft_collections self !! nft_id); reflexivity.
Qed.

Lemma chain_transfer_nft now_tx sender recipient nft_id self :
  ZenChain.chain (snd (ZenChain.transfer_nft now_tx sender recipient nft_id self))
  = ZenChain.chain self.
Proof.
  unfold ZenChain.transfer_nft.
  destruct (ZenChain.nft_collections self !! nft_id) as [entry|]; [|reflexivity].
  destruct (negb _); reflexivity.
Qed.

Lemma is_chain_valid_same_chain self self' :
  ZenChain.chain self' = ZenChain.chain self ->
  ZenChain.is_chain_valid self' = ZenChain.is_chain_valid self.
Proof. unfold ZenChain.is_chain_valid. intros ->. reflexivity. Qed.

(** What every public operation keeps: a chain with a genesis block on
    which the scan succeeds. *)
Lemma step_keeps_valid self self' :
  ZenChain.step self self' ->
  ZenChain.chain self <> [] /\ ZenChain.is_chain_valid self = true ->
  ZenChain.chain self' <> [] /\ ZenChain.is_chain_valid self' = true.
Proof.
  intros Hstep [Hne Hvalid]. destruct Hstep as
    [ self transaction
    | self fuel now_block now_reward address self' Hrun
    | self now_created now_tx owner_address nft_id nft_name nft_description
    | self now_tx sender recipient nft_id ].
  - split; [exact Hne | exact Hvalid].
  - apply mine_pending_transactions_inv in Hrun
      as (latest & block & Hlatest & Hblock & ->).
    split; [cbn; intros Happ; apply app_eq_nil in Happ as [_ [=]]|].
    destruct (mine_block_frame _ _ _ _ Hblock) as (_ & _ & _ & Hprev).
    eapply is_chain_valid_append; [exact Hvalid | exact Hlatest | | exact Hprev
                                  | reflexivity].
    eapply mine_block_keeps_hash; [apply init_hash | exact Hblock].
  - rewrite (is_chain_valid_same_chain self) by apply chain_create_nft.
    rewrite chain_create_nft. auto.
  - rewrite (is_chain_valid_same_chain self) by apply chain_transfer_nft.
    rewrite chain_transfer_nft. auto.
Qed.

Lemma is_chain_valid_init now : ZenChain.is_chain_valid (ZenChain.init now) = true.
Proof. reflexivity. Qed.

End Validity.

(** C2: in every state reached from a fresh ledger by calls of
    [create_transaction], [mine_pending_transactions], [create_nft] and
    [transfer_nft] that return, [is_chain_valid()] is true (so it is on the
    fresh, genesis-only ledger), the chain is not empty, and every block at
    a position [i > 0] stores the stored hash of block [i - 1] as previous
    hash and the hash recomputed from its fields as hash. *)
Theorem reachable_is_chain_valid (self : ZenChain.t) :
  ZenChain.reachable self ->
  ZenChain.is_chain_valid self = true /\
  (forall now, ZenChain.is_chain_valid (ZenChain.init now) = true) /\
  ZenChain.chain self <> [] /\
  forall i, (0 < i < length (ZenChain.chain self))%nat ->
    exists current previous,
      ZenChain.chain self !! i = Some current /\
      ZenChain.chain self !! (i - 1)%nat = Some previous /\
      Block.previous_hash current = Block.hash previous /\
      Block.hash current = Block.calculate_hash current.
Proof.
  intros Hreach.
  assert (Hinv : ZenChain.chain self <> [] /\ ZenChain.is_chain_valid self = true).
  { induction Hreach as [now|self self' _ IH Hstep].
    - split; [discriminate | apply is_chain_valid_init].
    - eapply step_keeps_valid; eauto. }
  destruct Hinv as [Hne Hvalid].
  split; [exact Hvalid|]. split; [apply is_chain_valid_init|].
  split; [exact Hne|].
  intros i Hi. rewrite is_chain_valid_true in Hvalid.
  destruct (proj1 (block_passes_iff _ _) (Hvalid i ltac:(lia)))
    as (current & previous & ? & ? & ? & ?).
  exists current, previous. auto.
Qed.

Lemma demo_reachable : ZenChain.reachable Demo.ledger3.
Proof.
  eapply ZenChain.reachable_step.
  - eapply ZenChain.reachable_step.
    + eapply ZenChain.reachable_step.
      * apply (ZenChain.reachable_init 1700000000).
      * apply (ZenChain.step_create_transaction _ Demo.payment).
    + apply (ZenChain.step_mine_pending_transactions
               Demo.ledger1 1 1700000020 1700000021 Demo.miner Demo.ledger2).
      vm_compute. reflexivity.
  - apply (ZenChain.step_mine_pending_transactions
             Demo.ledger2 2 1700000023 1700000024 Demo.miner Demo.ledger3).
    vm_compute. reflexivity.
Defined.

Lemma reachable_is_chain_valid_witness :
  length (ZenChain.chain Demo.ledger3) = 3%nat /\
  ZenChain.is_chain_valid Demo.ledger3 = true.
Proof.
  split; [vm_compute; reflexivity|].
  exact (proj1 (reachable_is_chain_valid Demo.ledger3 demo_reachable)).
Defined.

(* ===================================================================== *)
(** ** ZenChain: balances *)
(* ===================================================================== *)

Section Balances.

Implicit Types (self : ZenChain.t) (address : string) (trans : Transaction.t).

Lemma for_each_app {A B : Type} (body : A -> B -> option A) (l1 l2 : list B) (acc : A) :
  Accounts.for_each body (l1 ++ l2) acc
  = match Accounts.for_each body l1 acc with
    | Some acc' => Accounts.for_each body l2 acc'
    | None => None
    end.
Proof.
  revert acc. induction l1 as [|x l1 IH]; intros acc; cbn [Accounts.for_each app];
    [reflexivity|].
  destruct (body acc x) as [acc'|]; [apply IH | reflexivity].
Qed.

(** The two nested loops are one loop over the committed transactions,
    whatever the amounts. *)
Lemma nested_loops address (chain : list Accounts.block) (balance : Python.number) :
  Accounts.for_each
    (fun balance block =>
       Accounts.for_each (Accounts.balance_step address)
                         (Accounts.transactions block) balance)
    chain balance
  = Accounts.for_each (Accounts.balance_step address)
      (List.concat (List.map Accounts.transactions chain)) balance.
Proof.
  revert balance. induction chain as [|block chain IH]; intros balance;
    cbn [Accounts.for_each List.map List.concat]; [reflexivity|].
  rewrite for_each_app.
  destruct (Accounts.for_each (Accounts.balance_step address)
              (Accounts.transactions block) balance) as [balance'|];
    [apply IH | reflexivity].
Qed.

Lemma get_balance_one_loop address (ledger : Accounts.t) :
  Accounts.get_balance address ledger
  = Accounts.for_each (Accounts.balance_step address)
      (Accounts.committed_transactions ledger) (Python.Int 0).
Proof. apply nested_loops. Qed.

(** On [int]s the loop body adds the contribution of the transaction. *)
Lemma balance_step_int address balance trans :
  Accounts.balance_step address (Python.Int balance) (Accounts.of_transaction trans)
  = Some (Python.Int (balance + ZenChain.contribution address trans)).
Proof.
  unfold Accounts.balance_step, ZenChain.contribution, Accounts.of_transaction.
  cbn [Accounts.sender Accounts.recipient Accounts.amount].
  repeat case_bool_decide; cbn [Python.sub Python.add]; do 2 f_equal; lia.
Qed.

Lemma sum_contributions_app address l1 l2 :
  ZenChain.sum_contributions address (l1 ++ l2)
  = ZenChain.sum_contributions address l1 + ZenChain.sum_contributions address l2.
Proof.
  unfold ZenChain.sum_contributions.
  induction l1 as [|trans l1 IH]; cbn; [reflexivity|]. rewrite IH. lia.
Qed.

Lemma inner_loop address (l : list Transaction.t) balance :
  Accounts.for_each (Accounts.balance_step address)
    (List.map Accounts.of_transaction l) (Python.Int balance)
  = Some (Python.Int (balance + ZenChain.sum_contributions address l)).
Proof.
  revert balance. induction l as [|trans l IH]; intros balance;
    cbn [Accounts.for_each List.map].
  - unfold ZenChain.sum_contributions. cbn. do 2 f_equal. lia.
  - rewrite balance_step_int, IH.
    unfold ZenChain.sum_contributions. cbn [foldr]. do 2 f_equal. lia.
Qed.

Lemma committed_of_ledger self :
  Accounts.committed_transactions (Accounts.of_ledger self)
  = List.map Accounts.of_transaction (ZenChain.committed_transactions self).
Proof.
  unfold Accounts.committed_transactions, ZenChain.committed_transactions,
    Accounts.of_ledger.
  cbn [Accounts.chain].
  induction (ZenChain.chain self) as [|block chain IH];
    cbn [List.map List.concat]; [reflexivity|].
  rewrite IH, List.map_app. reflexivity.
Qed.

Lemma get_balance_sum address self :
  Accounts.get_balance address (Accounts.of_ledger self)
  = Some (Python.Int (ZenChain.balance_sum address self)).
Proof.
  rewrite get_balance_one_loop, committed_of_ledger, inner_loop.
  reflexivity.
Qed.

(** Summing an indicator over a list without repetition. *)
Lemma sum_indicator (l : list string) (x : string) (v : Z) :
  NoDup l ->
  foldr (fun a acc => (if bool_decide (x = a) then v else 0) + acc) 0 l
  = if bool_decide (x ∈ l) then v else 0.
Proof.
  induction 1 as [|a l Hnotin _ IH]; cbn; [reflexivity|].
  rewrite IH. destruct (decide (x = a)) as [->|Hne].
  - rewrite (bool_decide_eq_true_2 (a = a)) by reflexivity.
    rewrite (bool_decide_eq_false_2 (a ∈ l)) by assumption.
    rewrite (bool_decide_eq_true_2 (a ∈ a :: l)) by (apply elem_of_cons; auto).
    lia.
  - rewrite (bool_decide_eq_false_2 (x = a)) by assumption.
    destruct (decide (x ∈ l)) as [Hin|Hnin].
    + rewrite (bool_decide_eq_true_2 (x ∈ l)) by assumption.
      rewrite (bool_decide_eq_true_2 (x ∈ a :: l)) by (apply elem_of_cons; auto).
      lia.
    + rewrite (bool_decide_eq_false_2 (x ∈ l)) by assumption.
      rewrite (bool_decide_eq_false_2 (x ∈ a :: l))
        by (rewrite elem_of_cons; intros [?|?]; contradiction).
      lia.
Qed.

Lemma sum_indicator_sender (l : list string) (sender : option string) (v : Z) :
  NoDup l ->
  foldr (fun a acc => (if bool_decide (sender = Some a) then v else 0) + acc) 0 l
  = match sender with
    | Some x => if bool_decide (x ∈ l) then v else 0
    | None => 0
    end.
Proof.
  intros Hl. destruct sender as [x|].
  - rewrite <- (sum_indicator l x v Hl).
    induction l as [|a l IH]; cbn; [reflexivity|].
    inversion Hl; subst. rewrite IH by assumption.
    repeat case_bool_decide; congruence.
  - clear Hl. induction l as [|a l IH]; cbn; [reflexivity|]. rewrite IH.
    case_bool_decide; [discriminate | reflexivity].
Qed.

Lemma sum_over_add l f g :
  ZenChain.sum_over l (fun a => f a + g a)
  = ZenChain.sum_over l f + ZenChain.sum_over l g.
Proof.
  unfold ZenChain.sum_over.
  induction l as [|a l IH]; cbn; [reflexivity|]. rewrite IH. lia.
Qed.

Lemma sum_over_sub l f g :
  ZenChain.sum_over l (fun a => f a - g a)
  = ZenChain.sum_over l f - ZenChain.sum_over l g.
Proof.
  unfold ZenChain.sum_over.
  induction l as [|a l IH]; cbn; [reflexivity|]. rewrite IH. lia.
Qed.

Lemma sum_over_zero l : ZenChain.sum_over l (fun _ => 0) = 0.
Proof.
  unfold ZenChain.sum_over.
  induction l as [|a l IH]; cbn; [reflexivity|]. rewrite IH. lia.
Qed.

Lemma sum_over_ext l f g :
  (forall a, f a = g a) -> ZenChain.sum_over l f = ZenChain.sum_over l g.
Proof.
  intros Hfg. unfold ZenChain.sum_over.
  induction l as [|a l IH]; cbn; [reflexivity|]. rewrite IH, Hfg. lia.
Qed.

(** Over a set holding its sender and its recipient, the contributions of
    one transaction cancel. *)
Lemma contributions_cancel (l : list string) trans (a0 : string) :
  NoDup l ->
  Transaction.sender trans = Some a0 -> a0 ∈ l -> Transaction.recipient trans ∈ l ->
  ZenChain.sum_over l (fun a => ZenChain.contribution a trans) = 0.
Proof.
  intros Hl Hsender Hin Hrecipient.
  unfold ZenChain.contribution. rewrite sum_over_sub.
  unfold ZenChain.sum_over.
  rewrite (sum_indicator l (Transaction.recipient trans) _ Hl).
  rewrite (sum_indicator_sender l (Transaction.sender trans) _ Hl), Hsender.
  rewrite !bool_decide_eq_true_2 by assumption. lia.
Qed.

Lemma sum_over_contributions (l : list string) (txs : list Transaction.t) :
  ZenChain.sum_over l (fun a => ZenChain.sum_contributions a txs)
  = foldr (fun trans acc => ZenChain.sum_over l (fun a => ZenChain.contribution a trans) + acc)
          0 txs.
Proof.
  induction txs as [|trans txs IH]; cbn [foldr].
  - apply sum_over_zero.
  - rewrite <- IH, <- sum_over_add. reflexivity.
Qed.

(** Adding up the balances of a list of addresses, on [int] amounts. *)
Lemma total_balance_loop (addresses : list string) self (total : Z) :
  Accounts.for_each
    (fun total a =>
       match Accounts.get_balance a (Accounts.of_ledger self) with
       | Some balance => Python.add total balance
       | None => None
       end)
    addresses (Python.Int total)
  = Some (Python.Int
            (total + ZenChain.sum_over addresses
                       (fun a => ZenChain.balance_sum a self))).
Proof.
  revert total. induction addresses as [|a addresses IH]; intros total;
    cbn [Accounts.for_each].
  - unfold ZenChain.sum_over. cbn. do 2 f_equal. lia.
  - rewrite get_balance_sum. cbn [Python.add]. rewrite IH.
    unfold ZenChain.sum_over. cbn [foldr]. do 2 f_equal. lia.
Qed.

Lemma total_balance_sum (addresses : list string) self :
  Accounts.total_balance addresses (Accounts.of_ledger self)
  = Some (Python.Int
            (foldr (fun trans acc =>
                      ZenChain.sum_over addresses
                        (fun a => ZenChain.contribution a trans) + acc)
                   0 (ZenChain.committed_transactions self))).
Proof.
  unfold Accounts.total_balance. rewrite total_balance_loop.
  unfold ZenChain.balance_sum. rewrite sum_over_contributions.
  do 2 f_equal.
Qed.

Lemma closed_over_of_ledger (S : gset string) self :
  Accounts.closed_over S (Accounts.of_ledger self)
  = forallb
      (fun trans =>
         match Transaction.sender trans with
         | Some a => bool_decide (a ∈ S) && bool_decide (Transaction.recipient trans ∈ S)
         | None => false
         end)
      (ZenChain.committed_transactions self).
Proof.
  unfold Accounts.closed_over. rewrite committed_of_ledger.
  induction (ZenChain.committed_transactions self) as [|trans txs IH];
    cbn [forallb List.map]; [reflexivity|].
  rewrite IH. reflexivity.
Qed.

(** The two ways of listing a set of two addresses. *)
Lemma two_listed (a b : string) :
  a <> b ->
  [a; b] ≡ₚ elements ({[a; b]} : gset string) /\
  [b; a] ≡ₚ elements ({[a; b]} : gset string).
Proof.
  intros Hne.
  assert (Hab : [a; b] ≡ₚ elements ({[a; b]} : gset string)).
  { apply NoDup_Permutation.
    - apply NoDup_cons. split; [|apply NoDup_singleton].
      rewrite list_elem_of_singleton. exact Hne.
    - apply NoDup_elements.
    - intros x.
      rewrite elem_of_elements, elem_of_cons, list_elem_of_singleton,
        elem_of_union, !elem_of_singleton.
      reflexivity. }
  split; [exact Hab|]. rewrite <- Hab. apply Permutation_swap.
Qed.

End Balances.

(** C5, on [int] amounts: [get_balance(a)] is the sum over the transactions
    of the committed blocks of the amount, added when [a] is the recipient
    and subtracted when [a] is the sender, and on a transaction from [a] to
    [a] both [if] statements fire and leave the running balance as it was.
    Whatever the amounts, [int] or [float], the pending pool plays no
    part, and the two loops apply the subtractions and additions one
    after the other, in the order of the committed transactions. *)
Theorem get_balance_spec (self : ZenChain.t) (a : string) :
  Accounts.get_balance a (Accounts.of_ledger self)
  = Some (Python.Int
      (foldr (fun trans acc =>
                (if bool_decide (Transaction.recipient trans = a)
                 then Transaction.amount trans else 0)
                - (if bool_decide (Transaction.sender trans = Some a)
                   then Transaction.amount trans else 0) + acc)
             0 (List.concat (List.map Block.transactions (ZenChain.chain self))))) /\
  (forall (ledger : Accounts.t) (pending : list Accounts.transaction),
     Accounts.get_balance a (Accounts.with_pending pending ledger)
     = Accounts.get_balance a ledger) /\
  (forall pending : list Transaction.t,
     Accounts.get_balance a (Accounts.of_ledger (ZenChain.with_pending pending self))
     = Accounts.get_balance a (Accounts.of_ledger self)) /\
  (forall ledger : Accounts.t,
     Accounts.get_balance a ledger
     = Accounts.for_each (Accounts.balance_step a)
         (List.concat (List.map Accounts.transactions (Accounts.chain ledger)))
         (Python.Int 0)) /\
  (forall trans balance,
     Transaction.sender trans = Some a -> Transaction.recipient trans = a ->
     Python.sub (Python.Int balance) (Python.Int (Transaction.amount trans))
     = Some (Python.Int (balance - Transaction.amount trans)) /\
     Python.add (Python.Int (balance - Transaction.amount trans))
                (Python.Int (Transaction.amount trans))
     = Some (Python.Int balance) /\
     Accounts.balance_step a (Python.Int balance) (Accounts.of_transaction trans)
     = Some (Python.Int balance) /\
     ZenChain.contribution a trans = 0).
Proof.
  split; [apply get_balance_sum|]. split; [reflexivity|]. split; [reflexivity|].
  split; [intros ledger; apply get_balance_one_loop|].
  intros trans balance Hsender Hrecipient.
  assert (Hzero : ZenChain.contribution a trans = 0).
  { unfold ZenChain.contribution.
    rewrite !bool_decide_eq_true_2 by assumption. lia. }
  split; [reflexivity|]. split; [cbn [Python.add]; do 2 f_equal; lia|].
  split; [|exact Hzero].
  rewrite balance_step_int, Hzero. do 2 f_equal. lia.
Qed.

Lemma get_balance_spec_witness :
  Accounts.get_balance Demo.alice (Accounts.of_ledger Demo.ledger3)
  = Some (Python.Int (-10)) /\
  Accounts.get_balance Demo.bob (Accounts.of_ledger Demo.ledger3)
  = Some (Python.Int 10) /\
  Accounts.get_balance Demo.miner (Accounts.of_ledger Demo.ledger3)
  = Some (Python.Int 100) /\
  Accounts.get_balance Demo.miner (Accounts.of_ledger Demo.ledger2)
  = Some (Python.Int 0) /\
  forall balance,
    Accounts.balance_step Demo.bob (Python.Int balance)
      (Accounts.of_transaction
         (Transaction.init (Some Demo.bob) Demo.bob 7 Json.Null 1700000030))
    = Some (Python.Int balance).
Proof.
  split; [|split; [|split; [|split]]].
  - rewrite (proj1 (get_balance_spec Demo.ledger3 Demo.alice)). vm_compute. reflexivity.
  - rewrite (proj1 (get_balance_spec Demo.ledger3 Demo.bob)). vm_compute. reflexivity.
  - rewrite (proj1 (get_balance_spec Demo.ledger3 Demo.miner)). vm_compute. reflexivity.
  - rewrite (proj1 (get_balance_spec Demo.ledger2 Demo.miner)). vm_compute. reflexivity.
  - intros balance.
    apply (proj2 (proj2 (proj2 (proj2 (get_balance_spec Demo.ledger0 Demo.bob)))));
      reflexivity.
Defined.

(** The claim of C5 fails on [float] amounts.  Bob holds 0.1, received
    from Alice; a payment of 1e17 from Bob to Bob, on which both [if]
    statements fire, leaves him 0.0: the subtraction rounds 0.1 - 1e17 to
    -1e17.  The sum of the amounts added and subtracted is 0.1. *)
Lemma get_balance_float_self_transfer :
  Accounts.get_balance Demo.bob More.received = Some (Python.Float 0.1) /\
  Accounts.committed_transactions More.self_paid
  = Accounts.committed_transactions More.received
    ++ [Accounts.mk_transaction (Some Demo.bob) Demo.bob (Python.Float 1e17)] /\
  Accounts.balance_step Demo.bob (Python.Float 0.1)
    (Accounts.mk_transaction (Some Demo.bob) Demo.bob (Python.Float 1e17))
  = Some (Python.Float 0) /\
  Accounts.get_balance Demo.bob More.self_paid = Some (Python.Float 0) /\
  Python.eqb (Python.Float 0) (Python.Float 0.1) = false.
Proof. repeat split; vm_compute; reflexivity. Qed.

(** C8, on [int] amounts: when every transaction of the committed blocks
    has its sender and its recipient in the finite set [S] (no transaction
    without sender), the balances of the addresses of [S], added up in any
    order, come to 0. *)
Theorem balance_conservation
    (S : gset string) (self : ZenChain.t) (addresses : list string) :
  addresses ≡ₚ elements S ->
  Accounts.closed_over S (Accounts.of_ledger self) = true ->
  Accounts.total_balance addresses (Accounts.of_ledger self) = Some (Python.Int 0).
Proof.
  intros Haddresses Hclosed. rewrite total_balance_sum.
  rewrite closed_over_of_ledger, forallb_forall in Hclosed.
  assert (Hnodup : NoDup addresses) by (rewrite Haddresses; apply NoDup_elements).
  assert (Hin : forall a, a ∈ S -> a ∈ addresses).
  { intros a Ha. rewrite Haddresses. apply elem_of_elements. exact Ha. }
  do 2 f_equal.
  induction (ZenChain.committed_transactions self) as [|trans txs IH]; cbn;
    [reflexivity|].
  rewrite IH by (intros x Hx; apply Hclosed; right; exact Hx).
  specialize (Hclosed trans (or_introl eq_refl)).
  destruct (Transaction.sender trans) as [a0|] eqn:Hsender; [|discriminate].
  apply andb_true_iff in Hclosed as [Ha0 Hrecipient].
  apply bool_decide_eq_true_1 in Ha0, Hrecipient.
  rewrite (contributions_cancel addresses trans a0); auto.
Qed.

Lemma balance_conservation_witness :
  ZenChain.committed_transactions Demo.ledger2 = [Demo.payment] /\
  Accounts.total_balance [Demo.alice; Demo.bob] (Accounts.of_ledger Demo.ledger2)
  = Some (Python.Int 0) /\
  Accounts.total_balance [Demo.bob; Demo.alice] (Accounts.of_ledger Demo.ledger2)
  = Some (Python.Int 0).
Proof.
  assert (Hne : Demo.alice <> Demo.bob) by discriminate.
  split; [vm_compute; reflexivity|]. split.
  - apply (balance_conservation {[Demo.alice; Demo.bob]} Demo.ledger2).
    + apply (proj1 (two_listed Demo.alice Demo.bob Hne)).
    + vm_compute. reflexivity.
  - apply (balance_conservation {[Demo.alice; Demo.bob]} Demo.ledger2).
    + apply (proj2 (two_listed Demo.alice Demo.bob Hne)).
    + vm_compute. reflexivity.
Defined.

(** The claim of C8 fails on [float] amounts.  Alice pays 0.1 to Bob,
    0.3 to Carol and 0.5 to Bob; every transaction has its sender and its
    recipient among the three.  The balances are -0.9, 0.6 and 0.3, whose
    values add up to -2^-54: in whichever order they are added, the total
    is not 0. *)
Lemma balance_conservation_fails_on_floats :
  Accounts.closed_over {[Demo.alice; Demo.bob; More.carol]} More.cash = true /\
  Accounts.get_balance Demo.alice More.cash = Some (Python.Float (-0.9)) /\
  Accounts.get_balance Demo.bob More.cash = Some (Python.Float 0.6) /\
  Accounts.get_balance More.carol More.cash = Some (Python.Float 0.3) /\
  Python.dyadic (-0.9) = Some (- 8106479329266893, -53) /\
  Python.dyadic 0.6 = Some (5404319552844595, -53) /\
  Python.dyadic 0.3 = Some (5404319552844595, -54) /\
  - 8106479329266893 * 2 + 5404319552844595 * 2 + 5404319552844595 = -1 /\
  Forall
    (fun addresses =>
       exists total,
         Accounts.total_balance addresses More.cash = Some total /\
         Python.eqb total (Python.Int 0) = false)
    (Accounts.orders Demo.alice Demo.bob More.carol).
Proof.
  split; [vm_compute; reflexivity|].
  do 7 (split; [vm_compute; reflexivity|]).
  repeat constructor; eexists; (split; [vm_compute; reflexivity | vm_compute; reflexivity]).
Qed.

(* ===================================================================== *)
(** ** ZenChain: the NFT registry *)
(* ===================================================================== *)

(** C6: [create_nft(owner, id, name, description)] returns [False] and
    leaves the ledger (registry and pending pool included) as it was when
    [id] is in the registry; otherwise it maps [id] to the entry made of
    owner, name, description and creation time, appends to the pending pool
    one transaction of amount 0 without sender whose payload holds the
    action ["create"], the id, the name and the description, and returns
    [True]. *)
Theorem create_nft_spec
    (self : ZenChain.t) (now_created now_tx : Z)
    (owner id name description : string) :
  let result :=
    ZenChain.create_nft now_created now_tx owner id name description self in
  (is_Some (ZenChain.nft_collections self !! id) ->
     result = (false, self)) /\
  (ZenChain.nft_collections self !! id = None ->
     fst result = true /\
     ZenChain.nft_collections (snd result)
       = <[id := ZenChain.mk_nft owner name description now_created]>
           (ZenChain.nft_collections self) /\
     (exists trans,
        ZenChain.pending_transactions (snd result)
          = ZenChain.pending_transactions self ++ [trans] /\
        Transaction.sender trans = None /\
        Transaction.recipient trans = owner /\
        Transaction.amount trans = 0 /\
        Transaction.nft_data trans
          = Json.Obj [ ("action", Json.Str "create"); ("nft_id", Json.Str id);
                       ("name", Json.Str name);
                       ("description", Json.Str description) ] /\
        Transaction.timestamp trans = now_tx /\
        Transaction.hash trans = Transaction.calculate_hash trans) /\
     ZenChain.chain (snd result) = ZenChain.chain self /\
     ZenChain.difficulty (snd result) = ZenChain.difficulty self /\
     ZenChain.mining_reward (snd result) = ZenChain.mining_reward self).
Proof.
  unfold ZenChain.create_nft. cbv zeta. split.
  - intros [entry ->]. reflexivity.
  - intros ->. cbn [fst snd ZenChain.nft_collections ZenChain.pending_transactions
                    ZenChain.create_transaction ZenChain.chain ZenChain.difficulty
                    ZenChain.mining_reward].
    split; [reflexivity|]. split; [reflexivity|].
    split; [|repeat split].
    eexists. split; [reflexivity|]. repeat split.
Qed.

Lemma create_nft_spec_witness :
  (exists entry,
     ZenChain.nft_collections Demo.gallery1 !! "X" = Some entry /\
     ZenChain.owner entry = Demo.alice) /\
  ZenChain.create_nft 1700000060 1700000061 Demo.bob "X" "Copy" "again" Demo.gallery1
  = (false, Demo.gallery1) /\
  length (ZenChain.pending_transactions Demo.gallery1) = 1%nat.
Proof.
  split; [eexists; split; vm_compute; reflexivity|].
  split; [|vm_compute; reflexivity].
  apply (proj1 (create_nft_spec Demo.gallery1 1700000060 1700000061
                                Demo.bob "X" "Copy" "again")).
  eexists. vm_compute. reflexivity.
Defined.

(** C7: [transfer_nft(sender, recipient, id)] returns [False] and leaves
    the ledger (registry and pending pool included) as it was when [id] is
    not in the registry or when the owner recorded for [id] is not
    [sender]; otherwise it overwrites the owner of that entry with
    [recipient], appends to the pending pool one transaction of amount 0
    from [sender] to [recipient] whose payload holds the action
    ["transfer"] and the id, and returns [True]. *)
Theorem transfer_nft_spec
    (self : ZenChain.t) (now_tx : Z) (sender recipient id : string) :
  let result := ZenChain.transfer_nft now_tx sender recipient id self in
  (ZenChain.nft_collections self !! id = None ->
     result = (false, self)) /\
  (forall entry,
     ZenChain.nft_collections self !! id = Some entry ->
     ZenChain.owner entry <> sender ->
     result = (false, self)) /\
  (forall entry,
     ZenChain.nft_collections self !! id = Some entry ->
     ZenChain.owner entry = sender ->
     fst result = true /\
     ZenChain.nft_collections (snd result)
       = <[id := ZenChain.mk_nft recipient (ZenChain.name entry)
                   (ZenChain.description entry) (ZenChain.created_at entry)]>
           (ZenChain.nft_collections self) /\
     (exists trans,
        ZenChain.pending_transactions (snd result)
          = ZenChain.pending_transactions self ++ [trans] /\
        Transaction.sender trans = Some sender /\
        Transaction.recipient trans = recipient /\
        Transaction.amount trans = 0 /\
        Transaction.nft_data trans
          = Json.Obj [ ("action", Json.Str "transfer"); ("nft_id", Json.Str id) ] /\
        Transaction.timestamp trans = now_tx /\
        Transaction.hash trans = Transaction.calculate_hash trans) /\
     ZenChain.chain (snd result) = ZenChain.chain self /\
     ZenChain.difficulty (snd result) = ZenChain.difficulty self /\
     ZenChain.mining_reward (snd result) = ZenChain.mining_reward self).
Proof.
  unfold ZenChain.transfer_nft. cbv zeta. split; [|split].
  - intros ->. reflexivity.
  - intros entry -> Howner.
    apply String.eqb_neq in Howner. rewrite Howner. reflexivity.
  - intros entry -> Howner.
    apply String.eqb_eq in Howner. rewrite Howner.
    cbn [negb fst snd ZenChain.nft_collections ZenChain.pending_transactions
         ZenChain.create_transaction ZenChain.chain ZenChain.difficulty
         ZenChain.mining_reward].
    split; [reflexivity|]. split; [reflexivity|].
    split; [|repeat split].
    eexists. split; [reflexivity|]. repeat split.
Qed.

Lemma transfer_nft_spec_witness :
  (exists entry,
     ZenChain.nft_collections Demo.gallery2 !! "X" = Some entry /\
     ZenChain.owner entry = Demo.bob /\ ZenChain.name entry = "Sunrise") /\
  ZenChain.transfer_nft 1700000070 Demo.alice Demo.miner "X" Demo.gallery2
  = (false, Demo.gallery2) /\
  ZenChain.transfer_nft 1700000070 Demo.bob Demo.miner "Y" Demo.gallery2
  = (false, Demo.gallery2) /\
  fst (ZenChain.transfer_nft 1700000070 Demo.bob Demo.miner "X" Demo.gallery2) = true.
Proof.
  split; [eexists; repeat split; vm_compute; reflexivity|].
  split; [|split].
  - eapply (proj1 (proj2 (transfer_nft_spec Demo.gallery2 1700000070
                            Demo.alice Demo.miner "X"))).
    + vm_compute. reflexivity.
    + vm_compute. discriminate.
  - apply (proj1 (transfer_nft_spec Demo.gallery2 1700000070
                    Demo.bob Demo.miner "Y")).
    vm_compute. reflexivity.
  - eapply (proj2 (proj2 (transfer_nft_spec Demo.gallery2 1700000070
                            Demo.bob Demo.miner "X"))).
    + vm_compute. reflexivity.
    + vm_compute. reflexivity.
Defined.

(* ===================================================================== *)
(** ** The serialisation of a block as a function of one amount *)
(* ===================================================================== *)

Section Serialisation.

Lemma str_app_assoc (s1 s2 s3 : string) :
  (s1 +:+ s2) +:+ s3 = s1 +:+ (s2 +:+ s3).
Proof.
  induction s1 as [|c s1 IH]; [reflexivity|].
  change (String c ((s1 +:+ s2) +:+ s3) = String c (s1 +:+ (s2 +:+ s3))).
  rewrite IH. reflexivity.
Qed.

Lemma str_app_nil_r (s : string) : s +:+ EmptyString = s.
Proof.
  induction s as [|c s IH]; [reflexivity|].
  change (String c (s +:+ EmptyString) = String c s). rewrite IH. reflexivity.
Qed.

Lemma str_app_length (s1 s2 : string) :
  String.length (s1 +:+ s2) = (String.length s1 + String.length s2)%nat.
Proof.
  induction s1 as [|c s1 IH]; [reflexivity|].
  change (S (String.length (s1 +:+ s2)) = S (String.length s1 + String.length s2)).
  rewrite IH. reflexivity.
Qed.

Lemma str_app_inv_tail (s1 s2 t : string) : s1 +:+ t = s2 +:+ t -> s1 = s2.
Proof.
  revert s2. induction s1 as [|c s1 IH]; intros [|c' s2] Heq.
  - reflexivity.
  - apply (f_equal String.length) in Heq.
    rewrite !str_app_length in Heq. cbn in Heq. lia.
  - apply (f_equal String.length) in Heq.
    rewrite !str_app_length in Heq. cbn in Heq. lia.
  - change (String c (s1 +:+ t) = String c' (s2 +:+ t)) in Heq.
    injection Heq as -> Heq. f_equal. apply IH. exact Heq.
Qed.

Lemma framed_hole (suffix : string) : framed (fun x => x +:+ suffix).
Proof. exists EmptyString, suffix. reflexivity. Qed.

Lemma framed_left (prefix : string) (F : string -> string) :
  framed F -> framed (fun x => prefix +:+ F x).
Proof.
  intros (p & s & HF). exists (prefix +:+ p), s. intros x.
  rewrite HF, str_app_assoc. reflexivity.
Qed.

Lemma framed_right (suffix : string) (F : string -> string) :
  framed F -> framed (fun x => F x +:+ suffix).
Proof.
  intros (p & s & HF). exists p, (s +:+ suffix). intros x.
  rewrite HF, !str_app_assoc. reflexivity.
Qed.

Lemma framed_compose (F G : string -> string) :
  framed F -> framed G -> framed (fun x => F (G x)).
Proof.
  intros (p & s & HF) (p' & s' & HG). exists (p +:+ p'), (s' +:+ s). intros x.
  rewrite HF, HG, !str_app_assoc. reflexivity.
Qed.

Lemma framed_ext (F G : string -> string) :
  (forall x, F x = G x) -> framed G -> framed F.
Proof.
  intros Hext (p & s & HG). exists p, s. intros x. rewrite Hext. apply HG.
Qed.

Lemma framed_inj (F : string -> string) x y : framed F -> F x = F y -> x = y.
Proof.
  intros (p & s & HF). rewrite !HF. intros Heq.
  apply String.app_inj in Heq. eapply str_app_inv_tail. exact Heq.
Qed.

(** One element of a list joined with separators. *)
Lemma concat_framed (sep : string) (l1 l2 : list string) :
  framed (fun x => String.concat sep (l1 ++ x :: l2)).
Proof.
  induction l1 as [|y l1 IH].
  - destruct l2 as [|z l2].
    + apply (framed_ext _ (fun x => x +:+ EmptyString)); [|apply framed_hole].
      intros x. cbn. symmetry. apply str_app_nil_r.
    + apply (framed_hole (sep +:+ String.concat sep (z :: l2))).
  - apply (framed_ext _ (fun x => y +:+ (sep +:+ String.concat sep (l1 ++ x :: l2)))).
    + intros x. destruct l1; reflexivity.
    + apply framed_left, framed_left, IH.
Qed.

Lemma sort_transaction_items (v1 v2 v3 v4 v5 v6 : string) :
  Json.sort_items
    [ ("sender", v1); ("recipient", v2); ("amount", v3);
      ("nft_data", v4); ("timestamp", v5); ("hash", v6) ]
  = [ ("amount", v3); ("hash", v6); ("nft_data", v4);
      ("recipient", v2); ("sender", v1); ("timestamp", v5) ].
Proof. reflexivity. Qed.

Lemma sort_block_items (v1 v2 v3 v4 v5 : string) :
  Json.sort_items
    [ ("index", v1); ("transactions", v2); ("timestamp", v3);
      ("previous_hash", v4); ("nonce", v5) ]
  = [ ("index", v1); ("nonce", v5); ("previous_hash", v4);
      ("timestamp", v3); ("transactions", v2) ].
Proof. reflexivity. Qed.

Lemma dumps_obj (d : list (string * Json.value)) :
  Json.dumps (Json.Obj d)
  = "{" +:+ String.concat ", "
              (List.map Json.dumps_item
                 (Json.sort_items (List.map (fun '(k, v) => (k, Json.dumps v)) d)))
        +:+ "}".
Proof. reflexivity. Qed.

Lemma dumps_arr (l : list Json.value) :
  Json.dumps (Json.Arr l)
  = "[" +:+ String.concat ", " (List.map Json.dumps l) +:+ "]".
Proof. reflexivity. Qed.

Lemma framed_id : framed (fun x => x).
Proof.
  exists EmptyString, EmptyString. intros x. rewrite str_app_nil_r. reflexivity.
Qed.

(** The dictionary of a transaction, as a text around its amount. *)
Lemma to_dict_framed (trans : Transaction.t) :
  exists F, framed F /\
    forall a, Json.dumps (Transaction.to_dict (Transaction.set_amount a trans))
              = F (pretty a).
Proof.
  exists (fun x =>
    "{" +:+ String.concat ", "
              (List.map Json.dumps_item
                 [ ("amount", x);
                   ("hash", Json.dumps (Json.Str (Transaction.hash trans)));
                   ("nft_data", Json.dumps (Transaction.nft_data trans));
                   ("recipient", Json.dumps (Json.Str (Transaction.recipient trans)));
                   ("sender", Json.dumps (Transaction.json_of_sender
                                            (Transaction.sender trans)));
                   ("timestamp", Json.dumps (Json.Int (Transaction.timestamp trans))) ])
        +:+ "}").
  split.
  - cbn [List.map String.concat]. unfold Json.dumps_item at 1. cbn [fst snd].
    apply framed_left, framed_right, framed_right, framed_left, framed_left, framed_id.
  - intros a. unfold Transaction.to_dict. rewrite dumps_obj.
    cbn [List.map]. rewrite sort_transaction_items. reflexivity.
Qed.

(** The serialisation of a block, as a text around its transaction list. *)
Lemma block_string_framed (block : Block.t) :
  exists F, framed F /\
    forall txs, Block.block_string (Block.set_transactions txs block)
                = F (String.concat ", "
                       (List.map Json.dumps (List.map Transaction.to_dict txs))).
Proof.
  exists (fun x =>
    "{" +:+ String.concat ", "
              (List.map Json.dumps_item
                 [ ("index", Json.dumps (Json.Int (Block.index block)));
                   ("nonce", Json.dumps (Json.Int (Block.nonce block)));
                   ("previous_hash", Json.dumps (Json.Str (Block.previous_hash block)));
                   ("timestamp", Json.dumps (Json.Int (Block.timestamp block)));
                   ("transactions", "[" +:+ x +:+ "]") ])
        +:+ "}").
  split.
  - cbn [List.map String.concat]. unfold Json.dumps_item at 5. cbn [fst snd].
    apply framed_left, framed_right.
    do 8 apply framed_left. do 3 apply framed_left. apply framed_hole.
  - intros txs. unfold Block.block_string. rewrite dumps_obj.
    cbn [List.map]. rewrite sort_block_items. reflexivity.
Qed.

(** Writing the amount of transaction [j] of a block rewrites one number in
    the serialisation of the block. *)
Lemma tampered_block_string (block : Block.t) (j : nat) (trans : Transaction.t) :
  Block.transactions block !! j = Some trans ->
  exists F, framed F /\
    forall a,
      Block.block_string
        (Block.set_transactions
           (<[j := Transaction.set_amount a trans]> (Block.transactions block)) block)
      = F (pretty a).
Proof.
  intros Hj.
  destruct (block_string_framed block) as (FB & HFB & HB).
  destruct (to_dict_framed trans) as (FT & HFT & HT).
  pose proof (concat_framed ", "
    (List.map Json.dumps (List.map Transaction.to_dict (take j (Block.transactions block))))
    (List.map Json.dumps (List.map Transaction.to_dict (drop (S j) (Block.transactions block)))))
    as HC.
  eexists. split; [exact (framed_compose _ _ HFB (framed_compose _ _ HC HFT))|].
  intros a. cbv beta. rewrite HB, <- HT. f_equal. f_equal.
  rewrite insert_take_drop by (eapply lookup_lt_Some; exact Hj).
  rewrite !map_app. reflexivity.
Qed.

Lemma set_amount_same (trans : Transaction.t) :
  Transaction.set_amount (Transaction.amount trans) trans = trans.
Proof. destruct trans. reflexivity. Qed.

Lemma set_transactions_same (block : Block.t) :
  Block.set_transactions (Block.transactions block) block = block.
Proof. destruct block. reflexivity. Qed.

(** A different amount gives a different serialisation. *)
Lemma tampered_block_string_differs (block : Block.t) (j : nat)
    (trans : Transaction.t) (a : Z) :
  Block.transactions block !! j = Some trans ->
  a <> Transaction.amount trans ->
  Block.block_string
    (Block.set_transactions
       (<[j := Transaction.set_amount a trans]> (Block.transactions block)) block)
  <> Block.block_string block.
Proof.
  intros Hj Ha Heq.
  destruct (tampered_block_string block j trans Hj) as (F & HF & Hstring).
  pose proof (Hstring (Transaction.amount trans)) as Hsame.
  rewrite set_amount_same, (list_insert_id _ _ _ Hj), set_transactions_same in Hsame.
  rewrite Hstring, Hsame in Heq.
  apply (framed_inj F _ _ HF) in Heq.
  apply pretty_Z_inj in Heq. contradiction.
Qed.

End Serialisation.

(* ===================================================================== *)
(** ** ZenChain: tampering with a committed amount *)
(* ===================================================================== *)

Section Tampering.

Lemma tamper_amount_insert (chain : list Block.t) i j block trans a :
  chain !! i = Some block -> Block.transactions block !! j = Some trans ->
  ZenChain.tamper_amount i j a chain
  = <[i := Block.set_transactions
             (<[j := Transaction.set_amount a trans]> (Block.transactions block))
             block]> chain.
Proof.
  intros Hi Hj. unfold ZenChain.tamper_amount. rewrite Hi, Hj. reflexivity.
Qed.

(** A block past the genesis block whose serialisation has changed, and
    whose digest has therefore changed unless SHA-256 collides on the two
    texts, stops the scan. *)
Lemma tampered_block_fails (self : ZenChain.t) i j block trans a :
  ZenChain.is_chain_valid self = true ->
  (1 <= i)%nat ->
  ZenChain.chain self !! i = Some block ->
  Block.transactions block !! j = Some trans ->
  a <> Transaction.amount trans ->
  (let block' :=
     Block.set_transactions
       (<[j := Transaction.set_amount a trans]> (Block.transactions block)) block in
   SHA256.hexdigest (Block.block_string block')
   = SHA256.hexdigest (Block.block_string block) ->
   Block.block_string block' = Block.block_string block) ->
  ZenChain.block_passes (ZenChain.tamper_amount i j a (ZenChain.chain self)) i = false.
Proof.
  intros Hvalid Hi Hblock Htrans Ha Hsha. cbv zeta in Hsha.
  rewrite (tamper_amount_insert _ _ _ _ _ _ Hblock Htrans).
  apply not_true_iff_false. intros Hpass.
  apply block_passes_iff in Hpass
    as (tampered & ? & Htampered & _ & Hhash & _).
  rewrite list_lookup_insert_eq in Htampered by (eapply lookup_lt_Some; exact Hblock).
  injection Htampered as <-.
  rewrite is_chain_valid_true in Hvalid.
  assert (Hi' : (1 <= i < length (ZenChain.chain self))%nat).
  { split; [exact Hi | eapply lookup_lt_Some; exact Hblock]. }
  destruct (proj1 (block_passes_iff _ _) (Hvalid i Hi'))
    as (current & previous & Hcur & _ & Hstored & _).
  rewrite Hblock in Hcur. injection Hcur as <-.
  apply (tampered_block_string_differs block j trans a Htrans Ha).
  apply Hsha. change (Block.hash block = Block.calculate_hash block) in Hstored.
  unfold Block.calculate_hash in Hhash, Hstored.
  rewrite <- Hhash, <- Hstored. reflexivity.
Qed.

End Tampering.

(* ===================================================================== *)
(** ** SHA-256 has finitely many digests *)
(* ===================================================================== *)

Section Collisions.

Lemma trunc32_range (x : Z) : 0 <= SHA256.trunc32 x < 4294967296.
Proof.
  unfold SHA256.trunc32, SHA256.mask32.
  change 4294967295 with (Z.ones 32).
  rewrite Z.land_ones by lia. apply Z.mod_pos_bound. lia.
Qed.

Lemma H0_digest_like : SHA256.digest_like SHA256.H0.
Proof.
  split; [reflexivity|]. unfold SHA256.H0. repeat constructor; lia.
Qed.

Lemma compress_digest_like (h block : list Z) :
  length h = 8%nat -> SHA256.digest_like (SHA256.compress h block).
Proof.
  intros Hlen. unfold SHA256.compress. cbv zeta. split.
  - rewrite length_map, length_combine, Hlen. reflexivity.
  - apply Forall_forall. intros w Hw.
    apply list_elem_of_In, in_map_iff in Hw as (pair & <- & _).
    apply trunc32_range.
Qed.

Lemma blocks_digest_like (fuel : nat) (h ws : list Z) :
  SHA256.digest_like h -> SHA256.digest_like (SHA256.blocks fuel h ws).
Proof.
  revert h ws. induction fuel as [|fuel IH]; intros h ws Hh; [exact Hh|].
  cbn [SHA256.blocks]. destruct ws as [|w ws]; [exact Hh|].
  apply IH, compress_digest_like, Hh.
Qed.

Lemma digest_words_digest_like (msg : list Z) : SHA256.digest_like (SHA256.digest_words msg).
Proof. apply blocks_digest_like, H0_digest_like. Qed.

Lemma word_lists_complete (h : list Z) :
  Forall (fun w => 0 <= w < 4294967296) h -> h ∈ SHA256.word_lists (length h).
Proof.
  induction 1 as [|w h Hw _ IH]; cbn [length SHA256.word_lists].
  - apply list_elem_of_In. left. reflexivity.
  - apply list_elem_of_In, in_flat_map. exists w. split.
    + apply list_elem_of_In, elem_of_seqZ. lia.
    + apply in_map, list_elem_of_In, IH.
Qed.

Lemma digest_words_in_word_lists (msg : list Z) :
  SHA256.digest_words msg ∈ SHA256.word_lists 8.
Proof.
  destruct (digest_words_digest_like msg) as [Hlen Hall].
  rewrite <- Hlen. apply word_lists_complete, Hall.
Qed.

(** Among more messages than there are digests, two have the same digest. *)
Lemma hexdigest_collides (message : nat -> string) :
  exists i1 i2, (i1 < i2)%nat /\
    SHA256.hexdigest (message i1) = SHA256.hexdigest (message i2).
Proof.
  pose (digest n := SHA256.digest_words (SHA256.bytes_of_string (message n))).
  destruct (list_pigeonhole
              (digest <$> seq 0 (S (length (SHA256.word_lists 8))))
              (SHA256.word_lists 8))
    as (i1 & i2 & x & Hlt & H1 & H2).
  - intros h Hh. apply list_elem_of_fmap in Hh as (n & -> & _).
    apply digest_words_in_word_lists.
  - rewrite length_fmap, length_seq. apply Nat.lt_succ_diag_r.
  - rewrite list_lookup_fmap in H1, H2.
    destruct (seq 0 (S (length (SHA256.word_lists 8))) !! i1) as [n1|] eqn:Hn1;
      [|discriminate].
    destruct (seq 0 (S (length (SHA256.word_lists 8))) !! i2) as [n2|] eqn:Hn2;
      [|discriminate].
    apply lookup_seq in Hn1 as [-> _]. apply lookup_seq in Hn2 as [-> _].
    cbn [fmap option_fmap option_map Nat.add] in H1, H2.
    exists i1, i2. split; [exact Hlt|].
    unfold SHA256.hexdigest. fold (digest i1) (digest i2).
    injection H1 as ->. injection H2 as ->. reflexivity.
Qed.

(** So detection of a changed amount cannot be unconditional, even past the
    genesis block: some payment, mined by hand into block 1 of a chain on
    which the scan succeeds, can have its amount changed unseen. *)
Lemma tamper_past_genesis_undetected :
  exists a a' : Z,
    a' <> Transaction.amount (Transaction.set_amount a Demo.payment) /\
    ZenChain.is_chain_valid (Demo.paid a) = true /\
    ZenChain.chain (Demo.paid a) !! 1%nat = Some (Demo.paid_block a) /\
    Block.transactions (Demo.paid_block a) !! 0%nat
      = Some (Transaction.set_amount a Demo.payment) /\
    ZenChain.is_chain_valid
      (ZenChain.with_chain
         (ZenChain.tamper_amount 1 0 a' (ZenChain.chain (Demo.paid a))) (Demo.paid a))
    = true.
Proof.
  destruct (hexdigest_collides
              (fun n => Block.block_string (Demo.paid_block (Z.of_nat n))))
    as (i1 & i2 & Hlt & Hsame).
  exists (Z.of_nat i1), (Z.of_nat i2).
  split; [cbn; lia|].
  assert (Hpasses : forall block,
            Block.hash block = Block.calculate_hash block ->
            Block.previous_hash block = Block.hash Demo.genesis ->
            ZenChain.is_chain_valid
              (ZenChain.with_chain [Demo.genesis; block] Demo.ledger0)
            = true).
  { intros block Hhash Hprev. apply is_chain_valid_true.
    rewrite chain_with_chain. cbn [length]. intros i Hi.
    assert (i = 1%nat) as -> by lia.
    apply block_passes_iff. exists block, Demo.genesis.
    split; [reflexivity|]. split; [reflexivity|]. split; assumption. }
  split; [apply Hpasses; [apply init_hash | reflexivity]|].
  split; [reflexivity|]. split; [reflexivity|].
  rewrite (tamper_amount_insert _ 1 0 (Demo.paid_block (Z.of_nat i1))
             (Transaction.set_amount (Z.of_nat i1) Demo.payment))
    by reflexivity.
  apply Hpasses; [|reflexivity].
  transitivity (Block.calculate_hash (Demo.paid_block (Z.of_nat i1)));
    [apply init_hash|].
  transitivity (Block.calculate_hash (Demo.paid_block (Z.of_nat i2)));
    [exact Hsame|].
  unfold Block.calculate_hash, Block.block_string. reflexivity.
Qed.

End Collisions.

(** C3, as the code has it.  On a chain on which [is_chain_valid()] is true,
    writing a different amount into a transaction of a block at a position
    [i >= 1], nothing re-mined, makes [is_chain_valid()] false, provided
    SHA-256 does not give the two serialisations of that block (before and
    after) the same digest.  [is_chain_valid] looks at the blocks from
    index 1 on, is false exactly when some block has a recomputed hash
    other than its stored hash or a previous hash other than the stored
    hash of the block before it (the scan stopping at the first such
    block), is true when the scan completes, and reads nothing of the
    genesis block but its stored hash. *)
Theorem tamper_detection_and_scan (self : ZenChain.t) :
  (forall i j block trans a,
     ZenChain.is_chain_valid self = true ->
     (1 <= i)%nat ->
     ZenChain.chain self !! i = Some block ->
     Block.transactions block !! j = Some trans ->
     a <> Transaction.amount trans ->
     (let block' :=
        Block.set_transactions
          (<[j := Transaction.set_amount a trans]> (Block.transactions block))
          block in
      SHA256.hexdigest (Block.block_string block')
      = SHA256.hexdigest (Block.block_string block) ->
      Block.block_string block' = Block.block_string block) ->
     ZenChain.is_chain_valid
       (ZenChain.with_chain (ZenChain.tamper_amount i j a (ZenChain.chain self)) self)
     = false) /\
  (ZenChain.is_chain_valid self = true <->
   forall i, (1 <= i < length (ZenChain.chain self))%nat ->
     exists current previous,
       ZenChain.chain self !! i = Some current /\
       ZenChain.chain self !! (i - 1)%nat = Some previous /\
       Block.hash current = Block.calculate_hash current /\
       Block.previous_hash current = Block.hash previous) /\
  (ZenChain.is_chain_valid self = false <->
   exists i current previous,
     (1 <= i < length (ZenChain.chain self))%nat /\
     ZenChain.chain self !! i = Some current /\
     ZenChain.chain self !! (i - 1)%nat = Some previous /\
     (Block.hash current <> Block.calculate_hash current \/
      Block.previous_hash current <> Block.hash previous) /\
     ZenChain.is_chain_valid_loop (ZenChain.chain self) (seq 1 (i - 1)) = true) /\
  (forall genesis genesis' rest,
     Block.hash genesis = Block.hash genesis' ->
     ZenChain.is_chain_valid (ZenChain.with_chain (genesis :: rest) self)
     = ZenChain.is_chain_valid (ZenChain.with_chain (genesis' :: rest) self)).
Proof.
  split; [|split; [|split]].
  - intros i j block trans a Hvalid Hi Hblock Htrans Ha Hsha.
    apply is_chain_valid_false. rewrite chain_with_chain.
    pose proof (tampered_block_fails self i j block trans a
                  Hvalid Hi Hblock Htrans Ha Hsha) as Hfail.
    rewrite (tamper_amount_insert _ _ _ _ _ _ Hblock Htrans) in Hfail |- *.
    rewrite length_insert.
    assert (Hlen : (i < length (ZenChain.chain self))%nat)
      by (eapply lookup_lt_Some; exact Hblock).
    exists i. split; [lia|]. split; [exact Hfail|].
    intros i' Hi'. rewrite is_chain_valid_true in Hvalid.
    rewrite <- (Hvalid i' ltac:(lia)). unfold ZenChain.block_passes.
    rewrite !list_lookup_insert_ne by lia. reflexivity.
  - rewrite is_chain_valid_true. split; intros Hall i Hi.
    + apply block_passes_iff, Hall, Hi.
    + apply block_passes_iff, Hall, Hi.
  - rewrite is_chain_valid_false. split.
    + intros (i & Hi & Hfail & Hpassed).
      destruct (lookup_lt_is_Some_2 (ZenChain.chain self) i ltac:(lia))
        as [current Hcur].
      destruct (lookup_lt_is_Some_2 (ZenChain.chain self) (i - 1) ltac:(lia))
        as [previous Hprev].
      exists i, current, previous.
      split; [exact Hi|]. split; [exact Hcur|]. split; [exact Hprev|].
      split; [apply (block_passes_false _ _ _ _ Hcur Hprev), Hfail|].
      apply is_chain_valid_loop_true. intros i' Hi'.
      apply Hpassed. apply elem_of_range in Hi'. lia.
    + intros (i & current & previous & Hi & Hcur & Hprev & Hbad & Hpassed).
      exists i. split; [exact Hi|].
      split; [apply (block_passes_false _ _ _ _ Hcur Hprev), Hbad|].
      intros i' Hi'. rewrite is_chain_valid_loop_true in Hpassed.
      apply Hpassed. apply elem_of_range. lia.
  - intros genesis genesis' rest. apply is_chain_valid_genesis.
Qed.

Lemma tamper_detection_and_scan_witness :
  ZenChain.is_chain_valid Demo.ledger2 = true /\
  (exists block,
     ZenChain.chain Demo.ledger2 !! 1%nat = Some block /\
     Block.transactions block !! 0%nat = Some Demo.payment) /\
  ZenChain.is_chain_valid
    (ZenChain.with_chain
       (ZenChain.tamper_amount 1 0 1000 (ZenChain.chain Demo.ledger2)) Demo.ledger2)
  = false.
Proof.
  split; [vm_compute; reflexivity|].
  split; [eexists; split; vm_compute; reflexivity|].
  eapply (proj1 (tamper_detection_and_scan Demo.ledger2) 1%nat 0%nat _ Demo.payment 1000).
  - vm_compute. reflexivity.
  - lia.
  - vm_compute. reflexivity.
  - vm_compute. reflexivity.
  - vm_compute. discriminate.
  - cbv zeta. intros Hsha. exfalso. revert Hsha. vm_compute. discriminate.
Defined.

(** The claim of C3 fails on a transaction of block 0: the scan never
    recomputes the hash of the genesis block. *)
Lemma tamper_in_genesis_undetected :
  (2 <= length (ZenChain.chain Demo.forged))%nat /\
  ZenChain.is_chain_valid Demo.forged = true /\
  ZenChain.chain Demo.forged !! 0%nat = Some Demo.forged_genesis /\
  Block.transactions Demo.forged_genesis !! 0%nat = Some Demo.payment /\
  11 <> Transaction.amount Demo.payment /\
  ZenChain.is_chain_valid
    (ZenChain.with_chain
       (ZenChain.tamper_amount 0 0 11 (ZenChain.chain Demo.forged)) Demo.forged)
  = true.
Proof.
  split; [cbn; lia|]. split; [vm_compute; reflexivity|].
  split; [reflexivity|]. split; [reflexivity|].
  split; [vm_compute; discriminate|]. vm_compute. reflexivity.
Qed.

(** C10: a fresh ledger. *)
Theorem init_fields (now : Z) :
  let self := ZenChain.init now in
  ZenChain.difficulty self = 2%nat /\
  ZenChain.mining_reward self = 100 /\
  ZenChain.pending_transactions self = [] /\
  ZenChain.nft_collections self = ∅ /\
  exists genesis,
    ZenChain.chain self = [genesis] /\
    Block.index genesis = 0 /\
    Block.transactions genesis = [] /\
    Block.previous_hash genesis = "0".
Proof.
  cbn. repeat split. eexists. repeat split.
Qed.


(* ===================================================================== *)
(** ** Further properties: histories *)
(* ===================================================================== *)

(** The two mining calls of the concrete run, evaluated once. *)
Lemma first_mining :
  ZenChain.mine_pending_transactions 1 1700000020 1700000021 Demo.miner Demo.ledger1
  = ZenChain.Returns Demo.ledger2.
Proof. vm_compute. reflexivity. Qed.

Lemma second_mining :
  ZenChain.mine_pending_transactions 2 1700000023 1700000024 Demo.miner Demo.ledger2
  = ZenChain.Returns Demo.ledger3.
Proof. vm_compute. reflexivity. Qed.

Section Histories.

Implicit Types (self : ZenChain.t) (address : string).

Lemma history_inner address (l : list Transaction.t) (history : list Json.value) :
  fold_left (Ledger.history_step address) l history
  = history ++ List.map Transaction.to_dict (List.filter (Ledger.involves address) l).
Proof.
  revert history. induction l as [|trans l IH]; intros history; cbn [fold_left].
  - cbn. rewrite app_nil_r. reflexivity.
  - rewrite IH. unfold Ledger.history_step. cbn [List.filter]. unfold Ledger.involves at 2.
    destruct (bool_decide _ || bool_decide _); cbn [List.map].
    + rewrite <- app_assoc. reflexivity.
    + reflexivity.
Qed.

Lemma history_outer address (chain : list Block.t) (history : list Json.value) :
  fold_left
    (fun history block =>
       fold_left (Ledger.history_step address) (Block.transactions block) history)
    chain history
  = history
    ++ List.map Transaction.to_dict
         (List.filter (Ledger.involves address)
            (List.concat (List.map Block.transactions chain))).
Proof.
  revert history. induction chain as [|block chain IH]; intros history;
    cbn [fold_left List.map List.concat].
  - cbn. rewrite app_nil_r. reflexivity.
  - rewrite IH, history_inner, List.filter_app, List.map_app, app_assoc.
    reflexivity.
Qed.

Lemma get_transaction_history_filter address self :
  ZenChain.get_transaction_history address self
  = List.map Transaction.to_dict
      (List.filter (Ledger.involves address) (ZenChain.committed_transactions self)).
Proof.
  unfold ZenChain.get_transaction_history.
  exact (history_outer address (ZenChain.chain self) []).
Qed.

Lemma committed_transactions_mined fuel now_block now_reward address self self' :
  ZenChain.mine_pending_transactions fuel now_block now_reward address self
    = ZenChain.Returns self' ->
  ZenChain.committed_transactions self'
  = ZenChain.committed_transactions self ++ ZenChain.pending_transactions self.
Proof.
  intros Hrun.
  apply mine_pending_transactions_inv in Hrun
    as (latest & block & _ & Hblock & ->).
  destruct (mine_block_frame _ _ _ _ Hblock) as (_ & Htxs & _).
  unfold ZenChain.committed_transactions. cbn [ZenChain.chain].
  rewrite List.map_app, List.concat_app. cbn [List.map List.concat].
  rewrite Htxs, app_nil_r. reflexivity.
Qed.

End Histories.

(** X1: [get_transaction_history(address)] returns the dictionaries of the
    committed transactions that have [address] as sender or as recipient,
    each once, in block order then list order; the pending pool is not
    read. *)
Theorem get_transaction_history_spec (self : ZenChain.t) (address : string) :
  ZenChain.get_transaction_history address self
  = List.map Transaction.to_dict
      (List.filter
         (fun trans => bool_decide (Transaction.sender trans = Some address)
                       || bool_decide (Transaction.recipient trans = address))
         (List.concat (List.map Block.transactions (ZenChain.chain self)))) /\
  forall pending,
    ZenChain.get_transaction_history address (ZenChain.with_pending pending self)
    = ZenChain.get_transaction_history address self.
Proof.
  split; [apply get_transaction_history_filter|reflexivity].
Qed.

(** X2: a call of [mine_pending_transactions] that returns extends the
    history of every address by the pending transactions that involve it,
    in their order; the reward transaction it creates is not yet part of
    any history. *)
Theorem history_after_mining
    (self self' : ZenChain.t) (fuel : nat) (now_block now_reward : Z)
    (R address : string) :
  ZenChain.mine_pending_transactions fuel now_block now_reward R self
    = ZenChain.Returns self' ->
  ZenChain.get_transaction_history address self'
  = ZenChain.get_transaction_history address self
    ++ List.map Transaction.to_dict
         (List.filter (Ledger.involves address) (ZenChain.pending_transactions self)).
Proof.
  intros Hrun. rewrite !get_transaction_history_filter.
  rewrite (committed_transactions_mined _ _ _ _ _ _ Hrun).
  rewrite List.filter_app, List.map_app. reflexivity.
Qed.

Lemma history_after_mining_witness :
  ZenChain.get_transaction_history Demo.alice Demo.ledger1 = [] /\
  ZenChain.get_transaction_history Demo.alice Demo.ledger2
  = [Transaction.to_dict Demo.payment] /\
  ZenChain.get_transaction_history Demo.miner Demo.ledger2 = [].
Proof.
  pose proof first_mining as Hrun.
  split; [reflexivity|]. split.
  - rewrite (history_after_mining _ _ _ _ _ _ Demo.alice Hrun). reflexivity.
  - rewrite (history_after_mining _ _ _ _ _ _ Demo.miner Hrun). reflexivity.
Defined.

(* ===================================================================== *)
(** ** Further properties: balances across mining *)
(* ===================================================================== *)

Section Submissions.

Implicit Types (self : ZenChain.t) (address : string).

(** Operations other than mining leave the chain and the settings alone and
    add to the end of the pending pool. *)
Lemma submission_frame self self' :
  Ledger.submission self self' ->
  ZenChain.chain self' = ZenChain.chain self /\
  ZenChain.difficulty self' = ZenChain.difficulty self /\
  ZenChain.mining_reward self' = ZenChain.mining_reward self /\
  exists later,
    ZenChain.pending_transactions self' = ZenChain.pending_transactions self ++ later.
Proof.
  intros [self0 transaction
         |self0 now_created now_tx owner_address nft_id nft_name nft_description
         |self0 now_tx sender recipient nft_id].
  - repeat split. exists [transaction]. reflexivity.
  - unfold ZenChain.create_nft.
    destruct (ZenChain.nft_collections self0 !! nft_id).
    + repeat split. exists []. rewrite app_nil_r. reflexivity.
    + repeat split. eexists [_]. reflexivity.
  - unfold ZenChain.transfer_nft.
    destruct (ZenChain.nft_collections self0 !! nft_id) as [entry|].
    + destruct (negb _).
      * repeat split. exists []. rewrite app_nil_r. reflexivity.
      * repeat split. eexists [_]. reflexivity.
    + repeat split. exists []. rewrite app_nil_r. reflexivity.
Qed.

Lemma submissions_frame self self' :
  rtc Ledger.submission self self' ->
  ZenChain.chain self' = ZenChain.chain self /\
  ZenChain.difficulty self' = ZenChain.difficulty self /\
  ZenChain.mining_reward self' = ZenChain.mining_reward self /\
  exists later,
    ZenChain.pending_transactions self' = ZenChain.pending_transactions self ++ later.
Proof.
  induction 1 as [self|self mid self' Hstep _ IH].
  - repeat split. exists []. rewrite app_nil_r. reflexivity.
  - destruct (submission_frame _ _ Hstep) as (Hchain & Hdifficulty & Hreward & more & Hmore).
    destruct IH as (Hchain' & Hdifficulty' & Hreward' & later & Hlater).
    split; [congruence|]. split; [congruence|]. split; [congruence|].
    exists (more ++ later). rewrite Hlater, Hmore, app_assoc. reflexivity.
Qed.

(** The pool a mining call that returns leaves behind. *)
Lemma pending_after_mining fuel now_block now_reward R self self' :
  ZenChain.mine_pending_transactions fuel now_block now_reward R self
    = ZenChain.Returns self' ->
  ZenChain.pending_transactions self'
  = [Transaction.init None R (ZenChain.mining_reward self) Json.Null now_reward].
Proof.
  intros Hrun.
  apply mine_pending_transactions_inv in Hrun as (latest & block & _ & _ & ->).
  reflexivity.
Qed.

(** A reward adds its amount to the balance of its recipient only. *)
Lemma contribution_reward address R (reward now : Z) :
  ZenChain.contribution address (Transaction.init None R reward Json.Null now)
  = if bool_decide (address = R) then reward else 0.
Proof.
  unfold ZenChain.contribution.
  cbn [Transaction.init Transaction.sender Transaction.recipient Transaction.amount].
  rewrite (bool_decide_eq_false_2 (None = Some address)) by discriminate.
  destruct (decide (address = R)) as [->|Hne].
  - rewrite !bool_decide_eq_true_2 by reflexivity. lia.
  - rewrite !bool_decide_eq_false_2 by congruence. lia.
Qed.

Lemma balance_sum_mined fuel now_block now_reward R self self' address :
  ZenChain.mine_pending_transactions fuel now_block now_reward R self
    = ZenChain.Returns self' ->
  ZenChain.balance_sum address self'
  = ZenChain.balance_sum address self
    + ZenChain.sum_contributions address (ZenChain.pending_transactions self).
Proof.
  intros Hrun. unfold ZenChain.balance_sum.
  rewrite (committed_transactions_mined _ _ _ _ _ _ Hrun).
  apply sum_contributions_app.
Qed.

Lemma refund_mining :
  ZenChain.mine_pending_transactions 1 1700000046 1700000047 Demo.bob More.refunding
  = ZenChain.Returns More.refunded.
Proof. vm_compute. reflexivity. Qed.

End Submissions.

(** X3: on a ledger whose amounts are [int]s, a call of
    [mine_pending_transactions] that returns moves every balance by what
    the pending transactions add to and take from it; the reward it
    creates is pending and moves no balance yet. *)
Theorem balance_after_mining
    (self self' : ZenChain.t) (fuel : nat) (now_block now_reward : Z)
    (R address : string) :
  ZenChain.mine_pending_transactions fuel now_block now_reward R self
    = ZenChain.Returns self' ->
  exists balance : Z,
    Accounts.get_balance address (Accounts.of_ledger self) = Some (Python.Int balance) /\
    Accounts.get_balance address (Accounts.of_ledger self')
    = Some (Python.Int
              (balance
               + ZenChain.sum_contributions address (ZenChain.pending_transactions self))) /\
    ZenChain.pending_transactions self'
    = [Transaction.init None R (ZenChain.mining_reward self) Json.Null now_reward].
Proof.
  intros Hrun. exists (ZenChain.balance_sum address self).
  split; [apply get_balance_sum|]. split.
  - rewrite get_balance_sum, (balance_sum_mined _ _ _ _ _ _ address Hrun). reflexivity.
  - eapply pending_after_mining. exact Hrun.
Qed.

Lemma balance_after_mining_witness :
  Accounts.get_balance Demo.bob (Accounts.of_ledger Demo.ledger1) = Some (Python.Int 0) /\
  Accounts.get_balance Demo.bob (Accounts.of_ledger Demo.ledger2) = Some (Python.Int 10) /\
  Accounts.get_balance Demo.alice (Accounts.of_ledger Demo.ledger2)
  = Some (Python.Int (-10)).
Proof.
  pose proof first_mining as Hrun.
  split; [reflexivity|]. split.
  - destruct (balance_after_mining _ _ _ _ _ _ Demo.bob Hrun) as (balance & Hold & -> & _).
    injection Hold as <-. reflexivity.
  - destruct (balance_after_mining _ _ _ _ _ _ Demo.alice Hrun) as (balance & Hold & -> & _).
    injection Hold as <-. reflexivity.
Defined.

(** X4: on a ledger whose amounts are [int]s, the reward of a mining call
    is credited by the next mining call that returns, whoever asks for it
    and whatever is submitted in between.  The reward transaction stays at
    the head of the pending pool, no balance moves before the second call,
    and the second call moves every balance by the reward, for the first
    reward address, and by the transactions submitted in between. *)
Theorem reward_credited_by_next_mining
    (self self1 mid self2 : ZenChain.t) (fuel fuel' : nat)
    (now_block now_reward now_block' now_reward' : Z) (R R' address : string) :
  ZenChain.mine_pending_transactions fuel now_block now_reward R self
    = ZenChain.Returns self1 ->
  rtc Ledger.submission self1 mid ->
  ZenChain.mine_pending_transactions fuel' now_block' now_reward' R' mid
    = ZenChain.Returns self2 ->
  exists (later : list Transaction.t) (balance : Z),
    ZenChain.pending_transactions mid
    = Transaction.init None R (ZenChain.mining_reward self) Json.Null now_reward
      :: later /\
    Accounts.get_balance address (Accounts.of_ledger self1) = Some (Python.Int balance) /\
    Accounts.get_balance address (Accounts.of_ledger mid) = Some (Python.Int balance) /\
    Accounts.get_balance address (Accounts.of_ledger self2)
    = Some (Python.Int
              (balance
               + (if bool_decide (address = R) then ZenChain.mining_reward self else 0)
               + ZenChain.sum_contributions address later)).
Proof.
  intros Hrun Hsubmitted Hrun'.
  destruct (submissions_frame _ _ Hsubmitted) as (Hchain & _ & _ & later & Hlater).
  rewrite (pending_after_mining _ _ _ _ _ _ Hrun) in Hlater. cbn [app] in Hlater.
  exists later, (ZenChain.balance_sum address self1).
  split; [exact Hlater|]. split; [apply get_balance_sum|].
  assert (Hmid : ZenChain.balance_sum address mid = ZenChain.balance_sum address self1).
  { unfold ZenChain.balance_sum, ZenChain.committed_transactions.
    rewrite Hchain. reflexivity. }
  split; [rewrite get_balance_sum, Hmid; reflexivity|].
  rewrite get_balance_sum, (balance_sum_mined _ _ _ _ _ _ address Hrun'), Hmid, Hlater.
  unfold ZenChain.sum_contributions at 1. cbn [foldr].
  rewrite contribution_reward. do 2 f_equal.
  unfold ZenChain.sum_contributions. lia.
Qed.

Lemma reward_credited_by_next_mining_witness :
  Accounts.get_balance Demo.miner (Accounts.of_ledger Demo.ledger2)
  = Some (Python.Int 0) /\
  Accounts.get_balance Demo.miner (Accounts.of_ledger More.refunding)
  = Some (Python.Int 0) /\
  Accounts.get_balance Demo.miner (Accounts.of_ledger More.refunded)
  = Some (Python.Int 100) /\
  Accounts.get_balance Demo.bob (Accounts.of_ledger Demo.ledger2)
  = Some (Python.Int 10) /\
  Accounts.get_balance Demo.bob (Accounts.of_ledger More.refunded)
  = Some (Python.Int 6).
Proof.
  pose proof first_mining as Hrun.
  pose proof refund_mining as Hrun'.
  assert (Hsubmitted : rtc Ledger.submission Demo.ledger2 More.refunding).
  { apply rtc_once.
    exact (Ledger.submission_create_transaction Demo.ledger2 More.refund). }
  destruct (reward_credited_by_next_mining _ _ _ _ _ _ _ _ _ _ _ _ Demo.miner
              Hrun Hsubmitted Hrun') as (later & balance & Hlater & Hold & Hmid & Hnew).
  destruct (reward_credited_by_next_mining _ _ _ _ _ _ _ _ _ _ _ _ Demo.bob
              Hrun Hsubmitted Hrun') as (later' & balance' & Hlater' & Hold' & _ & Hnew').
  apply (f_equal (@tail _)) in Hlater, Hlater'. cbn [tail] in Hlater, Hlater'.
  change (tail (ZenChain.pending_transactions More.refunding)) with [More.refund]
    in Hlater, Hlater'.
  subst later later'.
  assert (Hzero : Accounts.get_balance Demo.miner (Accounts.of_ledger Demo.ledger2)
                  = Some (Python.Int 0)) by reflexivity.
  assert (Hten : Accounts.get_balance Demo.bob (Accounts.of_ledger Demo.ledger2)
                 = Some (Python.Int 10)) by reflexivity.
  rewrite Hzero in Hold. injection Hold as <-.
  rewrite Hten in Hold'. injection Hold' as <-.
  split; [exact Hzero|]. split; [exact Hmid|].
  split; [rewrite Hnew; vm_compute; reflexivity|].
  split; [exact Hten|]. rewrite Hnew'. vm_compute. reflexivity.
Defined.

Section Supply.

Lemma sum_over_inflow (addresses : list string) (S : gset string) (trans : Transaction.t) :
  addresses ≡ₚ elements S ->
  ZenChain.sum_over addresses (fun a => ZenChain.contribution a trans)
  = Ledger.inflow S trans.
Proof.
  intros Haddresses.
  assert (Hnodup : NoDup addresses) by (rewrite Haddresses; apply NoDup_elements).
  unfold ZenChain.contribution. rewrite sum_over_sub. unfold ZenChain.sum_over.
  rewrite (sum_indicator _ (Transaction.recipient trans) _ Hnodup).
  rewrite (sum_indicator_sender _ (Transaction.sender trans) _ Hnodup).
  unfold Ledger.inflow.
  assert (Hin : forall a, bool_decide (a ∈ addresses) = bool_decide (a ∈ S)).
  { intros a. apply bool_decide_ext. rewrite Haddresses. apply elem_of_elements. }
  rewrite Hin. destruct (Transaction.sender trans) as [a|]; [rewrite Hin|];
    reflexivity.
Qed.

End Supply.

(** X5: on a ledger whose amounts are [int]s, the balances of the addresses
    of a finite set [S], added up in any order, come to what the committed
    transactions bring into [S] less what they take out of it: transfers
    inside [S] cancel, and a transaction without sender (a reward, an NFT
    notice) counts as pure inflow. *)
Theorem total_balance_is_inflow
    (S : gset string) (self : ZenChain.t) (addresses : list string) :
  addresses ≡ₚ elements S ->
  Accounts.total_balance addresses (Accounts.of_ledger self)
  = Some (Python.Int (Ledger.total_inflow S (ZenChain.committed_transactions self))).
Proof.
  intros Haddresses. rewrite total_balance_sum. do 2 f_equal.
  unfold Ledger.total_inflow.
  induction (ZenChain.committed_transactions self) as [|trans txs IH];
    cbn [foldr]; [reflexivity|].
  rewrite IH, (sum_over_inflow addresses S trans Haddresses). reflexivity.
Qed.

Lemma total_balance_is_inflow_witness :
  Accounts.total_balance [Demo.miner; Demo.bob] (Accounts.of_ledger More.refunded)
  = Some (Python.Int 106) /\
  Accounts.total_balance [Demo.bob; Demo.miner] (Accounts.of_ledger More.refunded)
  = Some (Python.Int 106).
Proof.
  assert (Hne : Demo.miner <> Demo.bob) by discriminate.
  split.
  - rewrite (total_balance_is_inflow {[Demo.miner; Demo.bob]} More.refunded _
               (proj1 (two_listed Demo.miner Demo.bob Hne))).
    vm_compute. reflexivity.
  - rewrite (total_balance_is_inflow {[Demo.miner; Demo.bob]} More.refunded _
               (proj2 (two_listed Demo.miner Demo.bob Hne))).
    vm_compute. reflexivity.
Defined.

(* ===================================================================== *)
(** ** Further properties: what every reachable ledger looks like *)
(* ===================================================================== *)

Section Shape.

Implicit Types (self : ZenChain.t).

Lemma fields_create_nft now_created now_tx owner_address nft_id nft_name
    nft_description self :
  let self' := snd (ZenChain.create_nft now_created now_tx owner_address nft_id
                      nft_name nft_description self) in
  ZenChain.difficulty self' = ZenChain.difficulty self /\
  ZenChain.mining_reward self' = ZenChain.mining_reward self.
Proof.
  unfold ZenChain.create_nft.
  destruct (ZenChain.nft_collections self !! nft_id); split; reflexivity.
Qed.

Lemma fields_transfer_nft now_tx sender recipient nft_id self :
  let self' := snd (ZenChain.transfer_nft now_tx sender recipient nft_id self) in
  ZenChain.difficulty self' = ZenChain.difficulty self /\
  ZenChain.mining_reward self' = ZenChain.mining_reward self.
Proof.
  unfold ZenChain.transfer_nft.
  destruct (ZenChain.nft_collections self !! nft_id) as [entry|];
    [destruct (negb _)|]; split; reflexivity.
Qed.

Lemma shaped_same_chain self self' :
  ZenChain.chain self' = ZenChain.chain self ->
  ZenChain.difficulty self' = ZenChain.difficulty self ->
  ZenChain.mining_reward self' = ZenChain.mining_reward self ->
  Ledger.shaped self -> Ledger.shaped self'.
Proof.
  unfold Ledger.shaped. intros -> -> ->. auto.
Qed.

Lemma step_keeps_shaped self self' :
  ZenChain.step self self' -> Ledger.shaped self -> Ledger.shaped self'.
Proof.
  intros Hstep Hshaped. destruct Hstep as
    [ self transaction
    | self fuel now_block now_reward address self' Hrun
    | self now_created now_tx owner_address nft_id nft_name nft_description
    | self now_tx sender recipient nft_id ].
  - eapply shaped_same_chain; [| | |exact Hshaped]; reflexivity.
  - destruct Hshaped as (Hdiff & Hreward & [now Hgenesis] & Hindex & Hsolved).
    apply mine_pending_transactions_inv in Hrun
      as (latest & block & Hlatest & Hblock & ->).
    destruct (mine_block_frame _ _ _ _ Hblock) as (Hidx & _).
    pose proof (mine_block_solved _ _ _ _ Hblock) as Hzeros.
    apply unsolved_false in Hzeros. rewrite Hdiff in Hzeros.
    assert (Hlen : forall i b, ZenChain.chain self !! i = Some b ->
                               (i < length (ZenChain.chain self))%nat)
      by (intros i b Hb; eapply lookup_lt_Some; exact Hb).
    split; [exact Hdiff|]. split; [exact Hreward|].
    cbn [ZenChain.chain]. split; [|split].
    + exists now. rewrite lookup_app_l by (eapply Hlen; exact Hgenesis).
      exact Hgenesis.
    + intros i b Hb. apply lookup_app_Some in Hb as [Hb|[Hge Hb]]; [eauto|].
      apply list_lookup_singleton_Some in Hb as [Hi <-].
      rewrite Hidx. unfold ZenChain.candidate_block.
      cbn [Block.init Block.index]. lia.
    + intros i b Hi Hb. apply lookup_app_Some in Hb as [Hb|[Hge Hb]]; [eauto|].
      apply list_lookup_singleton_Some in Hb as [_ <-]. exact Hzeros.
  - eapply shaped_same_chain; [apply chain_create_nft | | | exact Hshaped];
      apply fields_create_nft.
  - eapply shaped_same_chain; [apply chain_transfer_nft | | | exact Hshaped];
      apply fields_transfer_nft.
Qed.

Lemma reachable_shaped self : ZenChain.reachable self -> Ledger.shaped self.
Proof.
  induction 1 as [now|self self' _ IH Hstep].
  - split; [reflexivity|]. split; [reflexivity|]. split; [exists now; reflexivity|].
    split.
    + intros [|i] block Hblock; [|destruct i; discriminate].
      injection Hblock as <-. reflexivity.
    + intros [|i] block Hi Hblock; [lia|destruct i; discriminate].
  - eapply step_keeps_shaped; eauto.
Qed.

(** The chain only grows, and by appending. *)
Lemma step_chain_prefix self self' :
  ZenChain.step self self' ->
  ZenChain.chain self `prefix_of` ZenChain.chain self'.
Proof.
  intros Hstep. destruct Hstep as
    [ self transaction
    | self fuel now_block now_reward address self' Hrun
    | self now_created now_tx owner_address nft_id nft_name nft_description
    | self now_tx sender recipient nft_id ].
  - reflexivity.
  - apply mine_pending_transactions_inv in Hrun as (latest & block & _ & _ & ->).
    cbn [ZenChain.chain]. apply prefix_app_r. reflexivity.
  - rewrite chain_create_nft. reflexivity.
  - rewrite chain_transfer_nft. reflexivity.
Qed.

Lemma steps_chain_prefix self self' :
  rtc ZenChain.step self self' ->
  ZenChain.chain self `prefix_of` ZenChain.chain self'.
Proof.
  induction 1 as [self|self self1 self2 Hstep _ IH]; [reflexivity|].
  etransitivity; [apply step_chain_prefix; exact Hstep | exact IH].
Qed.

End Shape.

(** X6: in every state reached from a fresh ledger by the public
    operations, the difficulty is 2 and the mining reward 100, block 0 is a
    genesis block as [create_genesis_block] builds it (index 0, no
    transaction, previous hash ["0"], nonce 0), and the block at position
    [i] has index [i]. *)
Theorem reachable_settings_and_indices (self : ZenChain.t) :
  ZenChain.reachable self ->
  ZenChain.difficulty self = 2%nat /\
  ZenChain.mining_reward self = 100 /\
  (exists genesis,
     ZenChain.chain self !! 0%nat = Some genesis /\
     Block.index genesis = 0 /\ Block.transactions genesis = [] /\
     Block.previous_hash genesis = "0" /\ Block.nonce genesis = 0 /\
     Block.hash genesis = Block.calculate_hash genesis) /\
  forall i block, ZenChain.chain self !! i = Some block ->
                  Block.index block = Z.of_nat i.
Proof.
  intros Hreach.
  destruct (reachable_shaped self Hreach)
    as (Hdiff & Hreward & [now Hgenesis] & Hindex & _).
  split; [exact Hdiff|]. split; [exact Hreward|]. split; [|exact Hindex].
  exists (ZenChain.create_genesis_block now).
  split; [exact Hgenesis|]. repeat split.
Qed.

Lemma reachable_settings_and_indices_witness :
  length (ZenChain.chain Demo.ledger3) = 3%nat /\
  ZenChain.difficulty Demo.ledger3 = 2%nat /\
  forall i block, ZenChain.chain Demo.ledger3 !! i = Some block ->
                  Block.index block = Z.of_nat i.
Proof.
  split; [reflexivity|].
  destruct (reachable_settings_and_indices Demo.ledger3 demo_reachable)
    as (Hdiff & _ & _ & Hindex).
  split; [exact Hdiff | exact Hindex].
Defined.

(** X7: in every such state every block after the genesis block carries a
    hash whose first two characters are ['0']: each was mined at
    difficulty 2.  (The genesis block is never mined.) *)
Theorem reachable_blocks_are_mined (self : ZenChain.t) :
  ZenChain.reachable self ->
  forall i block, (1 <= i)%nat -> ZenChain.chain self !! i = Some block ->
    substring 0 2 (Block.hash block) = "00" /\
    Block.hash block = Block.calculate_hash block.
Proof.
  intros Hreach i block Hi Hblock.
  destruct (reachable_shaped self Hreach) as (_ & _ & _ & _ & Hsolved).
  split; [eapply Hsolved; eauto|].
  assert (Hinv : ZenChain.chain self <> [] /\ ZenChain.is_chain_valid self = true).
  { clear i block Hi Hblock Hsolved.
    induction Hreach as [now|self self' _ IH Hstep].
    - split; [discriminate | apply is_chain_valid_init].
    - eapply step_keeps_valid; eauto. }
  destruct Hinv as [_ Hvalid]. rewrite is_chain_valid_true in Hvalid.
  assert (Hrange : (1 <= i < length (ZenChain.chain self))%nat)
    by (split; [exact Hi | eapply lookup_lt_Some; exact Hblock]).
  destruct (proj1 (block_passes_iff _ _) (Hvalid i Hrange))
    as (current & previous & Hcur & _ & Hhash & _).
  rewrite Hblock in Hcur. injection Hcur as <-. exact Hhash.
Qed.

Lemma reachable_blocks_are_mined_witness :
  exists block,
    ZenChain.chain Demo.ledger3 !! 2%nat = Some block /\
    substring 0 2 (Block.hash block) = "00" /\
    substring 0 2 (Block.hash Demo.genesis) = "be".
Proof.
  eexists. split; [reflexivity|]. split; [|reflexivity].
  eapply (reachable_blocks_are_mined Demo.ledger3 demo_reachable 2); [lia|reflexivity].
Defined.

(** X8: the chain is append-only: after any number of public operations
    the earlier chain is a prefix of the later one, so a committed block
    keeps its position and its content, and the committed transactions and
    every history only grow at the end. *)
Theorem chain_is_append_only (self self' : ZenChain.t) :
  rtc ZenChain.step self self' ->
  ZenChain.chain self `prefix_of` ZenChain.chain self' /\
  (forall i block, ZenChain.chain self !! i = Some block ->
                   ZenChain.chain self' !! i = Some block) /\
  ZenChain.committed_transactions self
    `prefix_of` ZenChain.committed_transactions self' /\
  forall address,
    ZenChain.get_transaction_history address self
      `prefix_of` ZenChain.get_transaction_history address self'.
Proof.
  intros Hsteps. destruct (steps_chain_prefix _ _ Hsteps) as [added Hadded].
  split; [exists added; exact Hadded|]. split; [|split].
  - intros i block Hblock. rewrite Hadded. apply lookup_app_l_Some. exact Hblock.
  - unfold ZenChain.committed_transactions. rewrite Hadded.
    rewrite List.map_app, List.concat_app. apply prefix_app_r. reflexivity.
  - intros address. rewrite !get_transaction_history_filter.
    unfold ZenChain.committed_transactions. rewrite Hadded.
    rewrite List.map_app, List.concat_app, List.filter_app, List.map_app.
    apply prefix_app_r. reflexivity.
Qed.

Lemma chain_is_append_only_witness :
  ZenChain.chain Demo.ledger0 `prefix_of` ZenChain.chain Demo.ledger3.
Proof.
  refine (proj1 (chain_is_append_only Demo.ledger0 Demo.ledger3 _)).
  eapply rtc_l; [apply (ZenChain.step_create_transaction _ Demo.payment)|].
  eapply rtc_l.
  { apply (ZenChain.step_mine_pending_transactions
             Demo.ledger1 1 1700000020 1700000021 Demo.miner Demo.ledger2).
    exact first_mining. }
  apply rtc_once.
  apply (ZenChain.step_mine_pending_transactions
           Demo.ledger2 2 1700000023 1700000024 Demo.miner Demo.ledger3).
  exact second_mining.
Defined.

(* ===================================================================== *)
(** ** Further properties: the NFT registry over time *)
(* ===================================================================== *)

Section Registry.

Implicit Types (self : ZenChain.t) (entry : ZenChain.nft).

Lemma create_nft_keeps_entries now_created now_tx owner_address nft_id nft_name
    nft_description self id entry :
  ZenChain.nft_collections self !! id = Some entry ->
  ZenChain.nft_collections
    (snd (ZenChain.create_nft now_created now_tx owner_address nft_id nft_name
            nft_description self)) !! id = Some entry.
Proof.
  intros Hentry. unfold ZenChain.create_nft.
  destruct (ZenChain.nft_collections self !! nft_id) as [taken|] eqn:Hid;
    [exact Hentry|].
  cbn [snd ZenChain.create_transaction ZenChain.nft_collections].
  rewrite lookup_insert_ne by congruence. exact Hentry.
Qed.

Lemma transfer_nft_keeps_entries now_tx sender recipient nft_id self id entry :
  ZenChain.nft_collections self !! id = Some entry ->
  id <> nft_id \/ ZenChain.owner entry <> sender ->
  ZenChain.nft_collections
    (snd (ZenChain.transfer_nft now_tx sender recipient nft_id self)) !! id
  = Some entry.
Proof.
  intros Hentry Hother. unfold ZenChain.transfer_nft.
  destruct (ZenChain.nft_collections self !! nft_id) as [held|] eqn:Hid;
    [|exact Hentry].
  destruct (String.eqb_spec (ZenChain.owner held) sender) as [Howner|Howner];
    cbn [negb]; [|exact Hentry].
  cbn [snd ZenChain.create_transaction ZenChain.nft_collections].
  destruct (decide (id = nft_id)) as [->|Hne].
  - rewrite Hentry in Hid. injection Hid as <-. destruct Hother; contradiction.
  - rewrite lookup_insert_ne by congruence. exact Hentry.
Qed.

Lemma transfer_nft_same_asset now_tx sender recipient nft_id self id entry :
  ZenChain.nft_collections self !! id = Some entry ->
  exists entry',
    ZenChain.nft_collections
      (snd (ZenChain.transfer_nft now_tx sender recipient nft_id self)) !! id
    = Some entry' /\ Ledger.same_asset entry entry'.
Proof.
  intros Hentry.
  destruct (decide (id = nft_id /\ ZenChain.owner entry = sender)) as [[-> Howner]|Hno].
  - unfold ZenChain.transfer_nft. rewrite Hentry.
    apply String.eqb_eq in Howner. rewrite Howner.
    cbn [negb snd ZenChain.create_transaction ZenChain.nft_collections].
    rewrite lookup_insert_eq. eexists. split; [reflexivity|]. repeat split.
  - exists entry. split; [|repeat split].
    apply transfer_nft_keeps_entries; [exact Hentry|].
    destruct (decide (id = nft_id)); [|auto].
    destruct (decide (ZenChain.owner entry = sender)); [|auto]. tauto.
Qed.

Lemma step_same_asset self self' id entry :
  ZenChain.step self self' ->
  ZenChain.nft_collections self !! id = Some entry ->
  exists entry',
    ZenChain.nft_collections self' !! id = Some entry' /\ Ledger.same_asset entry entry'.
Proof.
  intros Hstep Hentry. destruct Hstep as
    [ self transaction
    | self fuel now_block now_reward address self' Hrun
    | self now_created now_tx owner_address nft_id nft_name nft_description
    | self now_tx sender recipient nft_id ].
  - exists entry. split; [exact Hentry|repeat split].
  - apply mine_pending_transactions_inv in Hrun as (latest & block & _ & _ & ->).
    exists entry. split; [exact Hentry|repeat split].
  - exists entry. split; [apply create_nft_keeps_entries, Hentry|repeat split].
  - apply transfer_nft_same_asset, Hentry.
Qed.

End Registry.

(** X9: an NFT, once in the registry, stays there under any sequence of
    public operations, with the name, the description and the creation
    time it was created with; its owner is all that can change. *)
Theorem nft_is_permanent (self self' : ZenChain.t) (id : string) (entry : ZenChain.nft) :
  rtc ZenChain.step self self' ->
  ZenChain.nft_collections self !! id = Some entry ->
  exists entry',
    ZenChain.nft_collections self' !! id = Some entry' /\
    ZenChain.name entry' = ZenChain.name entry /\
    ZenChain.description entry' = ZenChain.description entry /\
    ZenChain.created_at entry' = ZenChain.created_at entry.
Proof.
  intros Hsteps. revert entry.
  induction Hsteps as [self|self self1 self2 Hstep _ IH]; intros entry Hentry.
  - exists entry. auto.
  - destruct (step_same_asset _ _ _ _ Hstep Hentry) as (entry1 & Hentry1 & H1 & H2 & H3).
    destruct (IH _ Hentry1) as (entry2 & Hentry2 & ? & ? & ?).
    exists entry2. split; [exact Hentry2|]. repeat split; congruence.
Qed.

Lemma nft_is_permanent_witness :
  exists entry,
    ZenChain.nft_collections Demo.gallery2 !! "X" = Some entry /\
    ZenChain.name entry = "Sunrise" /\
    ZenChain.description entry = "first light" /\
    ZenChain.created_at entry = 1700000040.
Proof.
  refine (nft_is_permanent Demo.gallery1 Demo.gallery2 "X"
            (ZenChain.mk_nft Demo.alice "Sunrise" "first light" 1700000040) _ _).
  - apply rtc_once.
    apply (ZenChain.step_transfer_nft Demo.gallery1 1700000050 Demo.alice Demo.bob "X").
  - reflexivity.
Defined.

(** X10: who may change an owner.  [create_transaction] and
    [mine_pending_transactions] leave the registry as it is; [create_nft]
    leaves every entry there is as it is; [transfer_nft(sender, recipient,
    id)] leaves every entry other than [id] as it is, and the entry [id]
    too unless [sender] is its owner. *)
Theorem nft_owner_frame (self : ZenChain.t) :
  (forall transaction,
     ZenChain.nft_collections (ZenChain.create_transaction transaction self)
     = ZenChain.nft_collections self) /\
  (forall fuel now_block now_reward R self',
     ZenChain.mine_pending_transactions fuel now_block now_reward R self
       = ZenChain.Returns self' ->
     ZenChain.nft_collections self' = ZenChain.nft_collections self) /\
  (forall now_created now_tx owner nft_id nft_name nft_description id entry,
     ZenChain.nft_collections self !! id = Some entry ->
     ZenChain.nft_collections
       (snd (ZenChain.create_nft now_created now_tx owner nft_id nft_name
               nft_description self)) !! id = Some entry) /\
  (forall now_tx sender recipient nft_id id entry,
     ZenChain.nft_collections self !! id = Some entry ->
     id <> nft_id \/ ZenChain.owner entry <> sender ->
     ZenChain.nft_collections
       (snd (ZenChain.transfer_nft now_tx sender recipient nft_id self)) !! id
     = Some entry).
Proof.
  split; [reflexivity|]. split; [|split].
  - intros fuel now_block now_reward R self' Hrun.
    apply mine_pending_transactions_inv in Hrun as (latest & block & _ & _ & ->).
    reflexivity.
  - intros. apply create_nft_keeps_entries. assumption.
  - intros. apply transfer_nft_keeps_entries; assumption.
Qed.

Lemma nft_owner_frame_witness :
  exists entry,
    ZenChain.nft_collections
      (snd (ZenChain.transfer_nft 1700000070 Demo.alice Demo.miner "X" Demo.gallery2))
      !! "X" = Some entry /\
    ZenChain.owner entry = Demo.bob.
Proof.
  exists (ZenChain.mk_nft Demo.bob "Sunrise" "first light" 1700000040).
  split; [|reflexivity].
  apply (proj2 (proj2 (proj2 (nft_owner_frame Demo.gallery2)))).
  - reflexivity.
  - right. discriminate.
Defined.

(** X11: the life of an NFT.  After [create_nft(owner, id, ...)] on a free
    [id], a second [create_nft] on [id] fails whoever asks, and so does a
    transfer asked by anyone but the owner; the owner can transfer it, to
    anyone, the owner included, which makes the recipient the owner of the
    same NFT; after that the recipient can transfer it, [create_nft] on
    [id] still fails, and the former owner, if not the recipient, can
    transfer it no more. *)
Theorem nft_lifecycle
    (self : ZenChain.t) (t1 t2 t3 t4 t5 t6 t7 t8 : Z)
    (owner recipient id name description : string) :
  ZenChain.nft_collections self !! id = None ->
  let created := snd (ZenChain.create_nft t1 t2 owner id name description self) in
  let moved := snd (ZenChain.transfer_nft t5 owner recipient id created) in
  (forall other name' description',
     ZenChain.create_nft t3 t4 other id name' description' created = (false, created)) /\
  (forall other, other <> owner -> forall target,
     ZenChain.transfer_nft t5 other target id created = (false, created)) /\
  fst (ZenChain.transfer_nft t5 owner recipient id created) = true /\
  ZenChain.nft_collections moved !! id
    = Some (ZenChain.mk_nft recipient name description t1) /\
  (owner <> recipient ->
   forall target, ZenChain.transfer_nft t6 owner target id moved = (false, moved)) /\
  (forall target,
     fst (ZenChain.transfer_nft t7 recipient target id moved) = true /\
     ZenChain.nft_collections (snd (ZenChain.transfer_nft t7 recipient target id moved))
       !! id
     = Some (ZenChain.mk_nft target name description t1)) /\
  (forall other name' description',
     ZenChain.create_nft t7 t8 other id name' description' moved = (false, moved)).
Proof.
  intros Hfree. cbv zeta.
  assert (Hcreated :
    ZenChain.nft_collections
      (snd (ZenChain.create_nft t1 t2 owner id name description self)) !! id
    = Some (ZenChain.mk_nft owner name description t1)).
  { unfold ZenChain.create_nft. rewrite Hfree.
    cbn [snd ZenChain.create_transaction ZenChain.nft_collections].
    apply lookup_insert_eq. }
  set (created := snd (ZenChain.create_nft t1 t2 owner id name description self)) in *.
  assert (Hmoved :
    ZenChain.nft_collections (snd (ZenChain.transfer_nft t5 owner recipient id created))
      !! id = Some (ZenChain.mk_nft recipient name description t1)).
  { unfold ZenChain.transfer_nft. rewrite Hcreated.
    cbn [ZenChain.owner]. rewrite String.eqb_refl.
    cbn [negb snd ZenChain.create_transaction ZenChain.nft_collections
         ZenChain.name ZenChain.description ZenChain.created_at].
    apply lookup_insert_eq. }
  split; [|split; [|split; [|split; [|split; [|split]]]]].
  - intros other name' description'. unfold ZenChain.create_nft.
    rewrite Hcreated. reflexivity.
  - intros other Hother target. unfold ZenChain.transfer_nft. rewrite Hcreated.
    cbn [ZenChain.owner].
    rewrite (proj2 (String.eqb_neq owner other)) by congruence. reflexivity.
  - unfold ZenChain.transfer_nft. rewrite Hcreated.
    cbn [ZenChain.owner]. rewrite String.eqb_refl. reflexivity.
  - exact Hmoved.
  - intros Hne target. unfold ZenChain.transfer_nft at 1. rewrite Hmoved.
    cbn [ZenChain.owner].
    rewrite (proj2 (String.eqb_neq recipient owner)) by congruence. reflexivity.
  - intros target. unfold ZenChain.transfer_nft at 1 3. rewrite Hmoved.
    cbn [ZenChain.owner]. rewrite String.eqb_refl.
    cbn [negb fst snd ZenChain.create_transaction ZenChain.nft_collections
         ZenChain.name ZenChain.description ZenChain.created_at].
    split; [reflexivity | apply lookup_insert_eq].
  - intros other name' description'. unfold ZenChain.create_nft at 1.
    rewrite Hmoved. reflexivity.
Qed.

Lemma nft_lifecycle_witness :
  ZenChain.create_nft 1700000042 1700000043 Demo.bob "X" "Copy" "again" Demo.gallery1
  = (false, Demo.gallery1) /\
  ZenChain.transfer_nft 1700000060 Demo.alice Demo.miner "X" Demo.gallery2
  = (false, Demo.gallery2) /\
  fst (ZenChain.transfer_nft 1700000050 Demo.alice Demo.alice "X" Demo.gallery1) = true.
Proof.
  pose proof (nft_lifecycle Demo.ledger0 1700000040 1700000041 1700000042 1700000043
                1700000050 1700000060 1700000070 1700000071
                Demo.alice Demo.bob "X" "Sunrise" "first light"
                ltac:(reflexivity)) as H.
  pose proof (nft_lifecycle Demo.ledger0 1700000040 1700000041 1700000042 1700000043
                1700000050 1700000060 1700000070 1700000071
                Demo.alice Demo.alice "X" "Sunrise" "first light"
                ltac:(reflexivity)) as Hself.
  cbv zeta in H, Hself.
  assert (Hcreated :
    snd (ZenChain.create_nft 1700000040 1700000041 Demo.alice "X" "Sunrise"
           "first light" Demo.ledger0) = Demo.gallery1) by (vm_compute; reflexivity).
  rewrite Hcreated in H, Hself.
  assert (Hmoved :
    snd (ZenChain.transfer_nft 1700000050 Demo.alice Demo.bob "X" Demo.gallery1)
    = Demo.gallery2) by (vm_compute; reflexivity).
  rewrite Hmoved in H.
  destruct H as (Hagain & _ & _ & _ & Hstale & _).
  destruct Hself as (_ & _ & Hkept & _).
  split; [apply Hagain|]. split; [apply Hstale; discriminate | exact Hkept].
Defined.



(* ===================================================================== *)
(** ** Further properties: what the validity scan sees and does not see *)
(* ===================================================================== *)

Section Scan.

Implicit Types (self : ZenChain.t) (block : Block.t).

Lemma valid_block self i block :
  ZenChain.is_chain_valid self = true -> (1 <= i)%nat ->
  ZenChain.chain self !! i = Some block ->
  Block.hash block = Block.calculate_hash block /\
  exists previous,
    ZenChain.chain self !! (i - 1)%nat = Some previous /\
    Block.previous_hash block = Block.hash previous.
Proof.
  intros Hvalid Hi Hblock. rewrite is_chain_valid_true in Hvalid.
  assert (Hrange : (1 <= i < length (ZenChain.chain self))%nat)
    by (split; [exact Hi | eapply lookup_lt_Some; exact Hblock]).
  destruct (proj1 (block_passes_iff _ _) (Hvalid i Hrange))
    as (current & previous & Hcur & Hprev & Hhash & Hlink).
  rewrite Hblock in Hcur. injection Hcur as <-. eauto.
Qed.

(** A chain with a block that fails the loop body is not valid. *)
Lemma failing_block_invalid self i :
  (1 <= i < length (ZenChain.chain self))%nat ->
  ZenChain.block_passes (ZenChain.chain self) i = false ->
  ZenChain.is_chain_valid self = false.
Proof.
  intros Hi Hfail. apply not_true_iff_false. intros Hvalid.
  rewrite is_chain_valid_true in Hvalid. rewrite (Hvalid i Hi) in Hfail.
  discriminate.
Qed.

Lemma is_chain_valid_short self :
  (length (ZenChain.chain self) <= 1)%nat -> ZenChain.is_chain_valid self = true.
Proof.
  intros Hlen. apply is_chain_valid_true. intros i Hi. lia.
Qed.

End Scan.

(** X13: overwriting the previous hash of a block after the genesis block
    with any other value is always caught: on a chain on which
    [is_chain_valid()] was true it becomes false, whatever the digests. *)
Theorem previous_hash_tamper_detected
    (self : ZenChain.t) (i : nat) (block : Block.t) (h : string) :
  ZenChain.is_chain_valid self = true ->
  (1 <= i)%nat ->
  ZenChain.chain self !! i = Some block ->
  h <> Block.previous_hash block ->
  ZenChain.is_chain_valid
    (ZenChain.with_chain
       (<[i := Ledger.set_previous_hash h block]> (ZenChain.chain self)) self)
  = false.
Proof.
  intros Hvalid Hi Hblock Hh.
  assert (Hlen : (i < length (ZenChain.chain self))%nat)
    by (eapply lookup_lt_Some; exact Hblock).
  destruct (valid_block self i block Hvalid Hi Hblock)
    as (_ & previous & Hprev & Hlink).
  apply (failing_block_invalid _ i); rewrite chain_with_chain.
  - rewrite length_insert. lia.
  - apply not_true_iff_false. intros Hpass.
    apply block_passes_iff in Hpass
      as (current & previous' & Hcur & Hprev' & _ & Hlink').
    rewrite list_lookup_insert_eq in Hcur by exact Hlen. injection Hcur as <-.
    rewrite list_lookup_insert_ne in Hprev' by lia.
    rewrite Hprev in Hprev'. injection Hprev' as <-.
    cbn [Ledger.set_previous_hash Block.previous_hash] in Hlink'. congruence.
Qed.

Lemma previous_hash_tamper_detected_witness :
  exists block,
    ZenChain.chain Demo.ledger3 !! 2%nat = Some block /\
    ZenChain.is_chain_valid
      (ZenChain.with_chain
         (<[2%nat := Ledger.set_previous_hash (Block.hash Demo.genesis) block]>
            (ZenChain.chain Demo.ledger3)) Demo.ledger3)
    = false.
Proof.
  eexists. split; [reflexivity|].
  apply (previous_hash_tamper_detected Demo.ledger3 2).
  - vm_compute. reflexivity.
  - lia.
  - reflexivity.
  - vm_compute. discriminate.
Defined.

(** X14: overwriting the stored hash of any block, the genesis block
    included, with any other value is always caught as soon as the chain
    has two blocks; on a chain of one block [is_chain_valid()] is true
    whatever that block holds. *)
Theorem hash_tamper_detected
    (self : ZenChain.t) (i : nat) (block : Block.t) (h : string) :
  ZenChain.is_chain_valid self = true ->
  ZenChain.chain self !! i = Some block ->
  h <> Block.hash block ->
  ((2 <= length (ZenChain.chain self))%nat ->
   ZenChain.is_chain_valid
     (ZenChain.with_chain (<[i := Ledger.set_hash h block]> (ZenChain.chain self)) self)
   = false) /\
  ((length (ZenChain.chain self) <= 1)%nat ->
   ZenChain.is_chain_valid
     (ZenChain.with_chain (<[i := Ledger.set_hash h block]> (ZenChain.chain self)) self)
   = true).
Proof.
  intros Hvalid Hblock Hh.
  assert (Hlen : (i < length (ZenChain.chain self))%nat)
    by (eapply lookup_lt_Some; exact Hblock).
  split.
  - intros Htwo. destruct (decide (1 <= i)%nat) as [Hi|Hi].
    + destruct (valid_block self i block Hvalid Hi Hblock) as (Hhash & _).
      apply (failing_block_invalid _ i); rewrite chain_with_chain.
      * rewrite length_insert. lia.
      * apply not_true_iff_false. intros Hpass.
        apply block_passes_iff in Hpass as (current & ? & Hcur & _ & Hhash' & _).
        rewrite list_lookup_insert_eq in Hcur by exact Hlen. injection Hcur as <-.
        change (Block.calculate_hash (Ledger.set_hash h block))
          with (Block.calculate_hash block) in Hhash'.
        cbn [Ledger.set_hash Block.hash] in Hhash'. congruence.
    + assert (i = 0%nat) as -> by lia.
      destruct (lookup_lt_is_Some_2 (ZenChain.chain self) 1 ltac:(lia))
        as [next Hnext].
      destruct (valid_block self 1 next Hvalid ltac:(lia) Hnext)
        as (_ & previous & Hprev & Hlink).
      cbn [Nat.sub] in Hprev. rewrite Hblock in Hprev. injection Hprev as <-.
      apply (failing_block_invalid _ 1); rewrite chain_with_chain.
      * rewrite length_insert. lia.
      * apply not_true_iff_false. intros Hpass.
        apply block_passes_iff in Hpass
          as (current & previous & Hcur & Hprev & _ & Hlink').
        rewrite list_lookup_insert_ne in Hcur by lia.
        rewrite Hnext in Hcur. injection Hcur as <-.
        cbn [Nat.sub] in Hprev.
        rewrite list_lookup_insert_eq in Hprev by exact Hlen.
        injection Hprev as <-.
        cbn [Ledger.set_hash Block.hash] in Hlink'. congruence.
  - intros Hone. apply is_chain_valid_short.
    rewrite chain_with_chain, length_insert. exact Hone.
Qed.

Lemma hash_tamper_detected_witness :
  ZenChain.is_chain_valid
    (ZenChain.with_chain
       (<[0%nat := Ledger.set_hash "00" Demo.genesis]> (ZenChain.chain Demo.ledger3))
       Demo.ledger3) = false /\
  ZenChain.is_chain_valid
    (ZenChain.with_chain
       (<[0%nat := Ledger.set_hash "00" Demo.genesis]> (ZenChain.chain Demo.ledger0))
       Demo.ledger0) = true.
Proof.
  split.
  - apply (proj1 (hash_tamper_detected Demo.ledger3 0 Demo.genesis "00"
                    ltac:(vm_compute; reflexivity) ltac:(reflexivity)
                    ltac:(discriminate))).
    cbn. lia.
  - apply (proj2 (hash_tamper_detected Demo.ledger0 0 Demo.genesis "00"
                    ltac:(vm_compute; reflexivity) ltac:(reflexivity)
                    ltac:(discriminate))).
    cbn. lia.
Defined.

(** X15: [is_chain_valid] checks hashes and links only, not the proof of
    work, the index, the timestamp or the transactions: any block the
    constructor builds on top of the head's stored hash, mined or not, with
    any index, keeps a valid chain valid. *)
Theorem is_chain_valid_ignores_proof_of_work
    (self : ZenChain.t) (latest : Block.t)
    (index : Z) (transactions : list Transaction.t) (timestamp nonce : Z) :
  ZenChain.is_chain_valid self = true ->
  ZenChain.get_latest_block self = Some latest ->
  ZenChain.is_chain_valid
    (ZenChain.with_chain
       (ZenChain.chain self
        ++ [Block.init index transactions timestamp (Block.hash latest) nonce])
       self)
  = true.
Proof.
  intros Hvalid Hlatest.
  eapply (is_chain_valid_append self latest); [exact Hvalid | exact Hlatest | | | ].
  - apply init_hash.
  - reflexivity.
  - reflexivity.
Qed.

Lemma is_chain_valid_ignores_proof_of_work_witness :
  ZenChain.difficulty More.unmined = 2%nat /\
  substring 0 2 (Block.hash More.unmined_block) = "e8" /\
  ZenChain.is_chain_valid More.unmined = true.
Proof.
  split; [reflexivity|]. split; [reflexivity|].
  assert (Hvalid : ZenChain.is_chain_valid Demo.ledger0 = true) by reflexivity.
  assert (Hlatest : ZenChain.get_latest_block Demo.ledger0 = Some Demo.genesis)
    by reflexivity.
  pose proof (is_chain_valid_ignores_proof_of_work Demo.ledger0 Demo.genesis
                1 [] 1700000001 0 Hvalid Hlatest) as H.
  assert (Hsame :
    ZenChain.with_chain
      (ZenChain.chain Demo.ledger0
       ++ [Block.init 1 [] 1700000001 (Block.hash Demo.genesis) 0]) Demo.ledger0
    = More.unmined) by (vm_compute; reflexivity).
  rewrite Hsame in H. exact H.
Defined.

(* ===================================================================== *)
(** ** Further properties: the proof-of-work loop *)
(* ===================================================================== *)

Section Loop.

Implicit Types (self block : Block.t) (difficulty fuel : nat).

Lemma mine_block_first fuel difficulty self block :
  Block.mine_block fuel difficulty self = Some block ->
  exists k, (k <= fuel)%nat /\
    block = Nat.iter k Block.bump self /\
    Block.nonce block = Block.nonce self + Z.of_nat k /\
    forall j, (j < k)%nat ->
      Block.unsolved difficulty (Nat.iter j Block.bump self) = true.
Proof.
  revert self. induction fuel as [|fuel IH]; intros self;
    rewrite mine_block_unfold;
    destruct (Block.unsolved difficulty self) eqn:Htest; try discriminate.
  - intros [= <-]. exists 0%nat. cbn. repeat split; intros; lia.
  - intros Hrun. destruct (IH _ Hrun) as (k & Hk & -> & Hnonce & Hbefore).
    exists (S k). split; [lia|]. split; [symmetry; apply iter_bump_succ|].
    split; [rewrite Hnonce, bump_nonce; lia|].
    intros [|j] Hj; [exact Htest|].
    rewrite iter_bump_succ. apply Hbefore. lia.
  - intros [= <-]. exists 0%nat. cbn. repeat split; intros; lia.
Qed.

Lemma zeros_weaken (d d' : nat) (h : string) :
  substring 0 d h = Block.zeros d -> (d' <= d)%nat ->
  substring 0 d' h = Block.zeros d'.
Proof.
  revert d h. induction d' as [|d' IH]; intros d h Hd Hle.
  - destruct h; reflexivity.
  - destruct d as [|d]; [lia|]. destruct h as [|c h]; [discriminate|].
    cbn in Hd |- *. injection Hd as -> Hd. f_equal. apply (IH d); [exact Hd|lia].
Qed.

Lemma zeros_length (d : nat) : String.length (Block.zeros d) = d.
Proof. induction d as [|d IH]; cbn; [reflexivity|]. rewrite IH. reflexivity. Qed.

Lemma substring_length_le (n : nat) (s : string) :
  (String.length (substring 0 n s) <= String.length s)%nat.
Proof.
  revert s. induction n as [|n IH]; intros [|c s]; cbn; try lia.
  specialize (IH s). lia.
Qed.

Lemma hex_length (n : nat) (x : Z) : String.length (SHA256.hex n x) = n.
Proof. induction n as [|n IH]; cbn; [reflexivity|]. rewrite IH. reflexivity. Qed.

Lemma hex_words_length (ws : list Z) :
  String.length (SHA256.hex_words ws) = (8 * length ws)%nat.
Proof.
  induction ws as [|w ws IH]; [reflexivity|].
  cbn [SHA256.hex_words length]. rewrite str_app_length, hex_length, IH. lia.
Qed.

Lemma hexdigest_length (s : string) : String.length (SHA256.hexdigest s) = 64%nat.
Proof.
  unfold SHA256.hexdigest. rewrite hex_words_length.
  destruct (digest_words_digest_like (SHA256.bytes_of_string s)) as [-> _].
  reflexivity.
Qed.

Lemma hex_digit_is_hex (x : Z) :
  Ledger.is_hex_digit (SHA256.hex_digit (Z.land x 15)) = true.
Proof.
  assert (Hrange : 0 <= Z.land x 15 < 16).
  { change 15 with (Z.ones 4). rewrite Z.land_ones by lia.
    apply Z.mod_pos_bound. lia. }
  assert (Hall : forallb (fun n => Ledger.is_hex_digit (SHA256.hex_digit (Z.of_nat n)))
                         (seq 0 16) = true) by reflexivity.
  rewrite forallb_forall in Hall.
  rewrite <- (Z2Nat.id (Z.land x 15)) by lia.
  apply Hall, in_seq. lia.
Qed.

Lemma all_chars_app (test : ascii -> bool) (s1 s2 : string) :
  Ledger.all_chars test (s1 +:+ s2)
  = Ledger.all_chars test s1 && Ledger.all_chars test s2.
Proof.
  induction s1 as [|c s1 IH]; [reflexivity|].
  change (test c && Ledger.all_chars test (s1 +:+ s2)
          = test c && Ledger.all_chars test s1 && Ledger.all_chars test s2).
  rewrite IH, andb_assoc. reflexivity.
Qed.

Lemma hex_all_hex (n : nat) (x : Z) :
  Ledger.all_chars Ledger.is_hex_digit (SHA256.hex n x) = true.
Proof.
  induction n as [|n IH]; [reflexivity|].
  cbn [SHA256.hex Ledger.all_chars]. rewrite hex_digit_is_hex, IH. reflexivity.
Qed.

Lemma hex_words_all_hex (ws : list Z) :
  Ledger.all_chars Ledger.is_hex_digit (SHA256.hex_words ws) = true.
Proof.
  induction ws as [|w ws IH]; [reflexivity|].
  cbn [SHA256.hex_words]. rewrite all_chars_app, hex_all_hex, IH. reflexivity.
Qed.

(** With a hash shorter than the difficulty the loop test never fails. *)
Lemma unsolved_short difficulty self :
  (String.length (Block.hash self) < difficulty)%nat ->
  Block.unsolved difficulty self = true.
Proof.
  intros Hshort. unfold Block.unsolved. apply negb_true_iff, String.eqb_neq.
  intros Heq. apply (f_equal String.length) in Heq. rewrite zeros_length in Heq.
  pose proof (substring_length_le difficulty (Block.hash self)). lia.
Qed.

Lemma mine_block_too_hard fuel difficulty self :
  (64 < difficulty)%nat ->
  String.length (Block.hash self) = 64%nat ->
  Block.mine_block fuel difficulty self = None.
Proof.
  intros Hhard. revert self. induction fuel as [|fuel IH]; intros self Hlen;
    rewrite mine_block_unfold, unsolved_short by lia; [reflexivity|].
  apply IH. apply hexdigest_length.
Qed.

End Loop.

(** X16: [mine_block] stops at the first nonce that works: when it returns,
    the nonce has grown by the number [k] of passes through the loop, the
    stored hash of the block passes the test, and after each smaller number
    of passes the test still failed. *)
Theorem mine_block_finds_first_nonce
    (self block : Block.t) (difficulty fuel : nat) :
  Block.mine_block fuel difficulty self = Some block ->
  exists k : nat,
    Block.nonce block = Block.nonce self + Z.of_nat k /\
    block = Nat.iter k Block.bump self /\
    substring 0 difficulty (Block.hash block) = Block.zeros difficulty /\
    forall j, (j < k)%nat ->
      substring 0 difficulty (Block.hash (Nat.iter j Block.bump self))
      <> Block.zeros difficulty.
Proof.
  intros Hrun.
  destruct (mine_block_first _ _ _ _ Hrun) as (k & _ & Hblock & Hnonce & Hbefore).
  exists k. split; [exact Hnonce|]. split; [exact Hblock|]. split.
  - apply unsolved_false. eapply mine_block_solved. exact Hrun.
  - intros j Hj Hzeros. apply unsolved_false in Hzeros.
    rewrite (Hbefore j Hj) in Hzeros. discriminate.
Qed.

Lemma mine_block_finds_first_nonce_witness :
  exists block,
    Block.mine_block 5 2 Demo.lone_block = Some block /\
    Block.nonce block = 1 /\
    substring 0 2 (Block.hash Demo.lone_block) <> "00".
Proof.
  assert (Hrun : exists block, Block.mine_block 5 2 Demo.lone_block = Some block
                               /\ Block.nonce block = 1).
  { eexists. split; vm_compute; reflexivity. }
  destruct Hrun as (block & Hrun & Hnonce). exists block.
  split; [exact Hrun|]. split; [exact Hnonce|].
  destruct (mine_block_finds_first_nonce _ _ _ _ Hrun) as (k & Hk & _ & _ & Hbefore).
  apply (Hbefore 0%nat). rewrite Hnonce in Hk. cbn in Hk. lia.
Defined.

(** X17: a mined block stays mined: calling [mine_block] again on the
    result, at the same or at a smaller difficulty, returns at once and
    changes nothing. *)
Theorem mine_block_again_is_no_op
    (self block : Block.t) (difficulty difficulty' fuel fuel' : nat) :
  Block.mine_block fuel difficulty self = Some block ->
  (difficulty' <= difficulty)%nat ->
  Block.mine_block fuel' difficulty' block = Some block.
Proof.
  intros Hrun Hle. rewrite mine_block_unfold.
  assert (Htest : Block.unsolved difficulty' block = false).
  { apply unsolved_false. apply (zeros_weaken difficulty); [|exact Hle].
    apply unsolved_false. eapply mine_block_solved. exact Hrun. }
  rewrite Htest. reflexivity.
Qed.

Lemma mine_block_again_is_no_op_witness :
  exists block,
    Block.mine_block 5 2 Demo.lone_block = Some block /\
    Block.mine_block 0 2 block = Some block /\
    Block.mine_block 0 1 block = Some block.
Proof.
  assert (Hrun : exists block, Block.mine_block 5 2 Demo.lone_block = Some block).
  { eexists. vm_compute. reflexivity. }
  destruct Hrun as (block & Hrun). exists block. split; [exact Hrun|]. split.
  - apply (mine_block_again_is_no_op _ _ _ _ _ _ Hrun). lia.
  - apply (mine_block_again_is_no_op _ _ _ _ _ _ Hrun). lia.
Defined.

(** X18: every digest is a text of 64 characters among [0-9a-f]; so the
    hash a [Block] or a [Transaction] gets from its constructor is one. *)
Theorem hashes_are_64_hex_digits :
  (forall s,
     String.length (SHA256.hexdigest s) = 64%nat /\
     Ledger.all_chars Ledger.is_hex_digit (SHA256.hexdigest s) = true) /\
  (forall index transactions timestamp previous_hash nonce,
     let block := Block.init index transactions timestamp previous_hash nonce in
     String.length (Block.hash block) = 64%nat /\
     Ledger.all_chars Ledger.is_hex_digit (Block.hash block) = true) /\
  (forall sender recipient amount nft_data now,
     let trans := Transaction.init sender recipient amount nft_data now in
     String.length (Transaction.hash trans) = 64%nat /\
     Ledger.all_chars Ledger.is_hex_digit (Transaction.hash trans) = true).
Proof.
  assert (Hdigest : forall s,
            String.length (SHA256.hexdigest s) = 64%nat /\
            Ledger.all_chars Ledger.is_hex_digit (SHA256.hexdigest s) = true).
  { intros s. split; [apply hexdigest_length | apply hex_words_all_hex]. }
  split; [exact Hdigest|]. split; intros; apply Hdigest.
Qed.

(** X19: at a difficulty above 64 the loop of [mine_block] never ends on a
    block that comes from the constructor: the hash has 64 characters, so
    its prefix can never equal that many zeros. *)
Theorem mine_block_never_ends_above_64
    (index : Z) (transactions : list Transaction.t) (timestamp : Z)
    (previous_hash : string) (nonce : Z) (difficulty : nat) :
  (64 < difficulty)%nat ->
  forall fuel,
    Block.mine_block fuel difficulty
      (Block.init index transactions timestamp previous_hash nonce) = None.
Proof.
  intros Hhard fuel. apply mine_block_too_hard; [exact Hhard|].
  apply hexdigest_length.
Qed.

Lemma mine_block_never_ends_above_64_witness :
  Block.mine_block 1000 65 (Block.init 1 [] 1700000174 "0" 0) = None.
Proof.
  apply (mine_block_never_ends_above_64 1 [] 1700000174 "0" 0 65). lia.
Defined.

(* ===================================================================== *)
(** ** Further properties: the serialisation *)
(* ===================================================================== *)

Section Printable.

Lemma printable_app (s1 s2 : string) :
  Ledger.printable (s1 +:+ s2) = Ledger.printable s1 && Ledger.printable s2.
Proof. apply all_chars_app. Qed.

Lemma printable_cons (c : ascii) (s : string) :
  Ledger.printable (String c s) = Ledger.is_printable c && Ledger.printable s.
Proof. reflexivity. Qed.

Lemma pretty_N_char_printable (x : N) :
  Ledger.is_printable (pretty_N_char x) = true.
Proof.
  unfold pretty_N_char.
  repeat (match goal with |- context [match ?y with _ => _ end] => destruct y end);
    reflexivity.
Qed.

Lemma pretty_N_go_printable (x : N) (s : string) :
  Ledger.printable s = true -> Ledger.printable (pretty_N_go x s) = true.
Proof.
  revert s. induction (N.lt_wf_0 x) as [x _ IH]; intros s Hs.
  destruct (decide (x = 0)%N) as [->|Hx]; [exact Hs|].
  rewrite pretty_N_go_step by lia. apply IH.
  - apply N.div_lt; lia.
  - rewrite printable_cons, pretty_N_char_printable. exact Hs.
Qed.

Lemma pretty_N_printable (x : N) : Ledger.printable (pretty x) = true.
Proof.
  unfold pretty, pretty_N. destruct (decide (x = 0)%N); [reflexivity|].
  apply pretty_N_go_printable. reflexivity.
Qed.

Lemma pretty_Z_printable (x : Z) : Ledger.printable (pretty x) = true.
Proof.
  unfold pretty, pretty_Z. destruct x as [|p|p]; [reflexivity| |].
  - exact (pretty_N_printable (N.pos p)).
  - change (pretty p) with (pretty (N.pos p)).
    rewrite printable_app, pretty_N_printable. reflexivity.
Qed.

Lemma escape_char_printable (c : ascii) :
  Ledger.printable (Json.escape_char c) = true.
Proof. destruct c as [[] [] [] [] [] [] [] []]; reflexivity. Qed.

Lemma escape_printable (s : string) : Ledger.printable (Json.escape s) = true.
Proof.
  induction s as [|c s IH]; [reflexivity|].
  cbn [Json.escape]. rewrite printable_app, escape_char_printable, IH. reflexivity.
Qed.

Lemma dumps_str_printable (s : string) : Ledger.printable (Json.dumps_str s) = true.
Proof.
  unfold Json.dumps_str.
  rewrite printable_cons, printable_app, escape_printable. reflexivity.
Qed.

Lemma concat_printable (sep : string) (l : list string) :
  Ledger.printable sep = true ->
  Forall (fun s => Ledger.printable s = true) l ->
  Ledger.printable (String.concat sep l) = true.
Proof.
  intros Hsep Hl. induction Hl as [|s l Hs Hl IH]; [reflexivity|].
  destruct l as [|s' l]; [exact Hs|].
  change (Ledger.printable (s +:+ sep +:+ String.concat sep (s' :: l)) = true).
  rewrite !printable_app, Hs, Hsep, IH. reflexivity.
Qed.

Lemma insert_item_forall (P : string * string -> Prop) kv l :
  P kv -> Forall P l -> Forall P (Json.insert_item kv l).
Proof.
  intros Hkv Hl. induction Hl as [|kv' l Hkv' Hl IH]; cbn [Json.insert_item].
  - constructor; [exact Hkv | constructor].
  - destruct (String.ltb _ _); repeat constructor; assumption.
Qed.

Lemma sort_items_forall (P : string * string -> Prop) l :
  Forall P l -> Forall P (Json.sort_items l).
Proof.
  unfold Json.sort_items. intros Hl.
  assert (Hacc : Forall P []) by constructor. revert Hacc.
  generalize (@nil (string * string)) as acc.
  induction Hl as [|kv l Hkv Hl IH]; intros acc Hacc; cbn [fold_left]; [exact Hacc|].
  apply IH, insert_item_forall; assumption.
Qed.

Lemma dumps_printable : forall v : Json.value, Ledger.printable (Json.dumps v) = true.
Proof.
  fix IH 1. intros [|n|s|l|d].
  - reflexivity.
  - apply pretty_Z_printable.
  - apply dumps_str_printable.
  - rewrite dumps_arr, !printable_app, concat_printable;
      [reflexivity|reflexivity|].
    induction l as [|v l IHl]; cbn [List.map];
      [constructor | constructor; [apply IH | exact IHl]].
  - rewrite dumps_obj, !printable_app, concat_printable;
      [reflexivity|reflexivity|].
    apply Forall_forall. intros item Hitem.
    apply list_elem_of_In, in_map_iff in Hitem as (kv & <- & Hkv).
    assert (Hall : Forall (fun kv => Ledger.printable (snd kv) = true)
                     (Json.sort_items (List.map (fun '(k, v) => (k, Json.dumps v)) d))).
    { apply sort_items_forall.
      clear Hkv.
      induction d as [|[k v] d IHd]; cbn [List.map];
        [constructor | constructor; [apply IH | exact IHd]]. }
    rewrite Forall_forall in Hall. apply list_elem_of_In in Hkv.
    unfold Json.dumps_item.
    rewrite !printable_app, dumps_str_printable, (Hall kv Hkv). reflexivity.
Qed.

End Printable.

Lemma printable_bytes (s : string) :
  Ledger.printable s = true ->
  Forall (fun b => 32 <= b <= 126) (SHA256.bytes_of_string s).
Proof.
  induction s as [|c s IH]; intros Hs; cbn [SHA256.bytes_of_string]; [constructor|].
  rewrite printable_cons in Hs. apply andb_true_iff in Hs as [Hc Hs].
  constructor; [|apply IH, Hs].
  unfold Ledger.is_printable in Hc. apply andb_true_iff in Hc as [Hlow Hhigh].
  apply N.leb_le in Hlow, Hhigh. lia.
Qed.

(** X20: whatever the value, the text [json.dumps] returns is made of
    printable 7-bit characters only ([ensure_ascii] escapes the others);
    so the bytes [calculate_hash] digests, the [encode()] of such a text,
    are the codes of its characters, all between 32 and 126. *)
Theorem dumps_is_printable_ascii :
  (forall v, Ledger.printable (Json.dumps v) = true) /\
  (forall block,
     Ledger.printable (Block.block_string block) = true /\
     Forall (fun b => 32 <= b <= 126)
            (SHA256.bytes_of_string (Block.block_string block))).
Proof.
  split; [exact dumps_printable|]. intros block.
  split; [apply dumps_printable|]. apply printable_bytes, dumps_printable.
Qed.

Section KeyOrder.

Lemma ltb_lt (a b : string) : String.ltb a b = true <-> String.le a b /\ a <> b.
Proof.
  unfold String.ltb, String.le, String.leb.
  destruct (String.compare a b) eqn:Hcmp.
  - apply String.compare_eq_iff in Hcmp as ->. split; [discriminate|].
    intros [_ Hne]. contradiction.
  - split; [|reflexivity]. intros _. split; [exact I|].
    intros ->. pose proof (String.compare_antisym b b) as Hanti.
    rewrite Hcmp in Hanti. discriminate.
  - split; [discriminate|]. intros [[] _].
Qed.

Lemma ltb_trans (a b c : string) :
  String.ltb a b = true -> String.ltb b c = true -> String.ltb a c = true.
Proof.
  rewrite !ltb_lt. intros [Hab Hne] [Hbc Hne']. split.
  - etransitivity; eassumption.
  - intros ->. apply Hne. apply (anti_symm String.le); assumption.
Qed.

Lemma ltb_total (a b : string) :
  a <> b -> String.ltb b a = negb (String.ltb a b).
Proof.
  intros Hne. destruct (String.ltb a b) eqn:Hab; cbn [negb].
  - apply not_true_iff_false. intros Hba.
    apply ltb_lt in Hab as [Hab _]. apply ltb_lt in Hba as [Hba _].
    apply Hne. apply (anti_symm String.le); assumption.
  - apply ltb_lt. split; [|congruence].
    destruct (total String.le a b) as [Hle|Hle]; [|exact Hle].
    exfalso. apply not_true_iff_false in Hab. apply Hab, ltb_lt. auto.
Qed.

(** Insertions of items with different keys commute. *)
Lemma insert_item_comm (x y : string * string) (l : list (string * string)) :
  fst x <> fst y ->
  Json.insert_item x (Json.insert_item y l) = Json.insert_item y (Json.insert_item x l).
Proof.
  intros Hne. induction l as [|z l IH].
  - cbn [Json.insert_item]. rewrite (ltb_total (fst x) (fst y)) by exact Hne.
    destruct (String.ltb (fst x) (fst y)); reflexivity.
  - cbn [Json.insert_item].
    destruct (String.ltb (fst y) (fst z)) eqn:Hyz;
      destruct (String.ltb (fst x) (fst z)) eqn:Hxz; cbn [Json.insert_item].
    + rewrite (ltb_total (fst x) (fst y)) by exact Hne.
      destruct (String.ltb (fst x) (fst y)); cbn [negb]; rewrite ?Hxz, ?Hyz;
        reflexivity.
    + rewrite Hxz, Hyz.
      destruct (String.ltb (fst x) (fst y)) eqn:Hxy; [|reflexivity].
      rewrite (ltb_trans _ _ _ Hxy Hyz) in Hxz. discriminate.
    + rewrite Hxz, Hyz.
      destruct (String.ltb (fst y) (fst x)) eqn:Hyx; [|reflexivity].
      rewrite (ltb_trans _ _ _ Hyx Hxz) in Hyz. discriminate.
    + rewrite Hxz, Hyz, IH. reflexivity.
Qed.

Lemma sort_items_permutation (l l' : list (string * string)) :
  l ≡ₚ l' -> NoDup (List.map fst l) ->
  forall acc, fold_left (fun acc kv => Json.insert_item kv acc) l acc
              = fold_left (fun acc kv => Json.insert_item kv acc) l' acc.
Proof.
  induction 1 as [|x l l' Hperm IH|x y l|l l' l'' Hperm IH Hperm' IH'];
    intros Hnodup acc.
  - reflexivity.
  - cbn [fold_left]. apply IH. cbn [List.map] in Hnodup.
    apply NoDup_cons in Hnodup as [_ Hnodup]. exact Hnodup.
  - cbn [fold_left]. f_equal. apply insert_item_comm.
    cbn [List.map] in Hnodup. apply NoDup_cons in Hnodup as [Hnotin _].
    intros Heq. apply Hnotin. rewrite Heq. apply elem_of_cons. auto.
  - rewrite IH by exact Hnodup. apply IH'.
    assert (Hkeys : List.map fst l ≡ₚ List.map fst l')
      by (apply Permutation_map; exact Hperm).
    rewrite <- Hkeys. exact Hnodup.
Qed.

End KeyOrder.

(** X21: with [sort_keys=True] the text of a dictionary does not depend on
    the order in which its keys were inserted; so two transactions that
    differ only in the key order of their payload get the same hash. *)
Theorem dumps_ignores_key_order (d d' : list (string * Json.value)) :
  NoDup (List.map fst d) ->
  d ≡ₚ d' ->
  Json.dumps (Json.Obj d) = Json.dumps (Json.Obj d') /\
  forall sender recipient amount now,
    Transaction.hash (Transaction.init sender recipient amount (Json.Obj d) now)
    = Transaction.hash (Transaction.init sender recipient amount (Json.Obj d') now).
Proof.
  intros Hnodup Hperm.
  assert (Hdumps : Json.dumps (Json.Obj d) = Json.dumps (Json.Obj d')).
  { rewrite !dumps_obj. f_equal. f_equal. f_equal. f_equal.
    unfold Json.sort_items. apply sort_items_permutation.
    - apply Permutation_map. exact Hperm.
    - rewrite List.map_map.
      erewrite List.map_ext; [exact Hnodup|]. intros [k v]. reflexivity. }
  split; [exact Hdumps|]. intros sender recipient amount now.
  unfold Transaction.init. cbn [Transaction.hash].
  unfold Transaction.calculate_hash. cbn [Transaction.sender Transaction.recipient
    Transaction.amount Transaction.nft_data Transaction.timestamp].
  rewrite !dumps_obj. cbn [List.map]. rewrite Hdumps. reflexivity.
Qed.

Lemma dumps_ignores_key_order_witness :
  Json.dumps (Json.Obj [("nft_id", Json.Str "X"); ("action", Json.Str "transfer")])
  = Json.dumps (Json.Obj [("action", Json.Str "transfer"); ("nft_id", Json.Str "X")]).
Proof.
  refine (proj1 (dumps_ignores_key_order
                   [("nft_id", Json.Str "X"); ("action", Json.Str "transfer")]
                   [("action", Json.Str "transfer"); ("nft_id", Json.Str "X")] _ _)).
  - cbn [List.map fst]. apply NoDup_cons. split.
    + intros Hin. apply list_elem_of_singleton in Hin. discriminate.
    + apply NoDup_singleton.
  - apply perm_swap.
Defined.

(* ===================================================================== *)
(** ** Further properties: from submission to block *)
(* ===================================================================== *)

Lemma reachable_valid (self : ZenChain.t) :
  ZenChain.reachable self ->
  ZenChain.chain self <> [] /\ ZenChain.is_chain_valid self = true.
Proof.
  induction 1 as [now|self self' _ IH Hstep].
  - split; [discriminate | apply is_chain_valid_init].
  - eapply step_keeps_valid; eauto.
Qed.

(** X22: a transaction handed to [create_transaction] is committed by the
    next call of [mine_pending_transactions] that returns, whatever else
    is submitted before that call: the new head of the chain holds the
    earlier pending transactions, then the transaction, then what was
    submitted after it; the chain is one block longer; and the pending
    pool is the reward transaction of the call, alone. *)
Theorem submitted_transaction_is_mined_next
    (self mid self' : ZenChain.t) (transaction : Transaction.t)
    (fuel : nat) (now_block now_reward : Z) (R : string) :
  rtc Ledger.submission (ZenChain.create_transaction transaction self) mid ->
  ZenChain.mine_pending_transactions fuel now_block now_reward R mid
    = ZenChain.Returns self' ->
  exists (block : Block.t) (later : list Transaction.t),
    ZenChain.pending_transactions mid
    = ZenChain.pending_transactions self ++ transaction :: later /\
    ZenChain.get_latest_block self' = Some block /\
    Block.transactions block
    = ZenChain.pending_transactions self ++ transaction :: later /\
    ZenChain.chain self' = ZenChain.chain self ++ [block] /\
    length (ZenChain.chain self') = S (length (ZenChain.chain self)) /\
    ZenChain.committed_transactions self'
    = ZenChain.committed_transactions self
      ++ ZenChain.pending_transactions self ++ transaction :: later /\
    ZenChain.pending_transactions self'
    = [Transaction.init None R (ZenChain.mining_reward self) Json.Null now_reward].
Proof.
  intros Hsubmitted Hrun.
  destruct (submissions_frame _ _ Hsubmitted) as (Hchain & _ & Hreward & later & Hlater).
  cbn [ZenChain.create_transaction ZenChain.chain ZenChain.pending_transactions
       ZenChain.mining_reward] in Hchain, Hreward, Hlater.
  rewrite <- app_assoc in Hlater. cbn [app] in Hlater.
  pose proof (committed_transactions_mined _ _ _ _ _ _ Hrun) as Hcommitted.
  pose proof (pending_after_mining _ _ _ _ _ _ Hrun) as Hpending.
  pose proof Hrun as Hinv. apply mine_pending_transactions_inv in Hinv
    as (latest & block & _ & Hblock & ->).
  destruct (mine_block_frame _ _ _ _ Hblock) as (_ & Htxs & _).
  exists block, later.
  split; [exact Hlater|]. split; [apply last_snoc|].
  split; [rewrite Htxs; exact Hlater|].
  split; [cbn [ZenChain.chain]; rewrite Hchain; reflexivity|].
  split; [cbn [ZenChain.chain]; rewrite Hchain, length_app; cbn [length]; lia|].
  split.
  - rewrite Hcommitted, Hlater. unfold ZenChain.committed_transactions.
    rewrite Hchain. reflexivity.
  - rewrite Hpending, Hreward. reflexivity.
Qed.

Lemma submitted_transaction_is_mined_next_witness :
  exists block,
    ZenChain.get_latest_block More.refunded = Some block /\
    Block.transactions block
    = [Transaction.init None Demo.miner 100 Json.Null 1700000021; More.refund] /\
    length (ZenChain.chain More.refunded) = 3%nat /\
    ZenChain.pending_transactions More.refunded
    = [Transaction.init None Demo.bob 100 Json.Null 1700000047].
Proof.
  assert (Hsubmitted :
    rtc Ledger.submission (ZenChain.create_transaction More.refund Demo.ledger2)
        More.refunding) by apply rtc_refl.
  destruct (submitted_transaction_is_mined_next _ _ _ _ _ _ _ _ Hsubmitted refund_mining)
    as (block & later & Hlater & Hlatest & Htxs & _ & Hlen & _ & Hpending).
  assert (Hnone : later = []).
  { apply (f_equal (fun l => tail (tail l))) in Hlater. cbn [tail app] in Hlater.
    symmetry. exact Hlater. }
  subst later.
  exists block. split; [exact Hlatest|].
  split; [rewrite Htxs; vm_compute; reflexivity|].
  split; [exact Hlen | exact Hpending].
Defined.

(** X23: in a state reached by public operations the chain has a head, so
    [mine_pending_transactions] never raises: it returns, into a state that
    is reachable again, or its loop is still running when the fuel is
    spent. *)
Theorem mining_never_raises_when_reachable
    (self : ZenChain.t) (fuel : nat) (now_block now_reward : Z) (R : string) :
  ZenChain.reachable self ->
  is_Some (ZenChain.get_latest_block self) /\
  (ZenChain.mine_pending_transactions fuel now_block now_reward R self
   = ZenChain.OutOfFuel \/
   exists self',
     ZenChain.mine_pending_transactions fuel now_block now_reward R self
     = ZenChain.Returns self' /\ ZenChain.reachable self').
Proof.
  intros Hreach.
  destruct (reachable_valid self Hreach) as [Hne _].
  split; [apply last_is_Some; exact Hne|].
  destruct (ZenChain.mine_pending_transactions fuel now_block now_reward R self)
    as [self'| |] eqn:Hrun.
  - right. exists self'. split; [reflexivity|].
    eapply ZenChain.reachable_step; [exact Hreach|].
    eapply ZenChain.step_mine_pending_transactions. exact Hrun.
  - exfalso. unfold ZenChain.mine_pending_transactions in Hrun.
    destruct (ZenChain.get_latest_block self) as [latest|] eqn:Hlatest.
    + destruct (Block.mine_block _ _ _); discriminate.
    + apply last_None in Hlatest. contradiction.
  - left. reflexivity.
Qed.

Lemma mining_never_raises_when_reachable_witness :
  is_Some (ZenChain.get_latest_block Demo.ledger3) /\
  ZenChain.mine_pending_transactions 0 1700000030 1700000031 Demo.miner Demo.ledger3
  <> ZenChain.IndexError.
Proof.
  destruct (mining_never_raises_when_reachable Demo.ledger3 0 1700000030 1700000031
              Demo.miner demo_reachable) as [Hlatest Hrun].
  split; [exact Hlatest|].
  destruct Hrun as [->|(self' & -> & _)]; discriminate.
Defined.
